(** * node-grocy: the request dispatcher, the response normaliser and the
      validation helpers of [index.mjs], embedded in Rocq.

    The embedding follows the JavaScript source function by function.  Values
    are first-order data (what [JSON.parse] can produce, plus [undefined]);
    strings are sequences of UTF-16 code units; a thrown [Error] is kept
    through its [message]; the host functions the source calls but does not
    define ([fetch], the URL parser, [JSON.stringify], the string form of a
    finite number) are the fields of a [Runtime] class. *)

From Stdlib Require Import ZArith NArith QArith List String Ascii Bool Lia.
From Stdlib Require Import DecimalString.
Import ListNotations.

Local Open Scope list_scope.
Local Open Scope bool_scope.

(** ** Strings: sequences of UTF-16 code units *)

Definition jsstring := list N.

(** A source literal, one code unit per character. *)
Definition js (s : string) : jsstring :=
  List.map N_of_ascii (list_ascii_of_string s).

Fixpoint str_eqb (a b : jsstring) : bool :=
  match a, b with
  | [], [] => true
  | x :: a', y :: b' => N.eqb x y && str_eqb a' b'
  | _, _ => false
  end.

(** [s.startsWith(p)] *)
Fixpoint startsWith (s p : jsstring) {struct p} : bool :=
  match p, s with
  | [], _ => true
  | _ :: _, [] => false
  | y :: p', x :: s' => N.eqb x y && startsWith s' p'
  end.

(** [s.endsWith(p)] *)
Definition endsWith (s p : jsstring) : bool :=
  startsWith (rev s) (rev p).

(** [s.includes(p)] *)
Fixpoint includes (s p : jsstring) : bool :=
  match s with
  | [] => startsWith [] p
  | _ :: s' => startsWith s p || includes s' p
  end.

(** The code units removed by [String.prototype.trim]: ECMAScript WhiteSpace
    and LineTerminator. *)
Definition is_whitespace (c : N) : bool :=
  existsb (N.eqb c)
    [9; 10; 11; 12; 13; 32; 160; 5760; 8232; 8233; 8239; 8287; 12288; 65279]%N
  || (N.leb 8192 c && N.leb c 8202).

Fixpoint trimStart (s : jsstring) : jsstring :=
  match s with
  | [] => []
  | c :: s' => if is_whitespace c then trimStart s' else s
  end.

Definition trimEnd (s : jsstring) : jsstring := rev (trimStart (rev s)).

(** [s.trim()] *)
Definition trim (s : jsstring) : jsstring := trimEnd (trimStart s).

(** Decimal form of an integer, as a template literal prints an integer of
    magnitude below 10^21; the status codes, positions and length bounds
    that the source prints are such. *)
Definition Z_toString (z : Z) : jsstring :=
  js (NilZero.string_of_int (Z.to_int z)).

(** [parts.join(sep)] *)
Fixpoint join (sep : jsstring) (parts : list jsstring) : jsstring :=
  match parts with
  | [] => []
  | [p] => p
  | p :: rest => p ++ sep ++ join sep rest
  end.

(** The conversion to a scalar-value string that [URLSearchParams.append]
    applies to both arguments: an unpaired surrogate becomes U+FFFD. *)
Definition is_high_surrogate (c : N) : bool := N.leb 55296 c && N.leb c 56319.
Definition is_low_surrogate (c : N) : bool := N.leb 56320 c && N.leb c 57343.

Fixpoint USVString (s : jsstring) : jsstring :=
  match s with
  | [] => []
  | c :: s' =>
      if is_high_surrogate c then
        match s' with
        | d :: s'' =>
            if is_low_surrogate d then c :: d :: USVString s''
            else 65533%N :: USVString s'
        | [] => [65533%N]
        end
      else if is_low_surrogate c then 65533%N :: USVString s'
      else c :: USVString s'
  end.

(** ** Values *)

(** A JavaScript number: the three non-finite values, or a finite one kept as
    the rational it denotes (so [+0] and [-0] are one value). *)
Inductive JsNum : Type :=
| NaN
| PosInf
| NegInf
| Fin (q : Q).

(** A data value.  An object is the list of its own properties in
    enumeration order, no key twice; its prototype is [Object.prototype],
    and none of its properties is callable. *)
#[warning="-register-all"]
Inductive JsVal : Type :=
| JUndefined
| JNull
| JBool (b : bool)
| JNum (n : JsNum)
| JStr (s : jsstring)
| JArr (elems : list JsVal)
| JObj (props : list (jsstring * JsVal)).

(** [typeof v] *)
Definition typeof (v : JsVal) : jsstring :=
  match v with
  | JUndefined => js "undefined"
  | JNull => js "object"
  | JBool _ => js "boolean"
  | JNum _ => js "number"
  | JStr _ => js "string"
  | JArr _ => js "object"
  | JObj _ => js "object"
  end.

Definition isNaN (n : JsNum) : bool :=
  match n with NaN => true | _ => false end.

(** [a < b] on numbers; any comparison with [NaN] is false. *)
Definition js_lt (a b : JsNum) : bool :=
  match a, b with
  | NaN, _ | _, NaN => false
  | NegInf, NegInf => false
  | NegInf, _ => true
  | _, NegInf => false
  | PosInf, _ => false
  | Fin _, PosInf => true
  | Fin x, Fin y => negb (Qle_bool y x)
  end.

(** ToBoolean *)
Definition truthy (v : JsVal) : bool :=
  match v with
  | JUndefined | JNull => false
  | JBool b => b
  | JNum NaN => false
  | JNum (Fin q) => negb (Qeq_bool q 0)
  | JNum _ => true
  | JStr s => negb (str_eqb s [])
  | JArr _ | JObj _ => true
  end.

Definition is_null (v : JsVal) : bool :=
  match v with JNull => true | _ => false end.

Definition is_undefined (v : JsVal) : bool :=
  match v with JUndefined => true | _ => false end.

(** [Array.isArray(v)] *)
Definition Array_isArray (v : JsVal) : bool :=
  match v with JArr _ => true | _ => false end.

(** ** Errors and completions *)

Record Error : Type := mkError { message : jsstring }.

Inductive Result (A : Type) : Type :=
| Return (a : A)
| Throw (e : Error).

Arguments Return {A} a.
Arguments Throw {A} e.

(** Sequencing of computations that touch no state. *)
Definition and_then {A B : Type} (r : Result A) (k : A -> Result B) : Result B :=
  match r with
  | Return a => k a
  | Throw e => Throw e
  end.

Notation "x <-- r ;; k" := (and_then r (fun x => k))
  (at level 61, r at next level, right associativity).

(** [list.forEach(f)] for a callback [f] that updates a state and can
    throw: the first failure ends the walk. *)
Fixpoint for_each {A S : Type} (f : S -> A -> Result S) (l : list A) (s : S)
  : Result S :=
  match l with
  | [] => Return s
  | a :: l' => s' <-- f s a ;; for_each f l' s'
  end.

(** ** The host boundary *)

(** A [URL] object, kept as the string it was constructed from and the
    current list of its [searchParams]. *)
Record URL : Type := mkURL {
  url_source : jsstring;
  searchParams : list (jsstring * jsstring)
}.

(** The second argument of [fetch]. *)
Record RequestInit : Type := mkInit {
  init_method : jsstring;
  init_headers : list (jsstring * jsstring);
  init_body : option JsVal
}.

(** What the source reads from a transport response: [status], [ok],
    [headers.get('content-type')] and the outcome of the two body readers. *)
Record Response : Type := mkResponse {
  status : Z;
  ok : bool;
  content_type : option jsstring;
  json : Result JsVal;
  text : Result jsstring
}.

(** The settled promise of a [fetch] call. *)
Inductive FetchResult : Type :=
| Resolved (r : Response)
| Rejected (e : Error).

Class Runtime : Type := {
  (** Number::toString on a finite number *)
  finite_toString : Q -> jsstring;
  (** [new URL(s)]: [None] when the parser rejects [s], else the query pairs
      already present in [s] *)
  URL_parse : jsstring -> option (list (jsstring * jsstring));
  (** [JSON.stringify] *)
  JSON_stringify : JsVal -> jsstring;
  (** the transport *)
  fetch : URL -> RequestInit -> FetchResult
}.

Section Conversions.
Context {rt : Runtime}.

(** Number::toString *)
Definition Number_toString (n : JsNum) : jsstring :=
  match n with
  | NaN => js "NaN"
  | PosInf => js "Infinity"
  | NegInf => js "-Infinity"
  | Fin q => finite_toString q
  end.

(** Whether an object has an own property [name]. *)
Definition has_own (props : list (jsstring * JsVal)) (name : jsstring) : bool :=
  existsb (fun kv => str_eqb (fst kv) name) props.

(** The TypeError of ToPrimitive on an object without a callable [toString]
    or [valueOf] that yields a primitive (message as V8 words it). *)
Definition not_primitive : Error :=
  mkError (js "Cannot convert object to primitive value").

(** ToString on a data value.  An array prints as [join(",")] with [null]
    and [undefined] elements empty, and fails where an element fails.  An
    object prints as "[object Object]" through [Object.prototype.toString],
    unless an own property [toString] shadows that method: the own property
    is not callable, [Object.prototype.valueOf] (or an own [valueOf]) yields
    no primitive, and the conversion throws a TypeError. *)
Fixpoint ToString (v : JsVal) : Result jsstring :=
  match v with
  | JUndefined => Return (js "undefined")
  | JNull => Return (js "null")
  | JBool true => Return (js "true")
  | JBool false => Return (js "false")
  | JNum n => Return (Number_toString n)
  | JStr s => Return s
  | JArr elems =>
      parts <-- (fix each (l : list JsVal) : Result (list jsstring) :=
                   match l with
                   | [] => Return []
                   | e :: l' =>
                       part <-- match e with
                                | JUndefined | JNull => Return []
                                | _ => ToString e
                                end ;;
                       rest <-- each l' ;;
                       Return (part :: rest)
                   end) elems ;;
      Return (join (js ",") parts)
  | JObj props =>
      if has_own props (js "toString") then Throw not_primitive
      else Return (js "[object Object]")
  end.

(** The string parts of the elements of a sequence, as [join] takes them. *)
Definition element_parts : list JsVal -> Result (list jsstring) :=
  fix each (l : list JsVal) : Result (list jsstring) :=
    match l with
    | [] => Return []
    | e :: l' =>
        part <-- match e with
                 | JUndefined | JNull => Return []
                 | _ => ToString e
                 end ;;
        rest <-- each l' ;;
        Return (part :: rest)
    end.

(** [value.toString()]: the method of the value's prototype, which prints
    what ToString prints; on an object with an own property [toString] the
    call fails, since that property is not callable, and on [null] and
    [undefined] the property read fails (messages as V8 words them). *)
Definition toString_method (value : JsVal) : Result jsstring :=
  match value with
  | JUndefined =>
      Throw (mkError (js "Cannot read properties of undefined (reading 'toString')"))
  | JNull =>
      Throw (mkError (js "Cannot read properties of null (reading 'toString')"))
  | JObj props =>
      if has_own props (js "toString")
      then Throw (mkError (js "value.toString is not a function"))
      else Return (js "[object Object]")
  | _ => ToString value
  end.

(** [new Error(message)] for a [message] other than [undefined] *)
Definition new_Error (message : JsVal) : Result Error :=
  s <-- ToString message ;;
  Return (mkError s).

(** [new URL(s)] *)
Definition new_URL (s : jsstring) : Result URL :=
  match URL_parse s with
  | Some q => Return (mkURL s q)
  | None => Throw (mkError (js "Invalid URL"))
  end.

(** [url.searchParams.append(name, value)]: both arguments are converted
    to scalar-value strings, the value through ToString. *)
Definition URLSearchParams_append (name : jsstring) (value : JsVal) (url : URL)
  : Result URL :=
  value <-- ToString value ;;
  Return (mkURL (url_source url)
                (searchParams url ++ [(USVString name, USVString value)])).

End Conversions.

(** [v[name]] for a property name that no built-in prototype defines: reading
    it from [null] or [undefined] throws a TypeError (message as V8 words
    it), an object yields its own property, any other value [undefined]. *)
Definition get_property (v : JsVal) (name : jsstring) : Result JsVal :=
  match v with
  | JNull =>
      Throw (mkError (js "Cannot read properties of null (reading '" ++ name ++ js "')"))
  | JUndefined =>
      Throw (mkError (js "Cannot read properties of undefined (reading '" ++ name ++ js "')"))
  | JObj props =>
      match find (fun kv => str_eqb (fst kv) name) props with
      | Some kv => Return (snd kv)
      | None => Return JUndefined
      end
  | _ => Return JUndefined
  end.

(** Keys of an indexed value: "0", "1", ... *)
Definition indexed {A : Type} (l : list A) : list (jsstring * A) :=
  combine (List.map (fun i => Z_toString (Z.of_nat i)) (seq 0 (List.length l))) l.

(** [Object.entries(v)] for a value other than [null] and [undefined]: the
    own enumerable properties in enumeration order. *)
Definition Object_entries (v : JsVal) : list (jsstring * JsVal) :=
  match v with
  | JObj props => props
  | JArr elems => indexed elems
  | JStr s => indexed (List.map (fun c => JStr [c]) s)
  | _ => []
  end.

(** [Object.keys(v)] *)
Definition Object_keys (v : JsVal) : list jsstring :=
  List.map fst (Object_entries v).

(** ** The order of the properties of a new object *)

Definition digit_value (c : N) : option N :=
  if N.leb 48 c && N.leb c 57 then Some (c - 48)%N else None.

Fixpoint decimal_value (acc : N) (s : jsstring) : option N :=
  match s with
  | [] => Some acc
  | c :: s' =>
      match digit_value c with
      | Some d => decimal_value (10 * acc + d) s'
      | None => None
      end
  end.

(** The array index a property key denotes, if any: the key is the decimal
    form, without a leading zero, of an integer from 0 to 2^32 - 2. *)
Definition array_index (key : jsstring) : option N :=
  match key with
  | [] => None
  | c :: rest =>
      if N.eqb c 48 && negb (str_eqb rest []) then None
      else
        match decimal_value 0 key with
        | Some n => if N.leb n 4294967294 then Some n else None
        | None => None
        end
  end.

(** A property of index [i] put in its place among index-keyed properties
    that are in ascending order. *)
Fixpoint insert_indexed (i : N) (kv : jsstring * JsVal)
    (l : list (N * (jsstring * JsVal))) : list (N * (jsstring * JsVal)) :=
  match l with
  | [] => [(i, kv)]
  | (j, kv') :: l' =>
      if N.leb i j then (i, kv) :: l else (j, kv') :: insert_indexed i kv l'
  end.

(** The index-keyed properties among [props], in ascending order. *)
Fixpoint index_keyed (props : list (jsstring * JsVal))
  : list (N * (jsstring * JsVal)) :=
  match props with
  | [] => []
  | kv :: rest =>
      match array_index (fst kv) with
      | Some i => insert_indexed i kv (index_keyed rest)
      | None => index_keyed rest
      end
  end.

(** The other properties among [props], in the order of [props]. *)
Definition name_keyed (props : list (jsstring * JsVal)) : list (jsstring * JsVal) :=
  filter (fun kv => match array_index (fst kv) with Some _ => false | None => true end)
         props.

(** The object that an object literal creates when it defines the
    properties [props] one after the other, no key twice: its own properties
    are enumerated with the array indices first, in ascending order, and the
    other keys after them in the order of their creation. *)
Definition object_literal (props : list (jsstring * JsVal)) : JsVal :=
  JObj (List.map snd (index_keyed props) ++ name_keyed props).

(** ** Validation helpers *)

Definition with_default {A : Type} (d : A) (o : option A) : A :=
  match o with Some a => a | None => d end.

(** The options object of [validateNumber]; an omitted field is [None]. *)
Record NumberOptions : Type := mkNumberOptions {
  opt_min : option JsNum;
  opt_max : option JsNum
}.

(** The options object of [validateString]; an omitted field is [None]. *)
Record StringOptions : Type := mkStringOptions {
  opt_required : option bool;
  opt_maxLength : option Z;
  opt_minLength : option Z;
  opt_sanitize : option bool
}.

(** Modelled from the spec: [validator.escape] of the npm package
    [validator], which is imported by [index.mjs] and not part of the
    sources.  The spec calls it HTML-entity escaping; the replacement table
    is the package's: ampersand, double quote, apostrophe, less-than,
    greater-than, slash, backslash and backtick each become an entity.  The
    tests of the repository show the entities of less-than, greater-than,
    double quote and slash. *)
Definition escape_unit (c : N) : jsstring :=
  if N.eqb c 38 then js "&amp;"
  else if N.eqb c 34 then js "&quot;"
  else if N.eqb c 39 then js "&#x27;"
  else if N.eqb c 60 then js "&lt;"
  else if N.eqb c 62 then js "&gt;"
  else if N.eqb c 47 then js "&#x2F;"
  else if N.eqb c 92 then js "&#x5C;"
  else if N.eqb c 96 then js "&#96;"
  else [c].

Definition validator_escape (s : jsstring) : jsstring :=
  flat_map escape_unit s.

Section Validators.
Context {rt : Runtime}.

Definition validateNumber (value : JsVal) (fieldName : jsstring)
    (options : NumberOptions) : Result JsVal :=
  let min := with_default (Fin 0) (opt_min options) in
  let max := opt_max options in
  match value with
  | JNum n =>
      if isNaN n then
        Throw (mkError (fieldName ++ js " must be a valid number"))
      else if js_lt n min then
        Throw (mkError (fieldName ++ js " must be at least " ++ Number_toString min))
      else
        match max with
        | Some mx =>
            if js_lt mx n then
              Throw (mkError (fieldName ++ js " must be at most " ++ Number_toString mx))
            else Return value
        | None => Return value
        end
  | _ => Throw (mkError (fieldName ++ js " must be a valid number"))
  end.

Definition validateOptionalNumber (value : JsVal) (fieldName : jsstring)
    (options : NumberOptions) : Result JsVal :=
  if is_null value || is_undefined value then Return JNull
  else validateNumber value fieldName options.

Definition validateString (value : JsVal) (fieldName : jsstring)
    (options : StringOptions) : Result jsstring :=
  let required := with_default true (opt_required options) in
  let maxLength := with_default 255%Z (opt_maxLength options) in
  let minLength := opt_minLength options in
  let sanitize := with_default true (opt_sanitize options) in
  if negb (is_null value) && negb (is_undefined value)
     && negb (str_eqb (typeof value) (js "string")) then
    Throw (mkError (fieldName ++ js " must be a string"))
  else
    match value with
    | JStr s =>
        if required && (negb (truthy value) || negb (truthy (JStr (trim s)))) then
          Throw (mkError (fieldName ++ js " is required and must be non-empty"))
        else if negb required && negb (truthy value) then
          Return (if truthy value then s else [])
        else
          let trimmedLength := Z.of_nat (List.length (trim s)) in
          match minLength with
          | Some mn =>
              if Z.ltb trimmedLength mn then
                Throw (mkError (fieldName ++ js " must be at least "
                                  ++ Z_toString mn ++ js " characters"))
              else if Z.ltb maxLength trimmedLength then
                Throw (mkError (fieldName ++ js " must not exceed "
                                  ++ Z_toString maxLength ++ js " characters"))
              else Return (if sanitize then validator_escape s else s)
          | None =>
              if Z.ltb maxLength trimmedLength then
                Throw (mkError (fieldName ++ js " must not exceed "
                                  ++ Z_toString maxLength ++ js " characters"))
              else Return (if sanitize then validator_escape s else s)
          end
    | _ =>
        (* [null] or [undefined] here, so [!value] holds *)
        if required then
          Throw (mkError (fieldName ++ js " is required and must be non-empty"))
        else Return []
    end.

(** [{ ...options, required: false }] *)
Definition not_required (options : StringOptions) : StringOptions :=
  mkStringOptions (Some false) (opt_maxLength options)
                  (opt_minLength options) (opt_sanitize options).

(** Yields [null] ([None]) or a string. *)
Definition validateOptionalString (value : JsVal) (fieldName : jsstring)
    (options : StringOptions) : Result (option jsstring) :=
  if is_null value || is_undefined value then Return None
  else
    match validateString value fieldName (not_required options) with
    | Return s => Return (Some s)
    | Throw e => Throw e
    end.

(** [Number.isInteger(value)] *)
Definition Number_isInteger (value : JsVal) : bool :=
  match value with
  | JNum (Fin q) => Z.eqb (Qnum q mod Zpos (Qden q)) 0
  | _ => false
  end.

(** [a <= b] on numbers; any comparison with [NaN] is false. *)
Definition js_le (a b : JsNum) : bool :=
  match a, b with
  | NaN, _ | _, NaN => false
  | _, _ => negb (js_lt b a)
  end.

(** [value <= 0], read after [Number.isInteger(value)] held. *)
Definition not_positive (value : JsVal) : bool :=
  match value with
  | JNum n => js_le n (Fin 0)
  | _ => false
  end.

Definition validateId (value : JsVal) (fieldName : jsstring) : Result JsVal :=
  if negb (Number_isInteger value) || not_positive value then
    Throw (mkError (fieldName ++ js " must be a positive integer"))
  else Return value.

Definition validateOptionalId (value : JsVal) (fieldName : jsstring) : Result JsVal :=
  if is_null value || is_undefined value then Return JNull
  else validateId value fieldName.

Definition validateBoolean (value : JsVal) (fieldName : jsstring) : Result JsVal :=
  if negb (str_eqb (typeof value) (js "boolean")) then
    Throw (mkError (fieldName ++ js " must be a boolean"))
  else Return value.

(** The options object of [validateArray]; an omitted field is [None]. *)
Record ArrayOptions : Type := mkArrayOptions {
  opt_array_required : option bool;
  opt_itemValidator : option (JsVal -> jsstring -> Result JsVal)
}.

(** [value.map((item, index) => itemValidator(item, `${fieldName}[${index}]`))]
    from position [index] on: the items are validated in order and the
    first failure ends the walk. *)
Fixpoint map_items (itemValidator : JsVal -> jsstring -> Result JsVal)
    (fieldName : jsstring) (index : nat) (items : list JsVal) : Result (list JsVal) :=
  match items with
  | [] => Return []
  | item :: rest =>
      match itemValidator item
              (fieldName ++ js "[" ++ Z_toString (Z.of_nat index) ++ js "]") with
      | Throw e => Throw e
      | Return v =>
          match map_items itemValidator fieldName (S index) rest with
          | Throw e => Throw e
          | Return vs => Return (v :: vs)
          end
      end
  end.

(** Yields the elements of the validated array. *)
Definition validateArray (value : JsVal) (fieldName : jsstring)
    (options : ArrayOptions) : Result (list JsVal) :=
  let required := with_default true (opt_array_required options) in
  if required && negb (Array_isArray value) then
    Throw (mkError (fieldName ++ js " must be an array"))
  else if negb required && negb (truthy value) then Return []
  else
    match value with
    | JArr items =>
        match opt_itemValidator options with
        | Some itemValidator => map_items itemValidator fieldName 0 items
        | None => Return items
        end
    | _ => Throw (mkError (fieldName ++ js " must be an array"))
    end.

End Validators.

(** ** The client *)

(** The two fields of a [Grocy] instance; [apiKey] is [null] ([None]) or a
    string. *)
Record Client : Type := mkClient {
  baseUrl : jsstring;
  apiKey : option jsstring
}.

(** What a method can observe and change: the instance it runs on and the
    calls made to the transport so far. *)
Record World : Type := mkWorld {
  this : Client;
  fetched : list (URL * RequestInit)
}.

(** A method body: it returns or throws, and leaves a world behind. *)
Definition M (A : Type) : Type := World -> Result A * World.

Definition ret {A : Type} (a : A) : M A := fun w => (Return a, w).

Definition throw {A : Type} (e : Error) : M A := fun w => (Throw e, w).

Definition lift {A : Type} (r : Result A) : M A := fun w => (r, w).

Definition bind {A B : Type} (m : M A) (k : A -> M B) : M B :=
  fun w =>
    match m w with
    | (Return a, w') => k a w'
    | (Throw e, w') => (Throw e, w')
    end.

(** [try { m } catch (error) { h error }] *)
Definition try_catch {A : Type} (m : M A) (h : Error -> M A) : M A :=
  fun w =>
    match m w with
    | (Throw e, w') => h e w'
    | r => r
    end.

Notation "x <- m ;; k" := (bind m (fun x => k))
  (at level 61, m at next level, right associativity).

Definition get_this : M Client := fun w => (Return (this w), w).

(** [this.apiKey = k] *)
Definition assign_apiKey (k : option jsstring) : M unit :=
  fun w => (Return tt, mkWorld (mkClient (baseUrl (this w)) k) (fetched w)).

(** The value held by an [apiKey] field. *)
Definition key_value (k : option jsstring) : JsVal :=
  match k with Some s => JStr s | None => JNull end.

(** What [request] and the file operations return: a data value, or the
    object [{ success: true, response }] that carries the transport
    response. *)
Inductive RequestValue : Type :=
| Plain (v : JsVal)
| SuccessWith (response : Response).

(** [{ success: true }] *)
Definition success_true : JsVal := JObj [(js "success", JBool true)].

Module Grocy.
Section Methods.
Context {rt : Runtime}.

(** [await fetch(url, options)]: the call is recorded, then the promise
    settles. *)
Definition await_fetch (url : URL) (options : RequestInit) : M Response :=
  fun w =>
    let w' := mkWorld (this w) (fetched w ++ [(url, options)]) in
    match fetch url options with
    | Resolved r => (Return r, w')
    | Rejected e => (Throw e, w')
    end.

(** [validatedBaseUrl.endsWith('/api') ? validatedBaseUrl
     : `${validatedBaseUrl}/api`] *)
Definition api_base (validatedBaseUrl : jsstring) : jsstring :=
  if endsWith validatedBaseUrl (js "/api") then validatedBaseUrl
  else validatedBaseUrl ++ js "/api".

(** [validatedApiKey ? Object.freeze(validatedApiKey) : null] *)
Definition stored_key (validatedApiKey : option jsstring) : option jsstring :=
  if truthy (key_value validatedApiKey) then validatedApiKey else None.

(** [{ minLength: 1, sanitize: false }] *)
Definition exact_options : StringOptions :=
  mkStringOptions None None (Some 1%Z) (Some false).

(** [new Grocy(baseUrl, apiKey = null)] *)
Definition constructor (baseUrl apiKey : JsVal) : Result Client :=
  let apiKey := if is_undefined apiKey then JNull else apiKey in
  match validateString baseUrl (js "Base URL") exact_options with
  | Throw e => Throw e
  | Return validatedBaseUrl =>
      match validateOptionalString apiKey (js "API key") exact_options with
      | Throw e => Throw e
      | Return validatedApiKey =>
          Return (mkClient (api_base validatedBaseUrl) (stored_key validatedApiKey))
      end
  end.

Definition setApiKey (apiKey : JsVal) : M unit :=
  validatedApiKey <- lift (validateOptionalString apiKey (js "API key") exact_options) ;;
  assign_apiKey (stored_key validatedApiKey).

(** The callback of [Object.entries(queryParams).forEach]. *)
Definition append_entry (url : URL) (entry : jsstring * JsVal) : Result URL :=
  let (key, value) := entry in
  if Array_isArray value then
    for_each (fun u v => URLSearchParams_append (key ++ js "[]") v u)
             (match value with JArr elems => elems | _ => [] end) url
  else if negb (is_undefined value) && negb (is_null value) then
    s <-- toString_method value ;;
    URLSearchParams_append key (JStr s) url
  else Return url.

(** The URL after the query parameters were added; a value that cannot be
    converted to a string ends the walk with its TypeError. *)
Definition with_query (url : URL) (queryParams : JsVal) : Result URL :=
  if truthy queryParams && Nat.ltb 0 (List.length (Object_keys queryParams)) then
    for_each append_entry (Object_entries queryParams) url
  else Return url.

(** The options object handed to [fetch] by [request]. *)
Definition request_options (key : jsstring) (method : jsstring) (data : JsVal) : RequestInit :=
  mkInit method
         [(js "GROCY-API-KEY", key); (js "Content-Type", js "application/json")]
         (if truthy data && (str_eqb method (js "POST") || str_eqb method (js "PUT"))
          then Some (JStr (JSON_stringify data)) else None).

(** [contentType && contentType.includes(t)] *)
Definition declares (contentType : option jsstring) (t : jsstring) : bool :=
  match contentType with
  | Some c => truthy (JStr c) && includes c t
  | None => false
  end.

(** [`HTTP error! status: ${response.status}`] *)
Definition http_error (response : Response) : jsstring :=
  js "HTTP error! status: " ++ Z_toString (status response).

(** [new Error(`Grocy API request failed: ${error.message}`)] *)
Definition request_failed (error : Error) : Error :=
  mkError (js "Grocy API request failed: " ++ message error).

(** The part of [request] that follows [await fetch(url, options)]: the
    response normaliser. *)
Definition normalize_response (response : Response) : M RequestValue :=
  if Z.eqb (status response) 204 then ret (Plain success_true)
  else
    let contentType := content_type response in
    if declares contentType (js "application/json") then
      jsonData <- lift (json response) ;;
      if negb (ok response) then
        error_message <- lift (get_property jsonData (js "error_message")) ;;
        error <- lift (new_Error (if truthy error_message then error_message
                                  else JStr (http_error response))) ;;
        throw error
      else ret (Plain jsonData)
    else if declares contentType (js "text/calendar") then
      textData <- lift (text response) ;;
      ret (Plain (JObj [(js "calendar", JStr textData)]))
    else if ok response then ret (SuccessWith response)
    else throw (mkError (http_error response)).

(** [request(endpoint, method = 'GET', data = null, queryParams = {})] *)
Definition request (endpoint method : jsstring) (data queryParams : JsVal)
  : M RequestValue :=
  self <- get_this ;;
  if negb (truthy (key_value (apiKey self))) then
    throw (mkError (js "API key is required. Use setApiKey() to set it."))
  else
    url <- lift (new_URL (baseUrl self ++ endpoint)) ;;
    url <- lift (with_query url queryParams) ;;
    let options := request_options (with_default [] (apiKey self)) method data in
    try_catch
      (response <- await_fetch url options ;;
       normalize_response response)
      (fun error => throw (request_failed error)).

(** [{ minLength: 1, maxLength: n, sanitize: false }] *)
Definition path_options (n : Z) : StringOptions :=
  mkStringOptions None (Some n) (Some 1%Z) (Some false).

(** [{ minLength: 1, maxLength: n }] *)
Definition upload_options (n : Z) : StringOptions :=
  mkStringOptions None (Some n) (Some 1%Z) None.

(** [`/files/${group}/${fileName}`] *)
Definition file_path (group fileName : jsstring) : jsstring :=
  js "/files/" ++ group ++ js "/" ++ fileName.

(** The properties that [Object.entries(data).reduce(...)] collects in a
    fresh object: the own properties of [data] whose key is not [known].
    The assignment [acc[key] = value] creates no property for the key
    [__proto__], so that key is never collected. *)
Definition unknown_fields (known : list jsstring) (data : JsVal)
  : list (jsstring * JsVal) :=
  filter (fun kv => negb (existsb (str_eqb (fst kv)) known)
                    && negb (str_eqb (fst kv) (js "__proto__")))
         (Object_entries data).

(** [getFile(group, fileName, options = {})] *)
Definition getFile (group fileName options : JsVal) : M RequestValue :=
  let options := if is_undefined options then JObj [] else options in
  group <- lift (validateString group (js "File group") (path_options 100)) ;;
  fileName <- lift (validateString fileName (js "File name") (path_options 255)) ;;
  force_serve_as <- lift (get_property options (js "force_serve_as")) ;;
  served <- lift (validateOptionalString force_serve_as (js "Force serve as")
                    (mkStringOptions None (Some 100%Z) None None)) ;;
  let validatedOptions :=
    object_literal ((js "force_serve_as", key_value served)
                    :: unknown_fields [js "force_serve_as"] options) in
  request (file_path group fileName) (js "GET") JNull validatedOptions.

(** [uploadFile(group, fileName, fileData)] *)
Definition uploadFile (group fileName fileData : JsVal) : M JsVal :=
  group <- lift (validateString group (js "File group") (upload_options 100)) ;;
  fileName <- lift (validateString fileName (js "File name") (upload_options 255)) ;;
  if negb (truthy fileData) then throw (mkError (js "File data is required"))
  else
    self <- get_this ;;
    if negb (truthy (key_value (apiKey self))) then
      throw (mkError (js "API key is required. Use setApiKey() to set it."))
    else
      url <- lift (new_URL (baseUrl self ++ file_path group fileName)) ;;
      let options :=
        mkInit (js "PUT")
               [(js "GROCY-API-KEY", with_default [] (apiKey self))]
               (Some fileData) in
      try_catch
        (response <- await_fetch url options ;;
         if negb (ok response) then
           errorData <- lift (json response) ;;
           error_message <- lift (get_property errorData (js "error_message")) ;;
           error <- lift (new_Error (if truthy error_message then error_message
                                     else JStr (http_error response))) ;;
           throw error
         else ret success_true)
        (fun error => throw (request_failed error)).

(** [deleteFile(group, fileName)] *)
Definition deleteFile (group fileName : JsVal) : M RequestValue :=
  group <- lift (validateString group (js "File group") (path_options 100)) ;;
  fileName <- lift (validateString fileName (js "File name") (path_options 255)) ;;
  request (file_path group fileName) (js "DELETE") JNull (JObj []).


(** *** The operations built on [request] *)

(** [!data || typeof data !== 'object'] *)
Definition not_an_object (data : JsVal) : bool :=
  negb (truthy data) || negb (str_eqb (typeof data) (js "object")).

(** [new Error(`${what} must be a non-null object`)] *)
Definition object_required (what : jsstring) : Error :=
  mkError (what ++ js " must be a non-null object").

(** [{ ...data }] *)
Definition spread (data : JsVal) : JsVal := JObj (Object_entries data).

(** [x !== undefined ? validate(x) : undefined] *)
Definition when_defined (x : JsVal) (validate : JsVal -> Result JsVal) : Result JsVal :=
  if negb (is_undefined x) then validate x else Return JUndefined.

(** The first property read by [const { query, order, limit, offset } =
    options]: destructuring [null] throws a TypeError (message as V8 words
    it). *)
Definition destructure (options : JsVal) (name : jsstring) : Result JsVal :=
  match options with
  | JNull =>
      Throw (mkError (js "Cannot destructure property '" ++ name
                        ++ js "' of 'options' as it is null."))
  | _ => get_property options name
  end.

(** The [params] object that [getObjects], [getUsers],
    [getAllRecipesFulfillment], [getChores], [getBatteries] and [getTasks]
    each build from [options = {}]. *)
Definition list_params (options : JsVal) : Result JsVal :=
  let options := if is_undefined options then JObj [] else options in
  query <-- destructure options (js "query") ;;
  order <-- get_property options (js "order") ;;
  limit <-- get_property options (js "limit") ;;
  offset <-- get_property options (js "offset") ;;
  Return (JObj ((if truthy query then [(js "query", query)] else [])
                ++ (if truthy order then [(js "order", order)] else [])
                ++ (if negb (is_undefined limit) then [(js "limit", limit)] else [])
                ++ (if negb (is_undefined offset) then [(js "offset", offset)] else []))).

(** [{ minLength: 1, maxLength: 50 }] and the like *)
Definition text_options (n : Z) : StringOptions :=
  mkStringOptions None (Some n) (Some 1%Z) None.

(** [{ maxLength: n }] *)
Definition max_options (n : Z) : StringOptions :=
  mkStringOptions None (Some n) None None.

(** [{ min: 0.001 }] *)
Definition amount_options : NumberOptions :=
  mkNumberOptions (Some (Fin (1 # 1000))) None.

Definition getSystemInfo : M RequestValue :=
  request (js "/system/info") (js "GET") JNull (JObj []).

Definition getDbChangedTime : M RequestValue :=
  request (js "/system/db-changed-time") (js "GET") JNull (JObj []).

Definition getConfig : M RequestValue :=
  request (js "/system/config") (js "GET") JNull (JObj []).

(** [getTime(offset = null)] *)
Definition getTime (offset : JsVal) : M RequestValue :=
  let offset := if is_undefined offset then JNull else offset in
  let params := if negb (is_null offset) then JObj [(js "offset", offset)] else JObj [] in
  request (js "/system/time") (js "GET") JNull params.

Definition getStock : M RequestValue :=
  request (js "/stock") (js "GET") JNull (JObj []).

Definition getStockEntry (entryId : JsVal) : M RequestValue :=
  entryId <- lift (validateId entryId (js "Entry ID")) ;;
  id <- lift (ToString entryId) ;;
  request (js "/stock/entry/" ++ id) (js "GET") JNull (JObj []).

(** [getVolatileStock(dueSoonDays = 5)] *)
Definition getVolatileStock (dueSoonDays : JsVal) : M RequestValue :=
  let dueSoonDays := if is_undefined dueSoonDays then JNum (Fin 5) else dueSoonDays in
  dueSoonDays <- lift (validateNumber dueSoonDays (js "Due soon days")
                         (mkNumberOptions (Some (Fin 0)) (Some (Fin 365)))) ;;
  request (js "/stock/volatile") (js "GET") JNull
          (JObj [(js "due_soon_days", dueSoonDays)]).

Definition getProductDetails (productId : JsVal) : M RequestValue :=
  productId <- lift (validateId productId (js "Product ID")) ;;
  id <- lift (ToString productId) ;;
  request (js "/stock/products/" ++ id) (js "GET") JNull (JObj []).

Definition getProductByBarcode (barcode : JsVal) : M RequestValue :=
  barcode <- lift (validateString barcode (js "Barcode") (path_options 200)) ;;
  request (js "/stock/products/by-barcode/" ++ barcode) (js "GET") JNull (JObj []).

(** The [validatedData] of [consumeProduct] and [consumeProductByBarcode]. *)
Definition consume_data (data : JsVal) : Result JsVal :=
  amount <-- get_property data (js "amount") ;;
  amount <-- validateNumber amount (js "Amount") amount_options ;;
  transaction_type <-- get_property data (js "transaction_type") ;;
  transaction_type <-- validateOptionalString transaction_type (js "Transaction type")
                         (max_options 50) ;;
  spoiled <-- get_property data (js "spoiled") ;;
  spoiled <-- when_defined spoiled (fun x => validateBoolean x (js "Spoiled")) ;;
  location_id <-- get_property data (js "location_id") ;;
  location_id <-- validateOptionalId location_id (js "Location ID") ;;
  recipe_id <-- get_property data (js "recipe_id") ;;
  recipe_id <-- validateOptionalId recipe_id (js "Recipe ID") ;;
  exact_amount <-- get_property data (js "exact_amount") ;;
  exact_amount <-- when_defined exact_amount
                     (fun x => validateBoolean x (js "Exact amount")) ;;
  Return (object_literal ([(js "amount", amount);
                 (js "transaction_type", key_value transaction_type);
                 (js "spoiled", spoiled);
                 (js "location_id", location_id);
                 (js "recipe_id", recipe_id);
                 (js "exact_amount", exact_amount)]
                ++ unknown_fields [js "amount"; js "transaction_type"; js "spoiled";
                                   js "location_id"; js "recipe_id"; js "exact_amount"]
                                  data)).

Definition consumeProduct (productId data : JsVal) : M RequestValue :=
  productId <- lift (validateId productId (js "Product ID")) ;;
  if not_an_object data then throw (object_required (js "Consumption data"))
  else
    validatedData <- lift (consume_data data) ;;
    id <- lift (ToString productId) ;;
    request (js "/stock/products/" ++ id ++ js "/consume")
            (js "POST") validatedData (JObj []).

Definition consumeProductByBarcode (barcode data : JsVal) : M RequestValue :=
  barcode <- lift (validateString barcode (js "Barcode") (path_options 200)) ;;
  if not_an_object data then throw (object_required (js "Consumption data"))
  else
    validatedData <- lift (consume_data data) ;;
    request (js "/stock/products/by-barcode/" ++ barcode ++ js "/consume")
            (js "POST") validatedData (JObj []).

(** The [validatedData] of [transferProduct]. *)
Definition transfer_data (data : JsVal) : Result JsVal :=
  amount <-- get_property data (js "amount") ;;
  amount <-- validateNumber amount (js "Amount") amount_options ;;
  location_id_from <-- get_property data (js "location_id_from") ;;
  location_id_from <-- validateId location_id_from (js "Source location ID") ;;
  location_id_to <-- get_property data (js "location_id_to") ;;
  location_id_to <-- validateId location_id_to (js "Destination location ID") ;;
  transaction_type <-- get_property data (js "transaction_type") ;;
  transaction_type <-- validateOptionalString transaction_type (js "Transaction type")
                         (max_options 50) ;;
  Return (object_literal ([(js "amount", amount);
                 (js "location_id_from", location_id_from);
                 (js "location_id_to", location_id_to);
                 (js "transaction_type", key_value transaction_type)]
                ++ unknown_fields [js "amount"; js "location_id_from";
                                   js "location_id_to"; js "transaction_type"] data)).

Definition transferProduct (productId data : JsVal) : M RequestValue :=
  productId <- lift (validateId productId (js "Product ID")) ;;
  if not_an_object data then throw (object_required (js "Transfer data"))
  else
    validatedData <- lift (transfer_data data) ;;
    id <- lift (ToString productId) ;;
    request (js "/stock/products/" ++ id ++ js "/transfer")
            (js "POST") validatedData (JObj []).

(** The [validatedData] of [openProduct]. *)
Definition open_data (data : JsVal) : Result JsVal :=
  amount <-- get_property data (js "amount") ;;
  amount <-- validateOptionalNumber amount (js "Amount") amount_options ;;
  location_id <-- get_property data (js "location_id") ;;
  location_id <-- validateOptionalId location_id (js "Location ID") ;;
  substitution <-- get_property data (js "allow_subproduct_substitution") ;;
  substitution <-- when_defined substitution
                     (fun x => validateBoolean x (js "Allow subproduct substitution")) ;;
  Return (object_literal ([(js "amount", amount);
                 (js "location_id", location_id);
                 (js "allow_subproduct_substitution", substitution)]
                ++ unknown_fields [js "amount"; js "location_id";
                                   js "allow_subproduct_substitution"] data)).

Definition openProduct (productId data : JsVal) : M RequestValue :=
  productId <- lift (validateId productId (js "Product ID")) ;;
  if not_an_object data then throw (object_required (js "Open data"))
  else
    validatedData <- lift (open_data data) ;;
    id <- lift (ToString productId) ;;
    request (js "/stock/products/" ++ id ++ js "/open")
            (js "POST") validatedData (JObj []).

(** [addMissingProductsToShoppingList(data = {})] and its three siblings,
    which differ in the endpoint only. *)
Definition shopping_list_action (endpoint : jsstring) (data : JsVal) : M RequestValue :=
  let data := if is_undefined data then JObj [] else data in
  request endpoint (js "POST") data (JObj []).

Definition addMissingProductsToShoppingList (data : JsVal) : M RequestValue :=
  shopping_list_action (js "/stock/shoppinglist/add-missing-products") data.

Definition addOverdueProductsToShoppingList (data : JsVal) : M RequestValue :=
  shopping_list_action (js "/stock/shoppinglist/add-overdue-products") data.

Definition addExpiredProductsToShoppingList (data : JsVal) : M RequestValue :=
  shopping_list_action (js "/stock/shoppinglist/add-expired-products") data.

Definition clearShoppingList (data : JsVal) : M RequestValue :=
  shopping_list_action (js "/stock/shoppinglist/clear") data.

(** The [validatedData] of [addProductToShoppingList]. *)
Definition shopping_item_data (data : JsVal) : Result JsVal :=
  product_id <-- get_property data (js "product_id") ;;
  product_id <-- validateId product_id (js "Product ID") ;;
  list_id <-- get_property data (js "list_id") ;;
  list_id <-- validateOptionalId list_id (js "List ID") ;;
  product_amount <-- get_property data (js "product_amount") ;;
  product_amount <-- validateOptionalNumber product_amount (js "Product amount")
                       amount_options ;;
  note <-- get_property data (js "note") ;;
  note <-- validateOptionalString note (js "Note") (max_options 500) ;;
  Return (object_literal ([(js "product_id", product_id);
                 (js "list_id", list_id);
                 (js "product_amount", product_amount);
                 (js "note", key_value note)]
                ++ unknown_fields [js "product_id"; js "list_id";
                                   js "product_amount"; js "note"] data)).

Definition addProductToShoppingList (data : JsVal) : M RequestValue :=
  if not_an_object data then throw (object_required (js "Shopping list item data"))
  else
    validatedData <- lift (shopping_item_data data) ;;
    request (js "/stock/shoppinglist/add-product") (js "POST") validatedData (JObj []).

(** The [validatedData] of [removeProductFromShoppingList]. *)
Definition shopping_removal_data (data : JsVal) : Result JsVal :=
  product_id <-- get_property data (js "product_id") ;;
  product_id <-- validateId product_id (js "Product ID") ;;
  list_id <-- get_property data (js "list_id") ;;
  list_id <-- validateOptionalId list_id (js "List ID") ;;
  product_amount <-- get_property data (js "product_amount") ;;
  product_amount <-- validateOptionalNumber product_amount (js "Product amount")
                       amount_options ;;
  Return (object_literal ([(js "product_id", product_id);
                 (js "list_id", list_id);
                 (js "product_amount", product_amount)]
                ++ unknown_fields [js "product_id"; js "list_id"; js "product_amount"]
                                  data)).

Definition removeProductFromShoppingList (data : JsVal) : M RequestValue :=
  if not_an_object data then throw (object_required (js "Shopping list item data"))
  else
    validatedData <- lift (shopping_removal_data data) ;;
    request (js "/stock/shoppinglist/remove-product") (js "POST") validatedData (JObj []).

(** [getObjects(entity, options = {})] *)
Definition getObjects (entity options : JsVal) : M RequestValue :=
  entity <- lift (validateString entity (js "Entity name") (path_options 50)) ;;
  params <- lift (list_params options) ;;
  request (js "/objects/" ++ entity) (js "GET") JNull params.

Definition addObject (entity data : JsVal) : M RequestValue :=
  entity <- lift (validateString entity (js "Entity name") (path_options 50)) ;;
  if not_an_object data then throw (object_required (js "Entity data"))
  else request (js "/objects/" ++ entity) (js "POST") (spread data) (JObj []).

Definition getObject (entity objectId : JsVal) : M RequestValue :=
  entity <- lift (validateString entity (js "Entity name") (path_options 50)) ;;
  objectId <- lift (validateId objectId (js "Object ID")) ;;
  id <- lift (ToString objectId) ;;
  request (js "/objects/" ++ entity ++ js "/" ++ id)
          (js "GET") JNull (JObj []).

Definition editObject (entity objectId data : JsVal) : M RequestValue :=
  entity <- lift (validateString entity (js "Entity name") (path_options 50)) ;;
  objectId <- lift (validateId objectId (js "Object ID")) ;;
  if not_an_object data then throw (object_required (js "Entity data"))
  else
    id <- lift (ToString objectId) ;;
    request (js "/objects/" ++ entity ++ js "/" ++ id)
               (js "PUT") (spread data) (JObj []).

Definition deleteObject (entity objectId : JsVal) : M RequestValue :=
  entity <- lift (validateString entity (js "Entity name") (path_options 50)) ;;
  objectId <- lift (validateId objectId (js "Object ID")) ;;
  id <- lift (ToString objectId) ;;
  request (js "/objects/" ++ entity ++ js "/" ++ id)
          (js "DELETE") JNull (JObj []).

(** The object id of the userfields operations: a number is validated as an
    id, anything else as a string. *)
Definition userfields_id (objectId : JsVal) : Result JsVal :=
  if str_eqb (typeof objectId) (js "number") then validateId objectId (js "Object ID")
  else
    s <-- validateString objectId (js "Object ID") (text_options 100) ;;
    Return (JStr s).

Definition getUserfields (entity objectId : JsVal) : M RequestValue :=
  entity <- lift (validateString entity (js "Entity name") (path_options 50)) ;;
  objectId <- lift (userfields_id objectId) ;;
  id <- lift (ToString objectId) ;;
  request (js "/userfields/" ++ entity ++ js "/" ++ id)
          (js "GET") JNull (JObj []).

Definition setUserfields (entity objectId data : JsVal) : M RequestValue :=
  entity <- lift (validateString entity (js "Entity name") (path_options 50)) ;;
  objectId <- lift (userfields_id objectId) ;;
  if not_an_object data then throw (object_required (js "Userfields data"))
  else
    id <- lift (ToString objectId) ;;
    request (js "/userfields/" ++ entity ++ js "/" ++ id)
               (js "PUT") (spread data) (JObj []).

(** [getUsers(options = {})] *)
Definition getUsers (options : JsVal) : M RequestValue :=
  params <- lift (list_params options) ;;
  request (js "/users") (js "GET") JNull params.

(** The [validatedData] of [createUser]. *)
Definition new_user_data (data : JsVal) : Result JsVal :=
  username <-- get_property data (js "username") ;;
  username <-- validateString username (js "Username") (text_options 50) ;;
  password <-- get_property data (js "password") ;;
  password <-- validateString password (js "Password") (path_options 200) ;;
  first_name <-- get_property data (js "first_name") ;;
  first_name <-- validateOptionalString first_name (js "First name") (max_options 100) ;;
  last_name <-- get_property data (js "last_name") ;;
  last_name <-- validateOptionalString last_name (js "Last name") (max_options 100) ;;
  Return (object_literal ([(js "username", JStr username);
                 (js "password", JStr password);
                 (js "first_name", key_value first_name);
                 (js "last_name", key_value last_name)]
                ++ unknown_fields [js "username"; js "password";
                                   js "first_name"; js "last_name"] data)).

Definition createUser (data : JsVal) : M RequestValue :=
  if not_an_object data then throw (object_required (js "User data"))
  else
    validatedData <- lift (new_user_data data) ;;
    request (js "/users") (js "POST") validatedData (JObj []).

(** The [validatedData] of [editUser]. *)
Definition user_data (data : JsVal) : Result JsVal :=
  username <-- get_property data (js "username") ;;
  username <-- when_defined username
                 (fun x => s <-- validateString x (js "Username") (text_options 50) ;;
                           Return (JStr s)) ;;
  password <-- get_property data (js "password") ;;
  password <-- when_defined password
                 (fun x => s <-- validateString x (js "Password") (path_options 200) ;;
                           Return (JStr s)) ;;
  first_name <-- get_property data (js "first_name") ;;
  first_name <-- when_defined first_name
                   (fun x => k <-- validateOptionalString x (js "First name")
                                     (max_options 100) ;;
                             Return (key_value k)) ;;
  last_name <-- get_property data (js "last_name") ;;
  last_name <-- when_defined last_name
                  (fun x => k <-- validateOptionalString x (js "Last name")
                                    (max_options 100) ;;
                            Return (key_value k)) ;;
  Return (object_literal ([(js "username", username);
                 (js "password", password);
                 (js "first_name", first_name);
                 (js "last_name", last_name)]
                ++ unknown_fields [js "username"; js "password";
                                   js "first_name"; js "last_name"] data)).

Definition editUser (userId data : JsVal) : M RequestValue :=
  userId <- lift (validateId userId (js "User ID")) ;;
  if not_an_object data then throw (object_required (js "User data"))
  else
    validatedData <- lift (user_data data) ;;
    id <- lift (ToString userId) ;;
    request (js "/users/" ++ id) (js "PUT") validatedData (JObj []).

Definition deleteUser (userId : JsVal) : M RequestValue :=
  userId <- lift (validateId userId (js "User ID")) ;;
  id <- lift (ToString userId) ;;
  request (js "/users/" ++ id) (js "DELETE") JNull (JObj []).

Definition getCurrentUser : M RequestValue :=
  request (js "/user") (js "GET") JNull (JObj []).

Definition getUserSettings : M RequestValue :=
  request (js "/user/settings") (js "GET") JNull (JObj []).

Definition getUserSetting (settingKey : JsVal) : M RequestValue :=
  settingKey <- lift (validateString settingKey (js "Setting key") (path_options 100)) ;;
  request (js "/user/settings/" ++ settingKey) (js "GET") JNull (JObj []).

Definition setUserSetting (settingKey data : JsVal) : M RequestValue :=
  settingKey <- lift (validateString settingKey (js "Setting key") (path_options 100)) ;;
  if not_an_object data then throw (object_required (js "Setting data"))
  else request (js "/user/settings/" ++ settingKey) (js "PUT") (spread data) (JObj []).

(** The [validatedData] of [addRecipeProductsToShoppingList]. *)
Definition recipe_products_data (data : JsVal) : Result JsVal :=
  excluded <-- get_property data (js "excluded_product_ids") ;;
  excluded <-- (if truthy excluded then
                  ids <-- validateArray excluded (js "Excluded product IDs")
                            (mkArrayOptions None
                               (Some (fun id _ => validateId id (js "Product ID")))) ;;
                  Return (JArr ids)
                else Return JUndefined) ;;
  Return (object_literal ((js "excluded_product_ids", excluded)
                          :: unknown_fields [js "excluded_product_ids"] data)).

(** [addRecipeProductsToShoppingList(recipeId, data = {})] *)
Definition addRecipeProductsToShoppingList (recipeId data : JsVal) : M RequestValue :=
  let data := if is_undefined data then JObj [] else data in
  recipeId <- lift (validateId recipeId (js "Recipe ID")) ;;
  validatedData <- lift (recipe_products_data data) ;;
  id <- lift (ToString recipeId) ;;
  request (js "/recipes/" ++ id
             ++ js "/add-not-fulfilled-products-to-shoppinglist")
          (js "POST") validatedData (JObj []).

Definition getRecipeFulfillment (recipeId : JsVal) : M RequestValue :=
  recipeId <- lift (validateId recipeId (js "Recipe ID")) ;;
  id <- lift (ToString recipeId) ;;
  request (js "/recipes/" ++ id ++ js "/fulfillment")
          (js "GET") JNull (JObj []).

Definition consumeRecipe (recipeId : JsVal) : M RequestValue :=
  recipeId <- lift (validateId recipeId (js "Recipe ID")) ;;
  id <- lift (ToString recipeId) ;;
  request (js "/recipes/" ++ id ++ js "/consume")
          (js "POST") JNull (JObj []).

Definition getAllRecipesFulfillment (options : JsVal) : M RequestValue :=
  params <- lift (list_params options) ;;
  request (js "/recipes/fulfillment") (js "GET") JNull params.

Definition getChores (options : JsVal) : M RequestValue :=
  params <- lift (list_params options) ;;
  request (js "/chores") (js "GET") JNull params.

Definition getChoreDetails (choreId : JsVal) : M RequestValue :=
  choreId <- lift (validateId choreId (js "Chore ID")) ;;
  id <- lift (ToString choreId) ;;
  request (js "/chores/" ++ id) (js "GET") JNull (JObj []).

Definition getBatteries (options : JsVal) : M RequestValue :=
  params <- lift (list_params options) ;;
  request (js "/batteries") (js "GET") JNull params.

Definition getBatteryDetails (batteryId : JsVal) : M RequestValue :=
  batteryId <- lift (validateId batteryId (js "Battery ID")) ;;
  id <- lift (ToString batteryId) ;;
  request (js "/batteries/" ++ id) (js "GET") JNull (JObj []).

Definition getTasks (options : JsVal) : M RequestValue :=
  params <- lift (list_params options) ;;
  request (js "/tasks") (js "GET") JNull params.

Definition undoTask (taskId : JsVal) : M RequestValue :=
  taskId <- lift (validateId taskId (js "Task ID")) ;;
  id <- lift (ToString taskId) ;;
  request (js "/tasks/" ++ id ++ js "/undo") (js "POST") JNull (JObj []).

Definition getCalendar : M RequestValue :=
  request (js "/calendar/ical") (js "GET") JNull (JObj []).

Definition getCalendarSharingLink : M RequestValue :=
  request (js "/calendar/ical/sharing-link") (js "GET") JNull (JObj []).

End Methods.
End Grocy.

(** ** A host for concrete runs *)

(** Digits of [r / d] after the decimal point, until the remainder is zero
    or [fuel] digits were produced. *)
Fixpoint fraction_digits (fuel : nat) (r d : Z) : jsstring :=
  match fuel with
  | O => []
  | S fuel' =>
      if Z.eqb r 0 then []
      else Z_toString ((10 * r) / d) ++ fraction_digits fuel' ((10 * r) mod d) d
  end.

(** Decimal form of a rational, which is what Number::toString prints for
    the numbers of the examples: integers of magnitude below 10^21 and
    fractions whose expansion ends within a few digits. *)
Definition decimal_toString (q : Q) : jsstring :=
  let n := Z.abs (Qnum q) in
  let d := Zpos (Qden q) in
  (if Z.ltb (Qnum q) 0 then js "-" else [])
  ++ Z_toString (n / d)
  ++ (if Z.eqb (n mod d) 0 then [] else js "." ++ fraction_digits 20 (n mod d) d).

(** The host of the examples: it accepts the absolute http(s) strings, which
    in the examples carry no query part, sends no body through
    [JSON.stringify], and settles every [fetch] with [reply]. *)
Definition host (reply : FetchResult) : Runtime := {|
  finite_toString := decimal_toString;
  URL_parse := fun s =>
    if startsWith s (js "https://") || startsWith s (js "http://")
    then Some [] else None;
  JSON_stringify := fun _ => js "null";
  fetch := fun _ _ => reply
|}.

(** ** Specification-side definitions *)

Section Specification.
Context {rt : Runtime}.


(** A value that ToString converts to a string. *)
Definition has_string_form (v : JsVal) : Prop :=
  exists s, ToString v = Return s.

(** The string form of a value that has one (the empty string stands in
    for a value that has none). *)
Definition string_form (v : JsVal) : jsstring :=
  match ToString v with
  | Return s => s
  | Throw _ => []
  end.

(** A value of the query parameters that the dispatcher can append: every
    element of a sequence has a string form, and so has any other value. *)
Definition appendable (v : JsVal) : Prop :=
  match v with
  | JArr elems => Forall has_string_form elems
  | _ => has_string_form v
  end.

(** Query parameters all of whose values can be appended. *)
Definition appendable_query (queryParams : JsVal) : Prop :=
  Forall (fun kv => appendable (snd kv))
         (if truthy queryParams then Object_entries queryParams else []).

(** The query pairs the specification assigns to one entry of the mapping:
    one [name[]] pair per element of a sequence, nothing for [null] and
    [undefined], one [name] pair for any other value. *)
Definition entry_pairs (entry : jsstring * JsVal) : list (jsstring * jsstring) :=
  match snd entry with
  | JArr elems =>
      List.map (fun v => (USVString (fst entry ++ js "[]"), USVString (string_form v))) elems
  | JNull | JUndefined => []
  | v => [(USVString (fst entry), USVString (string_form v))]
  end.

(** The client of world [w] holds a credential and [request] reaches the
    transport, which settles the call with [reply]. *)
Definition transport_replies (w : World) (endpoint method : jsstring)
    (data queryParams : JsVal) (reply : FetchResult) : Prop :=
  exists key q0 url,
    apiKey (this w) = Some key /\ key <> [] /\
    URL_parse (baseUrl (this w) ++ endpoint) = Some q0 /\
    Grocy.with_query (mkURL (baseUrl (this w) ++ endpoint) q0) queryParams = Return url /\
    fetch url (Grocy.request_options key method data) = reply.

End Specification.

(** Inclusive order on numbers, as the specification words the bounds. *)
Definition num_le (a b : JsNum) : Prop :=
  match a, b with
  | NaN, _ | _, NaN => False
  | NegInf, _ => True
  | _, PosInf => True
  | Fin x, Fin y => (x <= y)%Q
  | _, _ => False
  end.

(** The lower bound in force: [min], or 0 when the options omit it. *)
Definition lower_bound (options : NumberOptions) : JsNum :=
  with_default (Fin 0) (opt_min options).

(** [n] is not above [max]; an omitted [max] bounds nothing. *)
Definition below_max (options : NumberOptions) (n : JsNum) : Prop :=
  forall mx, opt_max options = Some mx -> num_le n mx.

Definition finite (n : JsNum) : Prop :=
  match n with Fin _ => True | _ => False end.

(** The credential invariant the code maintains: no key, or a string that is
    not blank and whose trimmed form has at most 255 code units. *)
Definition key_ok (k : option jsstring) : Prop :=
  match k with
  | None => True
  | Some s => s <> [] /\ trim s <> [] /\ (List.length (trim s) <= 255)%nat
  end.

(** The credential invariant as the specification words it: no key, or a
    trimmed non-empty string. *)
Definition key_trimmed (k : option jsstring) : Prop :=
  match k with
  | None => True
  | Some s => s <> [] /\ trim s = s
  end.

(** ** The life of a client *)

Section Lifetime.
Context {rt : Runtime}.

(** One call of a public operation on the client of a world. *)
Inductive call : World -> World -> Prop :=
| call_setApiKey a w :
    call w (snd (Grocy.setApiKey a w))
| call_request endpoint method data queryParams w :
    call w (snd (Grocy.request endpoint method data queryParams w))
| call_getFile group fileName options w :
    call w (snd (Grocy.getFile group fileName options w))
| call_uploadFile group fileName fileData w :
    call w (snd (Grocy.uploadFile group fileName fileData w))
| call_deleteFile group fileName w :
    call w (snd (Grocy.deleteFile group fileName w)).

(** The worlds a program can reach: a client is constructed, then operations
    are called on it, whether they return or throw. *)
Inductive reachable : World -> Prop :=
| reach_new baseUrl apiKey c :
    Grocy.constructor baseUrl apiKey = Return c ->
    reachable (mkWorld c [])
| reach_call w w' :
    reachable w -> call w w' -> reachable w'.

(** A method body that leaves the instance as it found it. *)
Definition frames {A : Type} (m : M A) : Prop :=
  forall w, this (snd (m w)) = this w.

End Lifetime.

(** A host whose transport is never reached by the run at hand. *)
Definition quiet_host : Runtime := host (Rejected (mkError (js "fetch failed"))).

(** ** Concrete clients and responses *)

(** The client of the repository's tests, before any call. *)
Definition test_world : World :=
  mkWorld (mkClient (js "https://grocy.example.com/api") (Some (js "test-api-key"))) [].

(** A response of status 204 whose header claims JSON and whose body does
    not parse. *)
Definition no_content_json : Response :=
  mkResponse 204 true (Some (js "application/json"))
             (Throw (mkError (js "Unexpected end of JSON input")))
             (Return []).

(** A response of status 204 that carries calendar text. *)
Definition no_content_calendar : Response :=
  mkResponse 204 true (Some (js "text/calendar"))
             (Throw (mkError (js "Unexpected token B in JSON at position 0")))
             (Return (js "BEGIN:VCALENDAR")).

(** A failing response that carries calendar text. *)
Definition failing_calendar : Response :=
  mkResponse 500 false (Some (js "text/calendar"))
             (Throw (mkError (js "Unexpected token B in JSON at position 0")))
             (Return (js "BEGIN:VCALENDAR")).

(** A response of status 400 whose JSON body is [body]. *)
Definition bad_request (body : JsVal) : Response :=
  mkResponse 400 false (Some (js "application/json"))
             (Return body) (Throw (mkError (js "body used already"))).

(** A successful response whose content-type names both JSON and calendar
    text. *)
Definition json_and_calendar : Response :=
  mkResponse 200 true (Some (js "application/json, text/calendar"))
             (Return (JObj []))
             (Return (js "BEGIN:VCALENDAR")).

(** A response of status 502 whose header claims JSON and whose body is not
    JSON. *)
Definition bad_gateway_html : Response :=
  mkResponse 502 false (Some (js "application/json"))
             (Throw (mkError (js "Unexpected token < in JSON at position 0")))
             (Return (js "<html>Bad Gateway</html>")).

(** A base URL of 8 + 300 code units. *)
Definition long_base_url : jsstring := js "https://" ++ repeat 104%N 300.

(** The client of the tests before it is given a key. *)
Definition keyless_world : World :=
  mkWorld (mkClient (js "https://grocy.example.com/api") None) [].

(** A client whose base URL is no absolute URL. *)
Definition relative_world : World :=
  mkWorld (mkClient (js "grocy.local/api") (Some (js "test-api-key"))) [].

(** The response of the tests that is neither ok nor JSON. *)
Definition teapot : Response :=
  mkResponse 418 false (Some (js "text/plain"))
             (Throw (mkError (js "Cannot parse as JSON")))
             (Return (js "I'm a teapot")).

(** The data of a new user, with a field the client does not know. *)
Definition new_user : JsVal :=
  JObj [(js "username", JStr (js "a<b"));
        (js "password", JStr (js "p<w"));
        (js "row_created_timestamp", JStr (js "2024-01-01"))].

(** The data of a transfer. *)
Definition transfer : JsVal :=
  JObj [(js "amount", JNum (Fin 2));
        (js "location_id_from", JNum (Fin 1));
        (js "location_id_to", JNum (Fin 3))].

(** A response of status 204 without a content-type header. *)
Definition no_content : Response :=
  mkResponse 204 true None
             (Throw (mkError (js "Unexpected end of JSON input")))
             (Return []).

(** The bytes [new Uint8Array([1, 2, 3, 4])] of the repository's tests. *)
Definition test_file_data : JsVal :=
  JArr [JNum (Fin 1); JNum (Fin 2); JNum (Fin 3); JNum (Fin 4)].

(** ** The operation surface *)

Section Surface.
Context {rt : Runtime}.

(** A call of one of the operations embedded here, with its arguments.  The
    operations that validate a date ([editStockEntry], [addProductToStock],
    [addProductToStockByBarcode], [inventoryProduct], [executeChore],
    [chargeBattery], [completeTask]) are not among them: [Date] objects are
    not data values of the embedding. *)
Inductive Operation : Type :=
| Request (endpoint method : jsstring) (data queryParams : JsVal)
| GetSystemInfo
| GetDbChangedTime
| GetConfig
| GetTime (offset : JsVal)
| GetStock
| GetStockEntry (entryId : JsVal)
| GetVolatileStock (dueSoonDays : JsVal)
| GetProductDetails (productId : JsVal)
| GetProductByBarcode (barcode : JsVal)
| ConsumeProduct (productId data : JsVal)
| ConsumeProductByBarcode (barcode data : JsVal)
| TransferProduct (productId data : JsVal)
| OpenProduct (productId data : JsVal)
| AddMissingProductsToShoppingList (data : JsVal)
| AddOverdueProductsToShoppingList (data : JsVal)
| AddExpiredProductsToShoppingList (data : JsVal)
| ClearShoppingList (data : JsVal)
| AddProductToShoppingList (data : JsVal)
| RemoveProductFromShoppingList (data : JsVal)
| GetObjects (entity options : JsVal)
| AddObject (entity data : JsVal)
| GetObject (entity objectId : JsVal)
| EditObject (entity objectId data : JsVal)
| DeleteObject (entity objectId : JsVal)
| GetUserfields (entity objectId : JsVal)
| SetUserfields (entity objectId data : JsVal)
| GetFile (group fileName options : JsVal)
| UploadFile (group fileName fileData : JsVal)
| DeleteFile (group fileName : JsVal)
| GetUsers (options : JsVal)
| CreateUser (data : JsVal)
| EditUser (userId data : JsVal)
| DeleteUser (userId : JsVal)
| GetCurrentUser
| GetUserSettings
| GetUserSetting (settingKey : JsVal)
| SetUserSetting (settingKey data : JsVal)
| AddRecipeProductsToShoppingList (recipeId data : JsVal)
| GetRecipeFulfillment (recipeId : JsVal)
| ConsumeRecipe (recipeId : JsVal)
| GetAllRecipesFulfillment (options : JsVal)
| GetChores (options : JsVal)
| GetChoreDetails (choreId : JsVal)
| GetBatteries (options : JsVal)
| GetBatteryDetails (batteryId : JsVal)
| GetTasks (options : JsVal)
| UndoTask (taskId : JsVal)
| GetCalendar
| GetCalendarSharingLink.

(** [uploadFile] with its result among the results of [request]. *)
Definition upload (group fileName fileData : JsVal) : M RequestValue :=
  v <- Grocy.uploadFile group fileName fileData ;; ret (Plain v).

Definition perform (op : Operation) : M RequestValue :=
  match op with
  | Request endpoint method data queryParams =>
      Grocy.request endpoint method data queryParams
  | GetSystemInfo => Grocy.getSystemInfo
  | GetDbChangedTime => Grocy.getDbChangedTime
  | GetConfig => Grocy.getConfig
  | GetTime offset => Grocy.getTime offset
  | GetStock => Grocy.getStock
  | GetStockEntry entryId => Grocy.getStockEntry entryId
  | GetVolatileStock dueSoonDays => Grocy.getVolatileStock dueSoonDays
  | GetProductDetails productId => Grocy.getProductDetails productId
  | GetProductByBarcode barcode => Grocy.getProductByBarcode barcode
  | ConsumeProduct productId data => Grocy.consumeProduct productId data
  | ConsumeProductByBarcode barcode data => Grocy.consumeProductByBarcode barcode data
  | TransferProduct productId data => Grocy.transferProduct productId data
  | OpenProduct productId data => Grocy.openProduct productId data
  | AddMissingProductsToShoppingList data => Grocy.addMissingProductsToShoppingList data
  | AddOverdueProductsToShoppingList data => Grocy.addOverdueProductsToShoppingList data
  | AddExpiredProductsToShoppingList data => Grocy.addExpiredProductsToShoppingList data
  | ClearShoppingList data => Grocy.clearShoppingList data
  | AddProductToShoppingList data => Grocy.addProductToShoppingList data
  | RemoveProductFromShoppingList data => Grocy.removeProductFromShoppingList data
  | GetObjects entity options => Grocy.getObjects entity options
  | AddObject entity data => Grocy.addObject entity data
  | GetObject entity objectId => Grocy.getObject entity objectId
  | EditObject entity objectId data => Grocy.editObject entity objectId data
  | DeleteObject entity objectId => Grocy.deleteObject entity objectId
  | GetUserfields entity objectId => Grocy.getUserfields entity objectId
  | SetUserfields entity objectId data => Grocy.setUserfields entity objectId data
  | GetFile group fileName options => Grocy.getFile group fileName options
  | UploadFile group fileName fileData => upload group fileName fileData
  | DeleteFile group fileName => Grocy.deleteFile group fileName
  | GetUsers options => Grocy.getUsers options
  | CreateUser data => Grocy.createUser data
  | EditUser userId data => Grocy.editUser userId data
  | DeleteUser userId => Grocy.deleteUser userId
  | GetCurrentUser => Grocy.getCurrentUser
  | GetUserSettings => Grocy.getUserSettings
  | GetUserSetting settingKey => Grocy.getUserSetting settingKey
  | SetUserSetting settingKey data => Grocy.setUserSetting settingKey data
  | AddRecipeProductsToShoppingList recipeId data =>
      Grocy.addRecipeProductsToShoppingList recipeId data
  | GetRecipeFulfillment recipeId => Grocy.getRecipeFulfillment recipeId
  | ConsumeRecipe recipeId => Grocy.consumeRecipe recipeId
  | GetAllRecipesFulfillment options => Grocy.getAllRecipesFulfillment options
  | GetChores options => Grocy.getChores options
  | GetChoreDetails choreId => Grocy.getChoreDetails choreId
  | GetBatteries options => Grocy.getBatteries options
  | GetBatteryDetails batteryId => Grocy.getBatteryDetails batteryId
  | GetTasks options => Grocy.getTasks options
  | UndoTask taskId => Grocy.undoTask taskId
  | GetCalendar => Grocy.getCalendar
  | GetCalendarSharingLink => Grocy.getCalendarSharingLink
  end.

(** The shape the operations share: checks that touch no state, each free
    to throw, and after them at most one call of [request] or the transport
    call of [uploadFile]. *)
Inductive checked : M RequestValue -> Prop :=
| checked_request endpoint method data queryParams :
    checked (Grocy.request endpoint method data queryParams)
| checked_upload group fileName fileData :
    checked (upload group fileName fileData)
| checked_throw e :
    checked (throw e)
| checked_then (A : Type) (r : Result A) (k : A -> M RequestValue) :
    (forall a, checked (k a)) -> checked (x <- lift r ;; k x).

(** The guarded part of [uploadFile]. *)
Definition upload_attempt (url : URL) (options : RequestInit) : M JsVal :=
  try_catch
    (response <- Grocy.await_fetch url options ;;
     if negb (ok response) then
       errorData <- lift (json response) ;;
       error_message <- lift (get_property errorData (js "error_message")) ;;
       error <- lift (new_Error (if truthy error_message then error_message
                                 else JStr (Grocy.http_error response))) ;;
       throw error
     else ret success_true)
    (fun error => throw (Grocy.request_failed error)).

End Surface.

(** The world of [w] after one more call reached the transport. *)
Definition after_call (w : World) (c : URL * RequestInit) : World :=
  mkWorld (this w) (fetched w ++ [c]).

(** A rational that is an integer. *)
Definition is_integer (q : Q) : Prop := exists z : Z, (q == inject_Z z)%Q.

(** The label [validateArray] gives to the item at position [i]. *)
Definition item_label (fieldName : jsstring) (i : nat) : jsstring :=
  fieldName ++ js "[" ++ Z_toString (Z.of_nat i) ++ js "]".

(** The value an object holds under [name], if any. *)
Definition own (props : list (jsstring * JsVal)) (name : jsstring) : option JsVal :=
  option_map snd (find (fun kv => str_eqb (fst kv) name) props).

Section Payloads.
Context {rt : Runtime}.

(** The structured payloads the operations build. *)
Inductive Payload : Type :=
| ConsumeData
| TransferData
| OpenData
| ShoppingItemData
| ShoppingRemovalData
| NewUserData
| UserData
| RecipeProductsData.

(** The fields each payload validates. *)
Definition known_fields (p : Payload) : list jsstring :=
  match p with
  | ConsumeData =>
      [js "amount"; js "transaction_type"; js "spoiled"; js "location_id";
       js "recipe_id"; js "exact_amount"]
  | TransferData =>
      [js "amount"; js "location_id_from"; js "location_id_to"; js "transaction_type"]
  | OpenData => [js "amount"; js "location_id"; js "allow_subproduct_substitution"]
  | ShoppingItemData => [js "product_id"; js "list_id"; js "product_amount"; js "note"]
  | ShoppingRemovalData => [js "product_id"; js "list_id"; js "product_amount"]
  | NewUserData => [js "username"; js "password"; js "first_name"; js "last_name"]
  | UserData => [js "username"; js "password"; js "first_name"; js "last_name"]
  | RecipeProductsData => [js "excluded_product_ids"]
  end.

Definition build (p : Payload) : JsVal -> Result JsVal :=
  match p with
  | ConsumeData => Grocy.consume_data
  | TransferData => Grocy.transfer_data
  | OpenData => Grocy.open_data
  | ShoppingItemData => Grocy.shopping_item_data
  | ShoppingRemovalData => Grocy.shopping_removal_data
  | NewUserData => Grocy.new_user_data
  | UserData => Grocy.user_data
  | RecipeProductsData => Grocy.recipe_products_data
  end.

(** The operations that take an id and nothing else, with the id, what
    stands before and after it in the endpoint path, and the method. *)
Definition id_route (op : Operation) : option (JsVal * jsstring * jsstring * jsstring) :=
  match op with
  | GetStockEntry id => Some (id, js "/stock/entry/", [], js "GET")
  | GetProductDetails id => Some (id, js "/stock/products/", [], js "GET")
  | DeleteUser id => Some (id, js "/users/", [], js "DELETE")
  | GetRecipeFulfillment id => Some (id, js "/recipes/", js "/fulfillment", js "GET")
  | ConsumeRecipe id => Some (id, js "/recipes/", js "/consume", js "POST")
  | GetChoreDetails id => Some (id, js "/chores/", [], js "GET")
  | GetBatteryDetails id => Some (id, js "/batteries/", [], js "GET")
  | UndoTask id => Some (id, js "/tasks/", js "/undo", js "POST")
  | _ => None
  end.

End Payloads.

(** A number that is an integer greater than 0. *)
Definition positive_integer (v : JsVal) : Prop :=
  exists q, v = JNum (Fin q) /\ is_integer q /\ (0 < q)%Q.

(** * Properties *)

(** ** Strings *)

Lemma str_eqb_eq (a b : jsstring) : str_eqb a b = true <-> a = b.
Proof.
  revert b; induction a as [|x a IH]; intros [|y b]; simpl; split;
    try discriminate; try reflexivity.
  - intros H. apply andb_true_iff in H as [Hx Hab].
    apply N.eqb_eq in Hx. apply IH in Hab. now subst.
  - intros H. injection H as -> ->. rewrite N.eqb_refl. now apply IH.
Qed.

Lemma str_eqb_nil (s : jsstring) : str_eqb s [] = false <-> s <> [].
Proof.
  destruct s; simpl; split; congruence.
Qed.

Lemma truthy_JStr (s : jsstring) : truthy (JStr s) = true <-> s <> [].
Proof.
  simpl. rewrite negb_true_iff. apply str_eqb_nil.
Qed.

Lemma startsWith_app (p t : jsstring) : startsWith (p ++ t) p = true.
Proof.
  induction p as [|y p IH]; simpl; [reflexivity|].
  now rewrite N.eqb_refl.
Qed.

Lemma startsWith_inv (s p : jsstring) :
  startsWith s p = true -> exists t, s = p ++ t.
Proof.
  revert s; induction p as [|y p IH]; intros s H.
  - now exists s.
  - destruct s as [|x s]; simpl in H; [discriminate|].
    apply andb_true_iff in H as [Hx Hs].
    apply N.eqb_eq in Hx. destruct (IH _ Hs) as [t ->].
    exists t. now subst.
Qed.

Lemma endsWith_app (t p : jsstring) : endsWith (t ++ p) p = true.
Proof.
  unfold endsWith. rewrite rev_app_distr. apply startsWith_app.
Qed.

Lemma endsWith_inv (s p : jsstring) :
  endsWith s p = true -> exists t, s = t ++ p.
Proof.
  unfold endsWith. intros H.
  destruct (startsWith_inv _ _ H) as [t Ht].
  exists (rev t).
  rewrite <- (rev_involutive s), Ht, rev_app_distr.
  now rewrite rev_involutive.
Qed.

Lemma trim_nonempty (s : jsstring) : trim s <> [] -> s <> [].
Proof.
  intros H ->. now apply H.
Qed.

(** ** The model against the repository's tests *)

Example test_base_url_gets_suffix :
  Grocy.constructor (JStr (js "https://grocy.example.com")) (JStr (js "test-api-key"))
  = Return (this test_world).
Proof. reflexivity. Qed.

Example test_empty_key_becomes_null :
  option_map apiKey
    (match Grocy.constructor (JStr (js "https://grocy.example.com")) (JStr []) with
     | Return c => Some c
     | Throw _ => None
     end) = Some None.
Proof. reflexivity. Qed.

Example test_key_must_be_string :
  Grocy.constructor (JStr (js "https://grocy.example.com")) (JNum (Fin 123))
  = Throw (mkError (js "API key must be a string")).
Proof. reflexivity. Qed.

Example test_amount_below_min :
  validateNumber (rt := quiet_host) (JNum (Fin (-1))) (js "Amount")
    (mkNumberOptions (Some (Fin (1 # 1000))) None)
  = Throw (mkError (js "Amount must be at least 0.001")).
Proof. reflexivity. Qed.

Example test_blank_barcode :
  validateString (JStr (js "   ")) (js "Barcode") (mkStringOptions None None None None)
  = Throw (mkError (js "Barcode is required and must be non-empty")).
Proof. reflexivity. Qed.

Example test_script_is_escaped :
  validateString (JStr (js "test<script>alert(1)</script>")) (js "Username")
    (mkStringOptions None None None None)
  = Return (js "test&lt;script&gt;alert(1)&lt;&#x2F;script&gt;").
Proof. reflexivity. Qed.

Example test_teapot :
  fst (Grocy.request
         (rt := host (Resolved (mkResponse 418 false (Some (js "text/plain"))
                                  (Throw (mkError (js "Cannot parse as JSON")))
                                  (Return (js "I'm a teapot")))))
         (js "/test-endpoint") (js "GET") JNull (JObj []) test_world)
  = Throw (mkError (js "Grocy API request failed: HTTP error! status: 418")).
Proof. reflexivity. Qed.

Example test_network_failure_is_wrapped :
  fst (Grocy.request (rt := quiet_host)
         (js "/test-endpoint") (js "GET") JNull (JObj []) test_world)
  = Throw (mkError (js "Grocy API request failed: fetch failed")).
Proof. reflexivity. Qed.

(** ** The base endpoint *)

Lemma api_base_suffix (s : jsstring) :
  endsWith (Grocy.api_base s) (js "/api") = true.
Proof.
  unfold Grocy.api_base.
  destruct (endsWith s (js "/api")) eqn:E; [exact E | apply endsWith_app].
Qed.

Lemma api_base_idempotent (s : jsstring) :
  Grocy.api_base (Grocy.api_base s) = Grocy.api_base s.
Proof.
  unfold Grocy.api_base at 1. now rewrite api_base_suffix.
Qed.

(** What [validateString] does on a string argument. *)
Lemma validateString_string (s fieldName : jsstring) (o : StringOptions) :
  validateString (JStr s) fieldName o =
  let required := with_default true (opt_required o) in
  let maxLength := with_default 255%Z (opt_maxLength o) in
  let sanitize := with_default true (opt_sanitize o) in
  let kept := if sanitize then validator_escape s else s in
  let too_long :=
    Throw (mkError (fieldName ++ js " must not exceed "
                      ++ Z_toString maxLength ++ js " characters")) in
  if required && (negb (truthy (JStr s)) || negb (truthy (JStr (trim s)))) then
    Throw (mkError (fieldName ++ js " is required and must be non-empty"))
  else if negb required && negb (truthy (JStr s)) then
    Return (if truthy (JStr s) then s else [])
  else
    match opt_minLength o with
    | Some mn =>
        if Z.ltb (Z.of_nat (List.length (trim s))) mn then
          Throw (mkError (fieldName ++ js " must be at least "
                            ++ Z_toString mn ++ js " characters"))
        else if Z.ltb maxLength (Z.of_nat (List.length (trim s))) then too_long
        else Return kept
    | None =>
        if Z.ltb maxLength (Z.of_nat (List.length (trim s))) then too_long
        else Return kept
    end.
Proof. reflexivity. Qed.

(** A string that is not blank and is short enough passes the validation of
    a configuration value unchanged. *)
Lemma validateString_exact (s fieldName : jsstring) (required : option bool) :
  trim s <> [] -> (List.length (trim s) <= 255)%nat ->
  validateString (JStr s) fieldName
    (mkStringOptions required None (Some 1%Z) (Some false)) = Return s.
Proof.
  intros Hne Hlen. rewrite validateString_string. cbv zeta.
  pose proof (trim_nonempty _ Hne) as Hs.
  apply truthy_JStr in Hs. apply truthy_JStr in Hne as Ht.
  rewrite Hs, Ht. simpl negb. rewrite orb_false_r, !andb_false_r.
  cbn [opt_minLength opt_maxLength opt_sanitize with_default].
  destruct (trim s) as [|c t] eqn:E; [congruence|].
  replace (Z.ltb (Z.of_nat (List.length (c :: t))) 1) with false
    by (symmetry; apply Z.ltb_ge; simpl List.length; lia).
  replace (Z.ltb 255 (Z.of_nat (List.length (c :: t)))) with false
    by (symmetry; apply Z.ltb_ge; lia).
  reflexivity.
Qed.

Lemma validateOptionalString_default (a : JsVal) (f : jsstring) (o : StringOptions) :
  validateOptionalString (if is_undefined a then JNull else a) f o
  = validateOptionalString a f o.
Proof. destruct a; reflexivity. Qed.

(** C6 (amended): for every base-URL string that is not blank and whose
    trimmed form has at most 255 code units, the constructor fails only
    through its API-key argument; otherwise it stores the string itself when
    it already ends with [/api] and the string followed by [/api] when it
    does not, so the stored base endpoint always ends with [/api], and
    normalising it again changes nothing. *)
Theorem constructor_base_endpoint (s : jsstring) (a : JsVal) :
  trim s <> [] -> (List.length (trim s) <= 255)%nat ->
  (forall k, validateOptionalString a (js "API key") Grocy.exact_options = Return k ->
     Grocy.constructor (JStr s) a
     = Return (mkClient (Grocy.api_base s) (Grocy.stored_key k)))
  /\ (forall e, validateOptionalString a (js "API key") Grocy.exact_options = Throw e ->
     Grocy.constructor (JStr s) a = Throw e)
  /\ Grocy.constructor (JStr s) JNull = Return (mkClient (Grocy.api_base s) None)
  /\ endsWith (Grocy.api_base s) (js "/api") = true
  /\ (endsWith s (js "/api") = true -> Grocy.api_base s = s)
  /\ (endsWith s (js "/api") = false -> Grocy.api_base s = s ++ js "/api")
  /\ Grocy.api_base (Grocy.api_base s) = Grocy.api_base s.
Proof.
  intros Hne Hlen.
  assert (Hs : validateString (JStr s) (js "Base URL") Grocy.exact_options = Return s)
    by (apply validateString_exact; assumption).
  repeat split.
  - intros k Hk. unfold Grocy.constructor.
    now rewrite Hs, validateOptionalString_default, Hk.
  - intros e He. unfold Grocy.constructor.
    now rewrite Hs, validateOptionalString_default, He.
  - unfold Grocy.constructor. now rewrite Hs.
  - apply api_base_suffix.
  - intros E. unfold Grocy.api_base. now rewrite E.
  - intros E. unfold Grocy.api_base. now rewrite E.
  - apply api_base_idempotent.
Qed.

(** The round trip of the specification: [https://h] and [https://h/api]
    construct the same base endpoint. *)
Lemma constructor_base_endpoint_witness :
  Grocy.constructor (JStr (js "https://h")) JNull
  = Return (mkClient (js "https://h/api") None)
  /\ Grocy.constructor (JStr (js "https://h/api")) JNull
  = Return (mkClient (js "https://h/api") None).
Proof.
  assert (N1 : trim (js "https://h") <> []) by (vm_compute; discriminate).
  assert (L1 : (List.length (trim (js "https://h")) <= 255)%nat) by (vm_compute; lia).
  assert (N2 : trim (js "https://h/api") <> []) by (vm_compute; discriminate).
  assert (L2 : (List.length (trim (js "https://h/api")) <= 255)%nat) by (vm_compute; lia).
  split.
  - exact (proj1 (proj2 (proj2 (constructor_base_endpoint (js "https://h") JNull N1 L1)))).
  - exact (proj1 (proj2 (proj2 (constructor_base_endpoint (js "https://h/api") JNull N2 L2)))).
Defined.

(** C6 as stated fails: a base URL made of one space is a non-empty string,
    and the constructor rejects it; so it does one of more than 255 code
    units. *)
Lemma constructor_rejects_blank_base_url :
  js " " <> []
  /\ Grocy.constructor (JStr (js " ")) JNull
     = Throw (mkError (js "Base URL is required and must be non-empty"))
  /\ long_base_url <> []
  /\ Grocy.constructor (JStr long_base_url) JNull
     = Throw (mkError (js "Base URL must not exceed 255 characters")).
Proof.
  split; [discriminate|].
  split; [vm_compute; reflexivity|].
  split; [discriminate|].
  vm_compute; reflexivity.
Qed.

(** ** The credential *)

(** What the validation of an API key lets through: nothing, the empty
    string (stored as no key), or the argument itself, not blank. *)
Lemma api_key_validated (a : JsVal) (k : option jsstring) :
  validateOptionalString a (js "API key") Grocy.exact_options = Return k ->
  key_ok (Grocy.stored_key k)
  /\ forall s, Grocy.stored_key k = Some s -> a = JStr s.
Proof.
  unfold validateOptionalString.
  destruct a as [| |b|n|s|l|o]; simpl is_null; simpl is_undefined; simpl orb; cbv iota;
    try (intros H; injection H as <-; split; [exact I | discriminate]);
    try (vm_compute; discriminate).
  rewrite validateString_string. cbv zeta.
  cbn [Grocy.exact_options not_required opt_required opt_minLength opt_maxLength
       opt_sanitize with_default andb negb].
  destruct (truthy (JStr s)) eqn:Hs; cbn [negb].
  - destruct (Z.ltb (Z.of_nat (List.length (trim s))) 1) eqn:Hmin; [discriminate|].
    destruct (Z.ltb 255 (Z.of_nat (List.length (trim s)))) eqn:Hmax; [discriminate|].
    intros H; injection H as <-.
    apply Z.ltb_ge in Hmin. apply Z.ltb_ge in Hmax.
    unfold Grocy.stored_key. cbn [key_value]. rewrite Hs.
    split.
    + cbn [key_ok]. repeat split.
      * now apply truthy_JStr.
      * intros E. rewrite E in Hmin. simpl in Hmin. lia.
      * lia.
    + intros s' H. now injection H as <-.
  - intros H; injection H as <-.
    unfold Grocy.stored_key. now vm_compute.
Qed.

Section Frames.
Context {rt : Runtime}.

Lemma frames_ret {A : Type} (a : A) : frames (ret a).
Proof. intros w; reflexivity. Qed.

Lemma frames_throw {A : Type} (e : Error) : frames (@throw A e).
Proof. intros w; reflexivity. Qed.

Lemma frames_lift {A : Type} (r : Result A) : frames (lift r).
Proof. intros w; reflexivity. Qed.

Lemma frames_get_this : frames get_this.
Proof. intros w; reflexivity. Qed.

Lemma frames_await_fetch (url : URL) (options : RequestInit) :
  frames (Grocy.await_fetch url options).
Proof.
  intros w. unfold Grocy.await_fetch.
  destruct (fetch url options); reflexivity.
Qed.

Lemma frames_bind {A B : Type} (m : M A) (k : A -> M B) :
  frames m -> (forall a, frames (k a)) -> frames (bind m k).
Proof.
  intros Hm Hk w. unfold bind.
  specialize (Hm w). destruct (m w) as [[a|e] w1]; simpl in *.
  - now rewrite Hk.
  - exact Hm.
Qed.

Lemma frames_try_catch {A : Type} (m : M A) (h : Error -> M A) :
  frames m -> (forall e, frames (h e)) -> frames (try_catch m h).
Proof.
  intros Hm Hh w. unfold try_catch.
  specialize (Hm w). destruct (m w) as [[a|e] w1]; simpl in *.
  - exact Hm.
  - now rewrite Hh.
Qed.

Ltac frame_with known :=
  repeat first
    [ known | apply frames_ret | apply frames_throw | apply frames_lift
    | apply frames_get_this | apply frames_await_fetch
    | apply frames_bind; [|intro]
    | apply frames_try_catch; [|intro]
    | match goal with
      | |- frames (if ?b then _ else _) => destruct b
      end ].

Ltac frame := frame_with fail.

Lemma frames_normalize_response (response : Response) :
  frames (Grocy.normalize_response response).
Proof. unfold Grocy.normalize_response. frame. Qed.

Lemma frames_request (endpoint method : jsstring) (data queryParams : JsVal) :
  frames (Grocy.request endpoint method data queryParams).
Proof.
  unfold Grocy.request.
  frame_with ltac:(apply frames_normalize_response).
Qed.

Lemma frames_getFile (group fileName options : JsVal) :
  frames (Grocy.getFile group fileName options).
Proof. unfold Grocy.getFile. frame_with ltac:(apply frames_request). Qed.

Lemma frames_uploadFile (group fileName fileData : JsVal) :
  frames (Grocy.uploadFile group fileName fileData).
Proof. unfold Grocy.uploadFile. frame. Qed.

Lemma frames_deleteFile (group fileName : JsVal) :
  frames (Grocy.deleteFile group fileName).
Proof. unfold Grocy.deleteFile. frame_with ltac:(apply frames_request). Qed.

(** [setApiKey] either throws and changes nothing, or returns with a valid
    credential stored exactly as it was passed. *)
Lemma setApiKey_outcome (a : JsVal) (w : World) :
  (exists e, Grocy.setApiKey a w = (Throw e, w))
  \/ (exists k,
        Grocy.setApiKey a w
        = (Return tt, mkWorld (mkClient (baseUrl (this w)) k) (fetched w))
        /\ key_ok k /\ forall s, k = Some s -> a = JStr s).
Proof.
  unfold Grocy.setApiKey, bind, lift, assign_apiKey.
  destruct (validateOptionalString a (js "API key") Grocy.exact_options) as [k|e] eqn:E.
  - right. exists (Grocy.stored_key k). split; [reflexivity|].
    now apply api_key_validated.
  - left. now exists e.
Qed.

(** C8 (amended): in every world a program can reach (after construction
    and after any sequence of operations, returning or throwing) the stored
    apiKey is either null or a non-empty string that is not blank and whose
    trimmed form has at most 255 code units.  The string is stored as it was
    passed: surrounding whitespace is kept. *)
Theorem credential_invariant (w : World) :
  reachable w -> key_ok (apiKey (this w)).
Proof.
  induction 1 as [b a c Hc | w w' Hw IH Hcall].
  - unfold Grocy.constructor in Hc.
    destruct (validateString b (js "Base URL") Grocy.exact_options); [|discriminate].
    rewrite validateOptionalString_default in Hc.
    destruct (validateOptionalString a (js "API key") Grocy.exact_options) as [k|e] eqn:E;
      [|discriminate].
    injection Hc as <-. simpl. now apply api_key_validated in E.
  - destruct Hcall as [a w| e m d q w | g f o w | g f d w | g f w].
    + destruct (setApiKey_outcome a w) as [[e ->] | [k [-> [Hk _]]]]; simpl; assumption.
    + now rewrite frames_request.
    + now rewrite frames_getFile.
    + now rewrite frames_uploadFile.
    + now rewrite frames_deleteFile.
Qed.

End Frames.

(** A reachable world: a client constructed without a key, then given
    one. *)
Lemma credential_invariant_witness :
  key_ok (apiKey (this (snd (Grocy.setApiKey (JStr (js "test-api-key"))
                               (mkWorld (mkClient (js "https://h/api") None) []))))).
Proof.
  apply (credential_invariant (rt := quiet_host)).
  apply reach_call with (w := mkWorld (mkClient (js "https://h/api") None) []).
  - apply reach_new with (baseUrl := JStr (js "https://h")) (apiKey := JNull).
    vm_compute. reflexivity.
  - apply call_setApiKey.
Defined.

(** C8 as stated fails: a key passed with surrounding whitespace is stored
    with it. *)
Lemma padded_key_is_stored :
  Grocy.constructor (JStr (js "https://h")) JNull
  = Return (mkClient (js "https://h/api") None)
  /\ Grocy.setApiKey (JStr (js " k ")) (mkWorld (mkClient (js "https://h/api") None) [])
     = (Return tt, mkWorld (mkClient (js "https://h/api") (Some (js " k "))) [])
  /\ ~ key_trimmed (Some (js " k ")).
Proof.
  split; [vm_compute; reflexivity|].
  split; [vm_compute; reflexivity|].
  intros [_ H]. vm_compute in H. discriminate.
Qed.

(** ** Conversion to a string *)

Section StringForms.
Context {rt : Runtime}.

Lemma ToString_array (elems : list JsVal) :
  ToString (JArr elems)
  = (parts <-- element_parts elems ;; Return (join (js ",") parts)).
Proof. reflexivity. Qed.

(** The one failure of the conversion is the TypeError of ToPrimitive. *)
Lemma ToString_throws (v : JsVal) (e : Error) :
  ToString v = Throw e -> e = not_primitive.
Proof.
  revert v e. fix IH 1. intros [| |[|]|n|s|elems|props] e; try discriminate.
  - rewrite ToString_array.
    assert (Hparts : forall e', element_parts elems = Throw e' -> e' = not_primitive).
    { induction elems as [|x elems IHl]; intros e' H; [discriminate|].
      cbn [element_parts and_then] in H.
      assert (Hx : forall e0, ToString x = Throw e0 -> e0 = not_primitive)
        by (intros e0; apply IH).
      destruct x as [| |b|n|s|l|o];
        try (destruct (ToString _) as [p|e0] eqn:E;
             [|cbn [and_then] in H; injection H as <-; now apply Hx]);
        cbn [and_then] in H;
        (destruct (element_parts elems) as [ps|e1];
         [discriminate | injection H as <-; now apply IHl]). }
    destruct (element_parts elems) as [ps|e'] eqn:E; cbn [and_then]; [discriminate|].
    intros H. injection H as <-. now apply Hparts.
  - cbn [ToString]. destruct (has_own props (js "toString")); [|discriminate].
    intros H. now injection H as <-.
Qed.

Lemma no_string_form (v : JsVal) :
  ~ has_string_form v -> exists e, ToString v = Throw e.
Proof.
  intros N. destruct (ToString v) as [s|e] eqn:E.
  - elim N. now exists s.
  - now exists e.
Qed.

Lemma string_form_eq (v : JsVal) (s : jsstring) :
  ToString v = Return s -> string_form v = s.
Proof. intros E. unfold string_form. now rewrite E. Qed.

(** On a value other than [null] and [undefined], the method [toString]
    returns what ToString returns. *)
Lemma toString_method_form (v : JsVal) (s : jsstring) :
  is_null v = false -> is_undefined v = false ->
  (toString_method v = Return s <-> ToString v = Return s).
Proof.
  destruct v as [| |b|n|s0|l|o]; try discriminate; intros _ _; try reflexivity.
  cbn [toString_method ToString].
  destruct (has_own o (js "toString")); split; congruence.
Qed.

End StringForms.

(** ** The request dispatcher *)

(** Without a truthy key, [request] stops at its first statement. *)
Lemma request_without_key {rt : Runtime} (endpoint method : jsstring)
    (data queryParams : JsVal) (w : World) :
  truthy (key_value (apiKey (this w))) = false ->
  Grocy.request endpoint method data queryParams w
  = (Throw (mkError (js "API key is required. Use setApiKey() to set it.")), w).
Proof.
  intros H. unfold Grocy.request, bind, get_this. now rewrite H.
Qed.

(** C1: whatever the endpoint, method, body and query parameters, and
    whatever the host does with them, [request] on a client without an API
    key throws the fixed message that starts with "API key is required", and
    leaves the world as it was: no call reached the transport and the client
    is unchanged.  The check comes first: the result does not depend on
    whether the URL parses or on what the query parameters hold. *)
Theorem request_requires_key {rt : Runtime} (endpoint method : jsstring)
    (data queryParams : JsVal) (w : World) :
  apiKey (this w) = None ->
  Grocy.request endpoint method data queryParams w
  = (Throw (mkError (js "API key is required. Use setApiKey() to set it.")), w)
  /\ startsWith (js "API key is required. Use setApiKey() to set it.")
                (js "API key is required") = true.
Proof.
  intros H. split; [|reflexivity].
  apply request_without_key. now rewrite H.
Qed.

Lemma request_requires_key_witness :
  Grocy.request (rt := quiet_host) (js "/stock") (js "GET") JNull
    (JObj [(js "k", JArr [JNum (Fin 1)])])
    (mkWorld (mkClient (js "https://h/api") None) [])
  = (Throw (mkError (js "API key is required. Use setApiKey() to set it.")),
     mkWorld (mkClient (js "https://h/api") None) []).
Proof.
  exact (proj1 (request_requires_key (rt := quiet_host) (js "/stock") (js "GET") JNull
                  (JObj [(js "k", JArr [JNum (Fin 1)])])
                  (mkWorld (mkClient (js "https://h/api") None) []) eq_refl)).
Defined.

(** ** Number validation *)

Lemma isNaN_false (n : JsNum) : isNaN n = false <-> n <> NaN.
Proof. destruct n; simpl; split; congruence. Qed.

(** On numbers, [a < b] fails exactly when [b <= a]. *)
Lemma js_lt_false (a b : JsNum) :
  a <> NaN -> b <> NaN -> (js_lt a b = false <-> num_le b a).
Proof.
  intros Ha Hb.
  destruct a as [| | |x], b as [| | |y]; simpl; try congruence; try tauto;
    try (split; [intros _; exact I | reflexivity]);
    try (split; [discriminate | intros []]).
  rewrite negb_false_iff. apply Qle_bool_iff.
Qed.

Lemma js_lt_true (a b : JsNum) :
  a <> NaN -> b <> NaN -> (js_lt a b = true <-> ~ num_le b a).
Proof.
  intros Ha Hb. rewrite <- (js_lt_false a b Ha Hb).
  destruct (js_lt a b); split; congruence.
Qed.

Section NumberValidation.
Context {rt : Runtime}.

(** The three checks of [validateNumber] on a number that is not NaN. *)
Lemma validateNumber_number (n : JsNum) (fieldName : jsstring) (options : NumberOptions) :
  n <> NaN ->
  validateNumber (JNum n) fieldName options =
  if js_lt n (lower_bound options) then
    Throw (mkError (fieldName ++ js " must be at least "
                      ++ Number_toString (lower_bound options)))
  else
    match opt_max options with
    | Some mx =>
        if js_lt mx n then
          Throw (mkError (fieldName ++ js " must be at most " ++ Number_toString mx))
        else Return (JNum n)
    | None => Return (JNum n)
    end.
Proof.
  intros Hn. apply isNaN_false in Hn.
  unfold validateNumber, lower_bound. now rewrite Hn.
Qed.

(** C7 (amended): with bounds that are numbers other than NaN, [min]
    defaulting to 0 and [max] unbounded when omitted, [validateNumber]
    returns the value unchanged if and only if the value is a number other
    than NaN (an infinity included) within the inclusive bounds; it never
    returns anything else; otherwise it fails with "must be a valid number"
    for a non-number or NaN, "must be at least min" below [min], and "must
    be at most max" above [max]. *)
Theorem validateNumber_spec (value : JsVal) (fieldName : jsstring)
    (options : NumberOptions) :
  lower_bound options <> NaN -> opt_max options <> Some NaN ->
  (validateNumber value fieldName options = Return value <->
     exists n, value = JNum n /\ n <> NaN
               /\ num_le (lower_bound options) n /\ below_max options n)
  /\ (forall v, validateNumber value fieldName options = Return v -> v = value)
  /\ ((forall n, value = JNum n -> n = NaN) ->
      validateNumber value fieldName options
      = Throw (mkError (fieldName ++ js " must be a valid number")))
  /\ (forall n, value = JNum n -> n <> NaN -> ~ num_le (lower_bound options) n ->
      validateNumber value fieldName options
      = Throw (mkError (fieldName ++ js " must be at least "
                          ++ Number_toString (lower_bound options))))
  /\ (forall n mx, value = JNum n -> n <> NaN -> num_le (lower_bound options) n ->
      opt_max options = Some mx -> ~ num_le n mx ->
      validateNumber value fieldName options
      = Throw (mkError (fieldName ++ js " must be at most " ++ Number_toString mx))).
Proof.
  intros Hmin Hmax.
  assert (Hother : (forall n, value <> JNum n) ->
            validateNumber value fieldName options
            = Throw (mkError (fieldName ++ js " must be a valid number"))).
  { intros H. destruct value; try reflexivity. now elim (H n). }
  assert (Hnan : validateNumber (JNum NaN) fieldName options
                 = Throw (mkError (fieldName ++ js " must be a valid number")))
    by reflexivity.
  split; [|split; [|split; [|split]]].
  - split.
    + intros H.
      destruct value as [| |b|n|s|l|o]; try (rewrite Hother in H; discriminate).
      destruct (isNaN n) eqn:En.
      { destruct n; discriminate. }
      apply isNaN_false in En. rewrite (validateNumber_number _ _ _ En) in H.
      exists n. split; [reflexivity|]. split; [assumption|].
      destruct (js_lt n (lower_bound options)) eqn:Elo; [discriminate|].
      apply js_lt_false in Elo; try assumption.
      split; [assumption|].
      intros mx Hmx. rewrite Hmx in H.
      destruct (js_lt mx n) eqn:Ehi; [discriminate|].
      apply js_lt_false in Ehi; try assumption. congruence.
    + intros (n & -> & Hn & Hlo & Hhi).
      rewrite (validateNumber_number _ _ _ Hn).
      apply js_lt_false in Hlo; try assumption. rewrite Hlo.
      destruct (opt_max options) as [mx|] eqn:Hmx; [|reflexivity].
      assert (Hmx' : mx <> NaN) by congruence.
      specialize (Hhi mx Hmx).
      apply js_lt_false in Hhi; try assumption. now rewrite Hhi.
  - intros v H.
    destruct value as [| |b|n|s|l|o]; try (rewrite Hother in H; discriminate).
    destruct (isNaN n) eqn:En.
    { destruct n; discriminate. }
    apply isNaN_false in En. rewrite (validateNumber_number _ _ _ En) in H.
    destruct (js_lt n (lower_bound options)); [discriminate|].
    destruct (opt_max options) as [mx|]; [destruct (js_lt mx n)|]; congruence.
  - intros H.
    destruct value as [| |b|n|s|l|o]; try (apply Hother; discriminate).
    now rewrite (H n eq_refl).
  - intros n -> Hn Hlo.
    rewrite (validateNumber_number _ _ _ Hn).
    apply js_lt_true in Hlo; try assumption. now rewrite Hlo.
  - intros n mx -> Hn Hlo Hmx Hhi.
    rewrite (validateNumber_number _ _ _ Hn).
    apply js_lt_false in Hlo; try assumption. rewrite Hlo, Hmx.
    assert (Hmx' : mx <> NaN) by congruence.
    apply js_lt_true in Hhi; try assumption. now rewrite Hhi.
Qed.

End NumberValidation.

Lemma validateNumber_spec_witness :
  validateNumber (rt := quiet_host) (JNum (Fin 400)) (js "Due soon days")
    (mkNumberOptions (Some (Fin 0)) (Some (Fin 365)))
  = Throw (mkError (js "Due soon days must be at most 365")).
Proof.
  refine (proj2 (proj2 (proj2 (proj2
    (validateNumber_spec (rt := quiet_host) (JNum (Fin 400)) (js "Due soon days")
       (mkNumberOptions (Some (Fin 0)) (Some (Fin 365))) _ _))))
    (Fin 400) (Fin 365) eq_refl _ _ eq_refl _).
  - vm_compute. discriminate.
  - vm_compute. discriminate.
  - discriminate.
  - vm_compute. discriminate.
  - intros H. vm_compute in H. now apply H.
Defined.

(** C7 as stated fails: positive infinity is not finite, and it is returned
    unchanged under the default bounds. *)
Lemma validateNumber_accepts_infinity :
  validateNumber (rt := quiet_host) (JNum PosInf) (js "Amount")
    (mkNumberOptions None None) = Return (JNum PosInf)
  /\ ~ finite PosInf.
Proof.
  split; [reflexivity | intros []].
Qed.

(** ** Reaching the transport *)

Section Dispatch.
Context {rt : Runtime}.

(** The response normaliser touches neither the client nor the transport. *)
Lemma normalize_response_inert (response : Response) (w : World) :
  snd (Grocy.normalize_response response w) = w.
Proof.
  unfold Grocy.normalize_response, bind, lift, ret, throw.
  repeat match goal with
         | |- context [if ?b then _ else _] => destruct b
         | |- context [match ?x with Return _ => _ | Throw _ => _ end] => destruct x
         end; reflexivity.
Qed.

(** With a credential and a URL the parser accepts, [request] goes on to
    the query parameters. *)
Lemma request_reaches_query (endpoint method : jsstring)
    (data queryParams : JsVal) (w : World) (key : jsstring)
    (q0 : list (jsstring * jsstring)) :
  apiKey (this w) = Some key -> key <> [] ->
  URL_parse (baseUrl (this w) ++ endpoint) = Some q0 ->
  Grocy.request endpoint method data queryParams w
  = (url <- lift (Grocy.with_query (mkURL (baseUrl (this w) ++ endpoint) q0)
                    queryParams) ;;
     try_catch
       (response <- Grocy.await_fetch url (Grocy.request_options key method data) ;;
        Grocy.normalize_response response)
       (fun error => throw (Grocy.request_failed error))) w.
Proof.
  intros Hk Hne Hu. apply truthy_JStr in Hne.
  unfold Grocy.request, get_this, new_URL, lift.
  unfold bind at 1. rewrite Hk. cbn [key_value]. rewrite Hne. cbn [negb].
  unfold bind at 1. rewrite Hu. reflexivity.
Qed.

(** A query parameter that cannot be converted ends [request] with the
    conversion's own error, before the transport. *)
Lemma request_query_failure (endpoint method : jsstring)
    (data queryParams : JsVal) (w : World) (key : jsstring)
    (q0 : list (jsstring * jsstring)) (e : Error) :
  apiKey (this w) = Some key -> key <> [] ->
  URL_parse (baseUrl (this w) ++ endpoint) = Some q0 ->
  Grocy.with_query (mkURL (baseUrl (this w) ++ endpoint) q0) queryParams = Throw e ->
  Grocy.request endpoint method data queryParams w = (Throw e, w).
Proof.
  intros Hk Hne Hu Hq.
  rewrite (request_reaches_query _ _ _ _ _ _ _ Hk Hne Hu).
  unfold bind, lift. now rewrite Hq.
Qed.

(** With the query parameters added, [request] is the guarded transport
    call on the extended URL. *)
Lemma request_reaches_transport (endpoint method : jsstring)
    (data queryParams : JsVal) (w : World) (key : jsstring)
    (q0 : list (jsstring * jsstring)) (url : URL) :
  apiKey (this w) = Some key -> key <> [] ->
  URL_parse (baseUrl (this w) ++ endpoint) = Some q0 ->
  Grocy.with_query (mkURL (baseUrl (this w) ++ endpoint) q0) queryParams = Return url ->
  Grocy.request endpoint method data queryParams w
  = try_catch
      (response <- Grocy.await_fetch url (Grocy.request_options key method data) ;;
       Grocy.normalize_response response)
      (fun error => throw (Grocy.request_failed error)) w.
Proof.
  intros Hk Hne Hu Hq.
  rewrite (request_reaches_query _ _ _ _ _ _ _ Hk Hne Hu).
  unfold bind at 1, lift. now rewrite Hq.
Qed.

(** Exactly one call is recorded, whatever the transport answers. *)
Lemma request_call_recorded (endpoint method : jsstring)
    (data queryParams : JsVal) (w : World) (key : jsstring)
    (q0 : list (jsstring * jsstring)) (url : URL) :
  apiKey (this w) = Some key -> key <> [] ->
  URL_parse (baseUrl (this w) ++ endpoint) = Some q0 ->
  Grocy.with_query (mkURL (baseUrl (this w) ++ endpoint) q0) queryParams = Return url ->
  snd (Grocy.request endpoint method data queryParams w)
  = mkWorld (this w)
      (fetched w ++ [(url, Grocy.request_options key method data)]).
Proof.
  intros Hk Hne Hu Hq.
  rewrite (request_reaches_transport _ _ _ _ _ _ _ _ Hk Hne Hu Hq).
  unfold try_catch, bind, Grocy.await_fetch.
  destruct (fetch _ _) as [r|e]; [|reflexivity].
  match goal with
  | |- context [Grocy.normalize_response r ?w1] =>
      pose proof (normalize_response_inert r w1) as Hi;
      destruct (Grocy.normalize_response r w1) as [[v|e] w2]
  end; simpl in Hi; subst; reflexivity.
Qed.

(** When the transport resolves with [r], the outcome of [request] is the
    normaliser's on [r], a failure being re-thrown with the fixed prefix. *)
Lemma request_resolved (endpoint method : jsstring) (data queryParams : JsVal)
    (w : World) (r : Response) :
  transport_replies w endpoint method data queryParams (Resolved r) ->
  exists call,
    Grocy.request endpoint method data queryParams w
    = try_catch (Grocy.normalize_response r)
        (fun error => throw (Grocy.request_failed error))
        (mkWorld (this w) (fetched w ++ [call])).
Proof.
  intros (key & q0 & url & Hk & Hne & Hu & Hq & Hf).
  eexists.
  rewrite (request_reaches_transport _ _ _ _ _ _ _ _ Hk Hne Hu Hq).
  unfold try_catch at 1, bind at 1, Grocy.await_fetch. rewrite Hf.
  reflexivity.
Qed.

(** C2: when the transport resolves with a response of status 204,
    [request] returns [{ success: true }], whatever the content-type header
    is and whatever the body readers would do, and one call was recorded. *)
Theorem no_content_is_success (endpoint method : jsstring)
    (data queryParams : JsVal) (w : World) (r : Response) :
  transport_replies w endpoint method data queryParams (Resolved r) ->
  status r = 204%Z ->
  exists call,
    Grocy.request endpoint method data queryParams w
    = (Return (Plain success_true), mkWorld (this w) (fetched w ++ [call])).
Proof.
  intros H Hs. destruct (request_resolved _ _ _ _ _ _ H) as [call ->].
  exists call. unfold try_catch, Grocy.normalize_response.
  now rewrite Hs.
Qed.

(** C3 (amended): when the response has a status other than 204, a
    content-type that contains application/json and is not ok, and its body
    reads as a value whose error_message property is [field] ([undefined]
    when the body has none), [request] throws the fixed prefix followed by:
    the generic "HTTP error! status: code" message if [field] is not truthy;
    the string form of [field] if [field] is truthy and has one; and the
    message of the conversion's TypeError, "Cannot convert object to
    primitive value", if [field] is truthy and has no string form (an
    object with an own property toString, or a sequence that holds one). *)
Theorem json_failure_message (endpoint method : jsstring)
    (data queryParams : JsVal) (w : World) (r : Response) (body field : JsVal) :
  transport_replies w endpoint method data queryParams (Resolved r) ->
  status r <> 204%Z ->
  Grocy.declares (content_type r) (js "application/json") = true ->
  ok r = false ->
  json r = Return body ->
  get_property body (js "error_message") = Return field ->
  (truthy field = false ->
   fst (Grocy.request endpoint method data queryParams w)
   = Throw (mkError (js "Grocy API request failed: HTTP error! status: "
                       ++ Z_toString (status r))))
  /\ (forall s, truthy field = true -> ToString field = Return s ->
      fst (Grocy.request endpoint method data queryParams w)
      = Throw (mkError (js "Grocy API request failed: " ++ s)))
  /\ (truthy field = true -> ~ has_string_form field ->
      fst (Grocy.request endpoint method data queryParams w)
      = Throw (mkError (js "Grocy API request failed: Cannot convert object to primitive value"))).
Proof.
  intros H Hs Hct Hok Hj Hf. destruct (request_resolved _ _ _ _ _ _ H) as [call ->].
  apply Z.eqb_neq in Hs.
  unfold try_catch, Grocy.normalize_response, bind, lift, throw.
  rewrite Hs, Hct, Hj, Hok. cbn [negb]. rewrite Hf.
  unfold Grocy.request_failed, Grocy.http_error, new_Error.
  split; [|split].
  - intros Ht. rewrite Ht. reflexivity.
  - intros s Ht E. rewrite Ht, E. reflexivity.
  - intros Ht N. rewrite Ht.
    destruct (no_string_form _ N) as [e' E]. rewrite E.
    now rewrite (ToString_throws _ _ E).
Qed.

(** C5 (amended): when the response has a status other than 204 and a
    content-type that contains text/calendar and does not contain
    application/json, and its body reads as text, [request] returns exactly
    [{ calendar: text }], whether or not the status is a successful one. *)
Theorem calendar_is_wrapped (endpoint method : jsstring)
    (data queryParams : JsVal) (w : World) (r : Response) (body : jsstring) :
  transport_replies w endpoint method data queryParams (Resolved r) ->
  status r <> 204%Z ->
  Grocy.declares (content_type r) (js "application/json") = false ->
  Grocy.declares (content_type r) (js "text/calendar") = true ->
  text r = Return body ->
  fst (Grocy.request endpoint method data queryParams w)
  = Return (Plain (JObj [(js "calendar", JStr body)])).
Proof.
  intros H Hs Hj Hc Ht. destruct (request_resolved _ _ _ _ _ _ H) as [call ->].
  apply Z.eqb_neq in Hs.
  unfold try_catch, Grocy.normalize_response, bind, lift, ret.
  now rewrite Hs, Hj, Hc, Ht.
Qed.

End Dispatch.

Lemma test_world_replies (reply : FetchResult) (endpoint method : jsstring)
    (data queryParams : JsVal) (url : URL) :
  startsWith (js "https://grocy.example.com/api" ++ endpoint) (js "https://") = true ->
  Grocy.with_query (rt := host reply)
    (mkURL (js "https://grocy.example.com/api" ++ endpoint) []) queryParams
  = Return url ->
  transport_replies (rt := host reply) test_world endpoint method data queryParams reply.
Proof.
  intros H Hq. exists (js "test-api-key"), [], url.
  split; [reflexivity|]. split; [discriminate|].
  split; [|split; [exact Hq | reflexivity]].
  cbv beta iota delta [URL_parse host test_world this baseUrl].
  now rewrite H.
Defined.

Lemma no_content_is_success_witness :
  exists call,
    Grocy.request (rt := host (Resolved no_content_json))
      (js "/stock") (js "GET") JNull (JObj []) test_world
    = (Return (Plain success_true),
       mkWorld (this test_world) (fetched test_world ++ [call])).
Proof.
  apply (no_content_is_success (rt := host (Resolved no_content_json))
           (js "/stock") (js "GET") JNull (JObj []) test_world no_content_json).
  - eapply test_world_replies; reflexivity.
  - reflexivity.
Defined.

(** The two failures of the specification's example: a body with an
    error_message, and an empty object; and a body whose error_message has
    no string form. *)
Lemma json_failure_message_witness :
  fst (Grocy.request
         (rt := host (Resolved (bad_request (JObj [(js "error_message", JStr (js "Bad request"))]))))
         (js "/stock") (js "GET") JNull (JObj []) test_world)
  = Throw (mkError (js "Grocy API request failed: Bad request"))
  /\ fst (Grocy.request (rt := host (Resolved (bad_request (JObj []))))
            (js "/stock") (js "GET") JNull (JObj []) test_world)
  = Throw (mkError (js "Grocy API request failed: HTTP error! status: 400"))
  /\ fst (Grocy.request
            (rt := host (Resolved (bad_request
                     (JObj [(js "error_message", JObj [(js "toString", JNum (Fin 1))])]))))
            (js "/stock") (js "GET") JNull (JObj []) test_world)
  = Throw (mkError (js "Grocy API request failed: Cannot convert object to primitive value")).
Proof.
  split; [|split].
  - refine (proj1 (proj2 (json_failure_message
              (rt := host (Resolved (bad_request (JObj [(js "error_message", JStr (js "Bad request"))]))))
              (js "/stock") (js "GET") JNull (JObj []) test_world
              (bad_request (JObj [(js "error_message", JStr (js "Bad request"))]))
              (JObj [(js "error_message", JStr (js "Bad request"))]) (JStr (js "Bad request"))
              _ _ _ _ _ _)) (js "Bad request") _ _);
      try reflexivity; [eapply test_world_replies; reflexivity | discriminate].
  - refine (proj1 (json_failure_message (rt := host (Resolved (bad_request (JObj []))))
              (js "/stock") (js "GET") JNull (JObj []) test_world
              (bad_request (JObj [])) (JObj []) JUndefined _ _ _ _ _ _) _);
      try reflexivity; [eapply test_world_replies; reflexivity | discriminate].
  - refine (proj2 (proj2 (json_failure_message
              (rt := host (Resolved (bad_request
                       (JObj [(js "error_message", JObj [(js "toString", JNum (Fin 1))])]))))
              (js "/stock") (js "GET") JNull (JObj []) test_world
              (bad_request (JObj [(js "error_message", JObj [(js "toString", JNum (Fin 1))])]))
              (JObj [(js "error_message", JObj [(js "toString", JNum (Fin 1))])])
              (JObj [(js "toString", JNum (Fin 1))])
              _ _ _ _ _ _)) _ _);
      try reflexivity;
      [eapply test_world_replies; reflexivity | discriminate
      | intros [s Hs]; discriminate Hs].
Defined.

(** C3 as stated fails: an error_message that is present and empty is not
    what follows the prefix, the generic message is; and when the body does
    not parse, what follows the prefix is the parser's message. *)
Lemma empty_error_message_is_ignored :
  status (bad_request (JObj [(js "error_message", JStr [])])) <> 204%Z
  /\ ok (bad_request (JObj [(js "error_message", JStr [])])) = false
  /\ get_property (JObj [(js "error_message", JStr [])]) (js "error_message")
     = Return (JStr [])
  /\ fst (Grocy.request
            (rt := host (Resolved (bad_request (JObj [(js "error_message", JStr [])]))))
            (js "/stock") (js "GET") JNull (JObj []) test_world)
     = Throw (mkError (js "Grocy API request failed: HTTP error! status: 400"))
  /\ fst (Grocy.request
            (rt := host (Resolved (bad_request (JObj [(js "error_message", JStr [])]))))
            (js "/stock") (js "GET") JNull (JObj []) test_world)
     <> Throw (mkError (js "Grocy API request failed: " ++ []))
  /\ fst (Grocy.request (rt := host (Resolved bad_gateway_html))
            (js "/stock") (js "GET") JNull (JObj []) test_world)
     = Throw (mkError (js "Grocy API request failed: Unexpected token < in JSON at position 0")).
Proof.
  split; [discriminate|]. split; [reflexivity|]. split; [reflexivity|].
  split; [vm_compute; reflexivity|].
  split; [vm_compute; discriminate|].
  vm_compute; reflexivity.
Qed.

Lemma calendar_is_wrapped_witness :
  fst (Grocy.request (rt := host (Resolved failing_calendar))
         (js "/calendar/ical") (js "GET") JNull (JObj []) test_world)
  = Return (Plain (JObj [(js "calendar", JStr (js "BEGIN:VCALENDAR"))])).
Proof.
  refine (calendar_is_wrapped (rt := host (Resolved failing_calendar))
            (js "/calendar/ical") (js "GET") JNull (JObj []) test_world
            failing_calendar (js "BEGIN:VCALENDAR") _ _ _ _ _);
    try reflexivity; [eapply test_world_replies; reflexivity | discriminate].
Defined.

(** C5 as stated fails: with status 204 a response that carries calendar
    text yields [{ success: true }], not the calendar wrapper; and a
    content-type that also contains application/json yields the parsed
    body. *)
Lemma no_content_calendar_is_not_wrapped :
  Grocy.declares (content_type no_content_calendar) (js "text/calendar") = true
  /\ text no_content_calendar = Return (js "BEGIN:VCALENDAR")
  /\ fst (Grocy.request (rt := host (Resolved no_content_calendar))
            (js "/calendar/ical") (js "GET") JNull (JObj []) test_world)
     = Return (Plain success_true)
  /\ fst (Grocy.request (rt := host (Resolved no_content_calendar))
            (js "/calendar/ical") (js "GET") JNull (JObj []) test_world)
     <> Return (Plain (JObj [(js "calendar", JStr (js "BEGIN:VCALENDAR"))]))
  /\ Grocy.declares (content_type json_and_calendar) (js "text/calendar") = true
  /\ fst (Grocy.request (rt := host (Resolved json_and_calendar))
            (js "/calendar/ical") (js "GET") JNull (JObj []) test_world)
     = Return (Plain (JObj [])).
Proof.
  split; [reflexivity|]. split; [reflexivity|].
  split; [vm_compute; reflexivity|].
  split; [vm_compute; discriminate|].
  split; vm_compute; reflexivity.
Qed.

(** ** Query parameters *)


(** A string without surrogates is its own scalar-value string. *)
Lemma USVString_plain (s : jsstring) :
  forallb (fun c => negb (is_high_surrogate c) && negb (is_low_surrogate c)) s = true ->
  USVString s = s.
Proof.
  induction s as [|c s IH]; [reflexivity|].
  intros H. cbn [forallb] in H.
  apply andb_true_iff in H as [Hc Hs]. apply andb_true_iff in Hc as [Hh Hl].
  apply negb_true_iff in Hh. apply negb_true_iff in Hl.
  cbn [USVString]. rewrite Hh, Hl. now rewrite IH.
Qed.



Section QueryParameters.
Context {rt : Runtime}.

(** The [forEach] over the elements of a sequence value. *)
Lemma append_elements (name : jsstring) (elems : list JsVal) (url : URL) :
  Forall has_string_form elems ->
  for_each (fun u v => URLSearchParams_append name v u) elems url
  = Return (mkURL (url_source url)
              (searchParams url
               ++ List.map (fun v => (USVString name, USVString (string_form v))) elems)).
Proof.
  intros H. revert url. induction H as [|v elems [s Hv] _ IH]; intros url; cbn [for_each].
  - cbn [List.map]. rewrite app_nil_r. now destruct url.
  - unfold URLSearchParams_append at 1. rewrite Hv. cbn [and_then].
    rewrite IH. cbn [url_source searchParams List.map].
    rewrite (string_form_eq _ _ Hv). now rewrite <- app_assoc.
Qed.

(** It ends well only if every element has a string form. *)
Lemma append_elements_inv (name : jsstring) (elems : list JsVal) (url url' : URL) :
  for_each (fun u v => URLSearchParams_append name v u) elems url = Return url' ->
  Forall has_string_form elems.
Proof.
  revert url. induction elems as [|v elems IH]; intros url H; constructor.
  - cbn [for_each] in H. unfold URLSearchParams_append at 1 in H.
    destruct (ToString v) as [s|e] eqn:E; [now exists s | discriminate].
  - cbn [for_each] in H.
    destruct (URLSearchParams_append name v url) as [u|e]; [|discriminate].
    cbn [and_then] in H. now apply IH in H.
Qed.

(** One step of the [forEach] over the entries adds the pairs the
    specification assigns to the entry. *)
Lemma append_entry_pairs (url : URL) (entry : jsstring * JsVal) :
  appendable (snd entry) ->
  Grocy.append_entry url entry
  = Return (mkURL (url_source url) (searchParams url ++ entry_pairs entry)).
Proof.
  destruct entry as [k v]. cbn [snd]. intros H.
  unfold Grocy.append_entry, entry_pairs.
  destruct v as [| |b|n|s|l|o];
    cbn [Array_isArray is_undefined is_null negb andb fst snd];
    try (rewrite app_nil_r; now destruct url);
    try (now apply append_elements);
    destruct H as [s' Hs'];
    match type of Hs' with
    | ToString ?v = _ =>
        rewrite (proj2 (toString_method_form v s' eq_refl eq_refl) Hs')
    end;
    cbn [and_then]; unfold URLSearchParams_append; cbn [ToString and_then];
    now rewrite (string_form_eq _ _ Hs').
Qed.

Lemma append_entry_inv (url url' : URL) (entry : jsstring * JsVal) :
  Grocy.append_entry url entry = Return url' -> appendable (snd entry).
Proof.
  destruct entry as [k v]. cbn [snd]. unfold Grocy.append_entry.
  destruct v as [| |[|]|n|s|l|o];
    cbn [Array_isArray is_undefined is_null negb andb appendable];
    try (intros _; eexists; reflexivity).
  - apply append_elements_inv.
  - destruct (toString_method (JObj o)) as [s|e] eqn:E; [|discriminate].
    intros _. exists s. now apply toString_method_form in E.
Qed.

Lemma append_entries_pairs (entries : list (jsstring * JsVal)) (url : URL) :
  Forall (fun kv => appendable (snd kv)) entries ->
  for_each Grocy.append_entry entries url
  = Return (mkURL (url_source url) (searchParams url ++ flat_map entry_pairs entries)).
Proof.
  intros H. revert url. induction H as [|entry entries He _ IH]; intros url; cbn [for_each].
  - cbn [flat_map]. rewrite app_nil_r. now destruct url.
  - rewrite (append_entry_pairs _ _ He). cbn [and_then].
    rewrite IH. cbn [url_source searchParams flat_map]. now rewrite <- app_assoc.
Qed.

Lemma append_entries_inv (entries : list (jsstring * JsVal)) (url url' : URL) :
  for_each Grocy.append_entry entries url = Return url' ->
  Forall (fun kv => appendable (snd kv)) entries.
Proof.
  revert url. induction entries as [|entry entries IH]; intros url H; constructor;
    cbn [for_each] in H;
    destruct (Grocy.append_entry url entry) as [u|e] eqn:E; try discriminate.
  - now apply append_entry_inv in E.
  - cbn [and_then] in H. now apply IH in H.
Qed.



(** The entries that [request] walks through. *)
Lemma with_query_entries (url : URL) (queryParams : JsVal) :
  Grocy.with_query url queryParams
  = for_each Grocy.append_entry
      (if truthy queryParams then Object_entries queryParams else []) url.
Proof.
  unfold Grocy.with_query, Object_keys. rewrite length_map.
  destruct (truthy queryParams); [|reflexivity].
  cbn [andb]. now destruct (Object_entries queryParams).
Qed.

(** The query of the dispatched URL, whatever the query parameters are. *)
Lemma with_query_returns (url url' : URL) (queryParams : JsVal) :
  Grocy.with_query url queryParams = Return url' ->
  url' = mkURL (url_source url)
           (searchParams url
            ++ flat_map entry_pairs
                 (if truthy queryParams then Object_entries queryParams else [])).
Proof.
  rewrite with_query_entries. intros H.
  pose proof (append_entries_inv _ _ _ H) as Hall.
  rewrite (append_entries_pairs _ _ Hall) in H. now injection H as <-.
Qed.

(** The query of the dispatched URL, for a mapping given by its entries. *)
Lemma with_query_object (url : URL) (entries : list (jsstring * JsVal)) :
  Forall (fun kv => appendable (snd kv)) entries ->
  Grocy.with_query url (JObj entries)
  = Return (mkURL (url_source url) (searchParams url ++ flat_map entry_pairs entries)).
Proof.
  intros H. rewrite with_query_entries. cbn [truthy Object_entries].
  now apply append_entries_pairs.
Qed.


(** The query parameters that yield a URL. *)
Lemma with_query_appendable (url : URL) (queryParams : JsVal) :
  appendable_query queryParams <->
  exists url', Grocy.with_query url queryParams = Return url'.
Proof.
  rewrite with_query_entries. unfold appendable_query. split.
  - intros H. eexists. now apply append_entries_pairs.
  - intros [url' H]. now apply append_entries_inv in H.
Qed.

(** The two TypeErrors that can end the walk through the query
    parameters. *)
Lemma with_query_throws (url : URL) (queryParams : JsVal) (e : Error) :
  Grocy.with_query url queryParams = Throw e ->
  e = not_primitive \/ e = mkError (js "value.toString is not a function").
Proof.
  rewrite with_query_entries.
  generalize (if truthy queryParams then Object_entries queryParams else []).
  intros entries. revert url.
  induction entries as [|[k v] entries IH]; intros url H; [discriminate|].
  cbn [for_each] in H.
  destruct (Grocy.append_entry url (k, v)) as [u|e'] eqn:E; cbn [and_then] in H;
    [now apply IH in H|].
  injection H as <-. clear IH. unfold Grocy.append_entry in E.
  destruct (Array_isArray v) eqn:Ea.
  - left. destruct v as [| |b|n|s|l|o]; try discriminate. clear Ea.
    revert url E. induction l as [|x l IHl]; intros url E; [discriminate|].
    cbn [for_each] in E. unfold URLSearchParams_append at 1 in E.
    destruct (ToString x) as [sx|ex] eqn:Ex; cbn [and_then] in E.
    + now apply IHl in E.
    + injection E as <-. now apply ToString_throws in Ex.
  - destruct v as [| |[|]|n|s|l|o]; try discriminate.
    cbn [is_undefined is_null negb andb toString_method] in E.
    destruct (has_own o (js "toString")); [|discriminate].
    right. cbn [and_then] in E. now injection E as <-.
Qed.


(** C10 (amended): the skipping of null and undefined applies to the values
    of the mapping, not to the elements of a sequence value: for an entry
    [k: elems] anywhere in a mapping whose values can be appended, the
    elements of [elems] included, the dispatched URL carries one [k[]] pair
    per element, in order, each with the string form of the element, which
    is "null" for null and "undefined" for undefined; so [n] elements give
    exactly [n] such pairs. *)
Theorem sequence_elements_all_appended (endpoint method : jsstring) (data : JsVal)
    (before after : list (jsstring * JsVal)) (k : jsstring) (elems : list JsVal)
    (w : World) (key : jsstring) (q0 : list (jsstring * jsstring)) :
  apiKey (this w) = Some key -> key <> [] ->
  URL_parse (baseUrl (this w) ++ endpoint) = Some q0 ->
  Forall (fun kv => appendable (snd kv)) before ->
  Forall has_string_form elems ->
  Forall (fun kv => appendable (snd kv)) after ->
  exists url options,
    fetched (snd (Grocy.request endpoint method data
                    (JObj (before ++ (k, JArr elems) :: after)) w))
    = fetched w ++ [(url, options)]
    /\ searchParams url
       = q0 ++ flat_map entry_pairs before
            ++ List.map (fun v => (USVString (k ++ js "[]"), USVString (string_form v))) elems
            ++ flat_map entry_pairs after
    /\ List.length
         (List.map (fun v => (USVString (k ++ js "[]"), USVString (string_form v))) elems)
       = List.length elems
    /\ ToString JNull = Return (js "null")
    /\ ToString JUndefined = Return (js "undefined").
Proof.
  intros Hk Hne Hu Hb He Ha.
  assert (Hall : Forall (fun kv => appendable (snd kv)) (before ++ (k, JArr elems) :: after)).
  { apply Forall_app. split; [assumption|]. constructor; assumption. }
  eexists. eexists. split; [|split; [|split; [|split]]].
  - rewrite (request_call_recorded _ _ _ _ _ _ _ _ Hk Hne Hu (with_query_object _ _ Hall)).
    reflexivity.
  - cbn [searchParams]. rewrite flat_map_app. cbn [flat_map]. reflexivity.
  - apply length_map.
  - reflexivity.
  - reflexivity.
Qed.

End QueryParameters.



Lemma sequence_elements_all_appended_witness :
  exists url options,
    fetched (snd (Grocy.request (rt := quiet_host) (js "/stock") (js "GET") JNull
                    (JObj ([] ++ (js "k", JArr [JNum (Fin 1); JNull; JUndefined]) :: []))
                    test_world))
    = fetched test_world ++ [(url, options)]
    /\ searchParams url
       = [(js "k[]", js "1"); (js "k[]", js "null"); (js "k[]", js "undefined")].
Proof.
  assert (K : js "test-api-key" <> []) by discriminate.
  assert (E : Forall (has_string_form (rt := quiet_host)) [JNum (Fin 1); JNull; JUndefined])
    by (repeat (apply Forall_cons || apply Forall_nil); eexists; reflexivity).
  destruct (sequence_elements_all_appended (rt := quiet_host) (js "/stock") (js "GET")
              JNull [] [] (js "k") [JNum (Fin 1); JNull; JUndefined]
              test_world (js "test-api-key") [] eq_refl K eq_refl
              (Forall_nil _) E (Forall_nil _))
    as (url & options & H1 & H2 & _).
  exists url, options. split; [exact H1 | exact H2].
Defined.

(** C10 as stated fails: a sequence of two elements, the second an object
    with an own property [toString], gives no [k[]] pair at all: the URL
    layer cannot convert the element, [request] throws, and nothing is
    dispatched. *)
Lemma unconvertible_element_is_not_appended :
  List.length [JNum (Fin 1); JObj [(js "toString", JNum (Fin 1))]] = 2%nat
  /\ apiKey (this test_world) = Some (js "test-api-key")
  /\ Grocy.request (rt := quiet_host) (js "/stock") (js "GET") JNull
       (JObj [(js "k", JArr [JNum (Fin 1); JObj [(js "toString", JNum (Fin 1))]])])
       test_world
     = (Throw (mkError (js "Cannot convert object to primitive value")), test_world)
  /\ fetched test_world = [].
Proof.
  split; [reflexivity|]. split; [reflexivity|].
  split; [vm_compute; reflexivity | reflexivity].
Qed.

(** ** File operations *)

(** A path segment validated with [sanitize: false] is the argument
    itself. *)
Lemma path_segment_exact (v : JsVal) (fieldName s : jsstring) (n : Z) :
  validateString v fieldName (Grocy.path_options n) = Return s -> v = JStr s.
Proof.
  destruct v as [| |b|m|s0|l|o]; try (vm_compute; discriminate).
  rewrite validateString_string. cbv zeta.
  cbn [Grocy.path_options opt_required opt_minLength opt_maxLength opt_sanitize
       with_default negb andb].
  repeat match goal with
         | |- context [if ?b then _ else _] => destruct b
         end; try discriminate.
  intros H. now injection H as <-.
Qed.

(** A path segment validated with the default options is the escaped form
    of the argument. *)
Lemma path_segment_escaped (v : JsVal) (fieldName s : jsstring) (n : Z) :
  validateString v fieldName (Grocy.upload_options n) = Return s ->
  exists s0, v = JStr s0 /\ s = validator_escape s0.
Proof.
  destruct v as [| |b|m|s0|l|o]; try (vm_compute; discriminate).
  rewrite validateString_string. cbv zeta.
  cbn [Grocy.upload_options opt_required opt_minLength opt_maxLength opt_sanitize
       with_default negb andb].
  repeat match goal with
         | |- context [if ?b then _ else _] => destruct b
         end; try discriminate.
  intros H. injection H as <-. now exists s0.
Qed.

Section FileOperations.
Context {rt : Runtime}.

Lemma not_extended {A : Type} (l : list A) (a : A) : l <> l ++ [a].
Proof.
  intros E. apply (f_equal (@List.length A)) in E.
  rewrite length_app in E. simpl in E. lia.
Qed.

(** Adding query parameters leaves the rest of the URL alone. *)
Lemma with_query_source (url url' : URL) (queryParams : JsVal) :
  Grocy.with_query url queryParams = Return url' ->
  url_source url' = url_source url.
Proof.
  intros H. now rewrite (with_query_returns _ _ _ H).
Qed.

(** A call recorded by [request] went to the base endpoint followed by the
    endpoint path. *)
Lemma request_recorded_source (endpoint method : jsstring) (data queryParams : JsVal)
    (w : World) (url : URL) (options : RequestInit) :
  fetched (snd (Grocy.request endpoint method data queryParams w))
  = fetched w ++ [(url, options)] ->
  url_source url = baseUrl (this w) ++ endpoint.
Proof.
  intros H.
  destruct (truthy (key_value (apiKey (this w)))) eqn:Et.
  2:{ rewrite (request_without_key _ _ _ _ _ Et) in H. now elim (not_extended _ _ H). }
  destruct (apiKey (this w)) as [key|] eqn:Ek; [|discriminate].
  apply truthy_JStr in Et.
  destruct (URL_parse (baseUrl (this w) ++ endpoint)) as [q0|] eqn:Eu.
  - destruct (Grocy.with_query (mkURL (baseUrl (this w) ++ endpoint) q0) queryParams)
      as [url'|e] eqn:Eq.
    + rewrite (request_call_recorded _ _ _ _ _ key q0 url' Ek Et Eu Eq) in H.
      cbn [fetched] in H. apply app_inv_head in H. injection H as <- _.
      now rewrite (with_query_source _ _ _ Eq).
    + rewrite (request_query_failure _ _ _ _ _ key q0 e Ek Et Eu Eq) in H.
      now elim (not_extended _ _ H).
  - apply truthy_JStr in Et.
    unfold Grocy.request, get_this, new_URL, lift in H.
    unfold bind at 1 in H. rewrite Ek in H. cbn [key_value] in H.
    rewrite Et in H. cbn [negb] in H.
    unfold bind at 1 in H. rewrite Eu in H. now elim (not_extended _ _ H).
Qed.

(** [deleteFile] builds its URL from the caller's exact group and file
    name. *)
Lemma deleteFile_exact_path (group fileName : JsVal) (w : World)
    (url : URL) (options : RequestInit) :
  fetched (snd (Grocy.deleteFile group fileName w)) = fetched w ++ [(url, options)] ->
  exists g f,
    group = JStr g /\ fileName = JStr f
    /\ url_source url = baseUrl (this w) ++ js "/files/" ++ g ++ js "/" ++ f.
Proof.
  intros H.
  unfold Grocy.deleteFile, lift in H. unfold bind at 1 in H.
  destruct (validateString group _ _) as [g|e] eqn:Eg; [|now elim (not_extended _ _ H)].
  unfold bind at 1 in H.
  destruct (validateString fileName _ _) as [f|e] eqn:Ef; [|now elim (not_extended _ _ H)].
  apply path_segment_exact in Eg. apply path_segment_exact in Ef.
  exists g, f. split; [assumption|]. split; [assumption|].
  now apply request_recorded_source in H.
Qed.

(** So does [getFile]. *)
Lemma getFile_exact_path (group fileName options : JsVal) (w : World)
    (url : URL) (init : RequestInit) :
  fetched (snd (Grocy.getFile group fileName options w)) = fetched w ++ [(url, init)] ->
  exists g f,
    group = JStr g /\ fileName = JStr f
    /\ url_source url = baseUrl (this w) ++ js "/files/" ++ g ++ js "/" ++ f.
Proof.
  intros H.
  unfold Grocy.getFile, lift in H. unfold bind at 1 in H.
  destruct (validateString group _ _) as [g|e] eqn:Eg; [|now elim (not_extended _ _ H)].
  unfold bind at 1 in H.
  destruct (validateString fileName _ _) as [f|e] eqn:Ef; [|now elim (not_extended _ _ H)].
  unfold bind at 1 in H.
  destruct (get_property _ _) as [served|e]; [|now elim (not_extended _ _ H)].
  unfold bind at 1 in H.
  destruct (validateOptionalString _ _ _) as [k|e]; [|now elim (not_extended _ _ H)].
  apply path_segment_exact in Eg. apply path_segment_exact in Ef.
  exists g, f. split; [assumption|]. split; [assumption|].
  now apply request_recorded_source in H.
Qed.

(** [uploadFile] builds its URL from the escaped group and file name. *)
Lemma uploadFile_escaped_path (group fileName fileData : JsVal) (w : World)
    (url : URL) (options : RequestInit) :
  fetched (snd (Grocy.uploadFile group fileName fileData w))
  = fetched w ++ [(url, options)] ->
  exists g f,
    group = JStr g /\ fileName = JStr f
    /\ url_source url
       = baseUrl (this w) ++ js "/files/" ++ validator_escape g
                          ++ js "/" ++ validator_escape f.
Proof.
  intros H.
  unfold Grocy.uploadFile, lift in H. unfold bind at 1 in H.
  destruct (validateString group _ _) as [g'|e] eqn:Eg; [|now elim (not_extended _ _ H)].
  unfold bind at 1 in H.
  destruct (validateString fileName _ _) as [f'|e] eqn:Ef; [|now elim (not_extended _ _ H)].
  apply path_segment_escaped in Eg as (g & -> & ->).
  apply path_segment_escaped in Ef as (f & -> & ->).
  exists g, f. split; [reflexivity|]. split; [reflexivity|].
  destruct (negb (truthy fileData)); [now elim (not_extended _ _ H)|].
  unfold get_this in H. unfold bind at 1 in H.
  destruct (negb (truthy (key_value (apiKey (this w))))); [now elim (not_extended _ _ H)|].
  unfold new_URL in H. unfold bind at 1 in H.
  destruct (URL_parse _) as [q0|]; [|now elim (not_extended _ _ H)].
  unfold try_catch, bind, Grocy.await_fetch, throw, ret in H.
  destruct (fetch _ _) as [r|e].
  - destruct (negb (ok r)).
    + destruct (json r) as [body|e].
      * destruct (get_property body _) as [field|e];
          [destruct (new_Error _) as [error|e]|];
          cbn [snd fetched] in H; apply app_inv_head in H; now injection H as <- _.
      * cbn [snd fetched] in H. apply app_inv_head in H. now injection H as <- _.
    + cbn [snd fetched] in H. apply app_inv_head in H. now injection H as <- _.
  - cbn [snd fetched] in H. apply app_inv_head in H. now injection H as <- _.
Qed.

End FileOperations.

(** C9: [getFile] and [deleteFile] hand the transport the caller's exact
    file name, and [uploadFile], on the same arguments, hands it the
    HTML-escaped one: the [/] of the name has become [&#x2F;]. *)
Theorem uploadFile_escapes_file_name :
  List.map (fun c => url_source (fst c))
    (fetched (snd (Grocy.getFile (rt := host (Resolved no_content))
                     (JStr (js "productpictures")) (JStr (js "YS9i/w==")) (JObj [])
                     test_world)))
  = [js "https://grocy.example.com/api/files/productpictures/YS9i/w=="]
  /\ List.map (fun c => url_source (fst c))
       (fetched (snd (Grocy.deleteFile (rt := host (Resolved no_content))
                        (JStr (js "productpictures")) (JStr (js "YS9i/w=="))
                        test_world)))
     = [js "https://grocy.example.com/api/files/productpictures/YS9i/w=="]
  /\ List.map (fun c => url_source (fst c))
       (fetched (snd (Grocy.uploadFile (rt := host (Resolved no_content))
                        (JStr (js "productpictures")) (JStr (js "YS9i/w=="))
                        test_file_data test_world)))
     = [js "https://grocy.example.com/api/files/productpictures/YS9i&#x2F;w=="].
Proof.
  split; [vm_compute; reflexivity|].
  split; vm_compute; reflexivity.
Qed.

(** * Further properties of the code *)

(** ** Identifiers *)

Lemma Number_isInteger_spec (v : JsVal) :
  Number_isInteger v = true <-> exists q, v = JNum (Fin q) /\ is_integer q.
Proof.
  destruct v as [| |b|n|s|l|o];
    try (split; [discriminate | intros (q & H & _); discriminate]).
  destruct n as [| | |q];
    try (split; [discriminate | intros (q & H & _); discriminate]).
  simpl. rewrite Z.eqb_eq, Z.mod_divide by discriminate.
  split.
  - intros [z Hz]. exists q. split; [reflexivity|]. exists z.
    unfold Qeq. simpl. lia.
  - intros (q' & H & z & Hz). injection H as <-.
    exists z. unfold Qeq in Hz. simpl in Hz. lia.
Qed.

Lemma not_positive_spec (q : Q) :
  not_positive (JNum (Fin q)) = false <-> (0 < q)%Q.
Proof.
  simpl. rewrite negb_false_iff, negb_true_iff.
  rewrite <- not_true_iff_false, Qle_bool_iff.
  split; [apply Qnot_le_lt | apply Qlt_not_le].
Qed.

(** X1: [validateId] returns its argument, unchanged, exactly when the
    argument is a number that is an integer greater than 0; it returns
    nothing else, and every other argument is rejected with the message
    "must be a positive integer" after the field name. *)
Theorem validateId_spec (value : JsVal) (fieldName : jsstring) :
  (validateId value fieldName = Return value <->
     exists q, value = JNum (Fin q) /\ is_integer q /\ (0 < q)%Q)
  /\ (forall v, validateId value fieldName = Return v -> v = value)
  /\ ((forall q, value = JNum (Fin q) -> is_integer q -> ~ (0 < q)%Q) ->
      validateId value fieldName
      = Throw (mkError (fieldName ++ js " must be a positive integer"))).
Proof.
  unfold validateId.
  destruct (Number_isInteger value) eqn:Ei; cbn [negb orb].
  - apply Number_isInteger_spec in Ei as (q & -> & Hq).
    destruct (not_positive (JNum (Fin q))) eqn:Ep.
    + split; [|split].
      * split; [discriminate|]. intros (q' & H & _ & Hpos). injection H as <-.
        apply not_positive_spec in Hpos. congruence.
      * discriminate.
      * reflexivity.
    + apply not_positive_spec in Ep. split; [|split].
      * split; [|reflexivity]. intros _. now exists q.
      * intros v H. now injection H as <-.
      * intros H. now elim (H q eq_refl Hq).
  - split; [|split].
    + split; [discriminate|]. intros (q & -> & Hq & _).
      assert (Number_isInteger (JNum (Fin q)) = true)
        by (apply Number_isInteger_spec; now exists q).
      congruence.
    + discriminate.
    + reflexivity.
Qed.

Lemma validateId_spec_witness :
  validateId (JNum (Fin 7)) (js "Product ID") = Return (JNum (Fin 7))
  /\ validateId (JNum (Fin (3 # 2))) (js "Product ID")
     = Throw (mkError (js "Product ID must be a positive integer")).
Proof.
  split.
  - apply (proj1 (validateId_spec (JNum (Fin 7)) (js "Product ID"))).
    exists 7. split; [reflexivity|]. split; [|reflexivity].
    exists 7%Z. reflexivity.
  - apply (proj2 (proj2 (validateId_spec (JNum (Fin (3 # 2))) (js "Product ID")))).
    intros q H [z Hz] _. injection H as <-.
    unfold Qeq in Hz. simpl in Hz. lia.
Defined.

(** ** Strings *)

Lemma trim_nil_of_falsy (s : jsstring) : truthy (JStr s) = false -> trim s = [].
Proof.
  intros H. destruct s; [reflexivity|discriminate].
Qed.

(** X2: for a required string ([required] omitted or true), [validateString]
    returns exactly when the argument is a string that is not blank and
    whose trimmed length lies between [minLength] (when given) and
    [maxLength] (255 when omitted); what it returns is the untrimmed
    argument, escaped unless [sanitize] is false.  A value that is neither a
    string nor null nor undefined is rejected as not a string; null,
    undefined and blank strings are rejected as required. *)
Theorem validateString_required_spec (value : JsVal) (fieldName : jsstring)
    (o : StringOptions) :
  with_default true (opt_required o) = true ->
  (forall r,
     validateString value fieldName o = Return r <->
     exists s, value = JStr s /\ trim s <> []
       /\ (forall mn, opt_minLength o = Some mn ->
             (mn <= Z.of_nat (List.length (trim s)))%Z)
       /\ (Z.of_nat (List.length (trim s)) <= with_default 255%Z (opt_maxLength o))%Z
       /\ r = if with_default true (opt_sanitize o) then validator_escape s else s)
  /\ ((forall s, value <> JStr s) -> value <> JNull -> value <> JUndefined ->
      validateString value fieldName o
      = Throw (mkError (fieldName ++ js " must be a string")))
  /\ (value = JNull \/ value = JUndefined \/ (exists s, value = JStr s /\ trim s = []) ->
      validateString value fieldName o
      = Throw (mkError (fieldName ++ js " is required and must be non-empty"))).
Proof.
  intros Hreq.
  assert (Hnullish : forall v, v = JNull \/ v = JUndefined ->
            validateString v fieldName o
            = Throw (mkError (fieldName ++ js " is required and must be non-empty"))).
  { intros v [-> | ->]; unfold validateString; cbn [is_null is_undefined negb andb];
      now rewrite Hreq. }
  split; [|split].
  - intros r. split.
    + intros H.
      destruct value as [| |b|n|s|l|o'];
        try (rewrite Hnullish in H by auto; discriminate);
        try (vm_compute in H; discriminate).
      rewrite validateString_string in H. cbv zeta in H. rewrite Hreq in H.
      cbn [andb negb] in H.
      destruct (truthy (JStr s)) eqn:Es; [|discriminate].
      destruct (truthy (JStr (trim s))) eqn:Et; [|discriminate].
      cbn [negb orb] in H.
      apply truthy_JStr in Et.
      exists s. split; [reflexivity|]. split; [assumption|].
      destruct (opt_minLength o) as [mn|].
      * destruct (Z.ltb _ mn) eqn:Emin; [discriminate|].
        destruct (Z.ltb _ _) eqn:Emax in H; [discriminate|].
        apply Z.ltb_ge in Emin. apply Z.ltb_ge in Emax.
        injection H as <-.
        split; [intros mn' E; now injection E as <-|]. now split.
      * destruct (Z.ltb _ _) eqn:Emax in H; [discriminate|].
        apply Z.ltb_ge in Emax. injection H as <-.
        split; [discriminate|]. now split.
    + intros (s & -> & Ht & Hmin & Hmax & ->).
      rewrite validateString_string. cbv zeta. rewrite Hreq.
      pose proof (trim_nonempty _ Ht) as Hs.
      apply truthy_JStr in Hs. apply truthy_JStr in Ht.
      rewrite Hs, Ht. cbn [andb negb orb].
      apply Z.ltb_ge in Hmax. rewrite Hmax.
      destruct (opt_minLength o) as [mn|]; [|reflexivity].
      specialize (Hmin mn eq_refl). apply Z.ltb_ge in Hmin. now rewrite Hmin.
  - intros Hs Hn Hu.
    destruct value as [| |b|n|s|l|o']; try congruence; try reflexivity;
      now elim (Hs s).
  - intros [H | [H | (s & -> & Ht)]]; [now apply Hnullish; left | now apply Hnullish; right |].
    rewrite validateString_string. cbv zeta. rewrite Hreq.
    assert (E : truthy (JStr (trim s)) = false) by now rewrite Ht.
    rewrite E. cbn [andb negb orb]. now rewrite orb_true_r.
Qed.

Lemma validateString_required_spec_witness :
  validateString (JStr (js "  a/b  ")) (js "Barcode") (Grocy.path_options 3)
  = Return (js "  a/b  ").
Proof.
  apply (proj1 (validateString_required_spec (JStr (js "  a/b  ")) (js "Barcode")
                  (Grocy.path_options 3) eq_refl) (js "  a/b  ")).
  exists (js "  a/b  ").
  split; [reflexivity|]. split; [vm_compute; discriminate|].
  split; [intros mn E; injection E as <-; vm_compute; discriminate|].
  split; [vm_compute; discriminate | reflexivity].
Defined.

(** X3: [validateOptionalString] never fails for want of a value, whatever
    [required] the caller passed: null and undefined give null, the empty
    string gives the empty string, and any other string is returned
    (escaped unless [sanitize] is false) exactly when its trimmed length
    lies within the bounds; so a blank string passes when no [minLength]
    above 0 is asked for. *)
Theorem validateOptionalString_spec (value : JsVal) (fieldName : jsstring)
    (o : StringOptions) (k : option jsstring) :
  validateOptionalString value fieldName o = Return k <->
  ((value = JNull \/ value = JUndefined) /\ k = None)
  \/ (value = JStr [] /\ k = Some [])
  \/ (exists s, value = JStr s /\ s <> []
        /\ (forall mn, opt_minLength o = Some mn ->
              (mn <= Z.of_nat (List.length (trim s)))%Z)
        /\ (Z.of_nat (List.length (trim s)) <= with_default 255%Z (opt_maxLength o))%Z
        /\ k = Some (if with_default true (opt_sanitize o)
                     then validator_escape s else s)).
Proof.
  unfold validateOptionalString.
  destruct value as [| |b|n|s|l|o']; cbn [is_null is_undefined orb].
  - split; [intros H; injection H as <-; left; split; [now right | reflexivity]|].
    intros [[_ ->] | [[H _] | (s & H & _)]]; [reflexivity | discriminate | discriminate].
  - split; [intros H; injection H as <-; left; split; [now left | reflexivity]|].
    intros [[_ ->] | [[H _] | (s & H & _)]]; [reflexivity | discriminate | discriminate].
  - split; [vm_compute; discriminate|].
    intros [[[H|H] _] | [[H _] | (s & H & _)]]; discriminate.
  - split; [vm_compute; discriminate|].
    intros [[[H|H] _] | [[H _] | (s & H & _)]]; discriminate.
  - rewrite validateString_string. cbv zeta.
    cbn [not_required opt_required opt_maxLength opt_minLength opt_sanitize
         with_default andb negb].
    destruct (truthy (JStr s)) eqn:Es; cbn [negb].
    + apply truthy_JStr in Es.
      split.
      * intros H. right. right. exists s. split; [reflexivity|]. split; [assumption|].
        destruct (opt_minLength o) as [mn|].
        -- destruct (Z.ltb _ mn) eqn:Emin; [discriminate|].
           destruct (Z.ltb _ _) eqn:Emax in H; [discriminate|].
           apply Z.ltb_ge in Emin. apply Z.ltb_ge in Emax. injection H as <-.
           split; [intros mn' E; now injection E as <-|]. now split.
        -- destruct (Z.ltb _ _) eqn:Emax in H; [discriminate|].
           apply Z.ltb_ge in Emax. injection H as <-.
           split; [discriminate|]. now split.
      * intros [[[H|H] _] | [[H _] | (s' & H & _ & Hmin & Hmax & ->)]];
          try discriminate; [injection H as ->; congruence|].
        injection H as <-. apply Z.ltb_ge in Hmax. rewrite Hmax.
        destruct (opt_minLength o) as [mn|]; [|reflexivity].
        specialize (Hmin mn eq_refl). apply Z.ltb_ge in Hmin. now rewrite Hmin.
    + assert (s = []) as -> by (destruct s; [reflexivity|discriminate]).
      split.
      * intros H. injection H as <-. right. left. now split.
      * intros [[[H|H] _] | [[_ ->] | (s' & H & Hs & _)]]; try discriminate;
          [reflexivity|]. injection H as <-. congruence.
  - split; [vm_compute; discriminate|].
    intros [[[H|H] _] | [[H _] | (s & H & _)]]; discriminate.
  - split; [vm_compute; discriminate|].
    intros [[[H|H] _] | [[H _] | (s & H & _)]]; discriminate.
Qed.

Lemma validateOptionalString_spec_witness :
  validateOptionalString (JStr (js "   ")) (js "Note")
    (mkStringOptions (Some true) (Some 500%Z) None (Some false))
  = Return (Some (js "   ")).
Proof.
  apply (proj2 (validateOptionalString_spec (JStr (js "   ")) (js "Note")
                  (mkStringOptions (Some true) (Some 500%Z) None (Some false))
                  (Some (js "   ")))).
  right. right. exists (js "   ").
  split; [reflexivity|]. split; [discriminate|].
  split; [discriminate|].
  split; [vm_compute; discriminate | reflexivity].
Defined.

(** ** Arrays *)

Lemma map_items_cons (f : JsVal -> jsstring -> Result JsVal) (fieldName : jsstring)
    (i : nat) (item : JsVal) (rest : list JsVal) :
  map_items f fieldName i (item :: rest)
  = match f item (item_label fieldName i) with
    | Throw e => Throw e
    | Return v =>
        match map_items f fieldName (S i) rest with
        | Throw e => Throw e
        | Return vs => Return (v :: vs)
        end
    end.
Proof. reflexivity. Qed.

(** The items from position [i] on validate, one by one, to [vs]. *)
Lemma map_items_returns (f : JsVal -> jsstring -> Result JsVal) (fieldName : jsstring)
    (items : list JsVal) (i : nat) (vs : list JsVal) :
  map_items f fieldName i items = Return vs <->
  Forall2 (fun p v => f (snd p) (item_label fieldName (fst p)) = Return v)
          (combine (seq i (List.length items)) items) vs.
Proof.
  revert i vs. induction items as [|item rest IH]; intros i vs.
  - cbn [map_items List.length seq combine].
    split; [intros H; injection H as <-; constructor | intros H; now inversion H].
  - rewrite map_items_cons. cbn [List.length seq combine].
    destruct (f item (item_label fieldName i)) as [v|e] eqn:Ef.
    + destruct (map_items f fieldName (S i) rest) as [vs'|e] eqn:Er.
      * split.
        -- intros H. injection H as <-. constructor; [exact Ef | now apply IH].
        -- intros H. inversion H as [|p v' ps vs'' Hp Hps]; subst. cbn [fst snd] in Hp.
           apply IH in Hps. congruence.
      * split; [discriminate|].
        intros H. inversion H as [|p v' ps vs'' Hp Hps]; subst.
        apply IH in Hps. congruence.
    + split; [discriminate|].
      intros H. inversion H as [|p v' ps vs'' Hp Hps]; subst. cbn [fst snd] in Hp.
      congruence.
Qed.

(** A failure is the failure of the first item that does not validate. *)
Lemma map_items_throws (f : JsVal -> jsstring -> Result JsVal) (fieldName : jsstring)
    (items : list JsVal) (i : nat) (e : Error) :
  map_items f fieldName i items = Throw e <->
  exists before bad after vs,
    items = before ++ bad :: after
    /\ map_items f fieldName i before = Return vs
    /\ f bad (item_label fieldName (i + List.length before)) = Throw e.
Proof.
  revert i. induction items as [|item rest IH]; intros i.
  - split; [discriminate|].
    intros (before & bad & after & vs & H & _). now destruct before.
  - rewrite map_items_cons.
    assert (Hlater : forall before bad after vs,
              item :: rest = (item :: before) ++ bad :: after ->
              map_items f fieldName i (item :: before) = Return vs ->
              f bad (item_label fieldName (i + List.length (item :: before))) = Throw e ->
              map_items f fieldName (S i) rest = Throw e).
    { intros before bad after vs H Hb Hbad.
      cbn [app] in H. injection H as ->.
      rewrite map_items_cons in Hb.
      destruct (f item (item_label fieldName i)); [|discriminate].
      destruct (map_items f fieldName (S i) before) as [vb|] eqn:Eb; [|discriminate].
      apply IH. exists before, bad, after, vb. split; [reflexivity|].
      split; [assumption|].
      cbn [List.length] in Hbad. now rewrite Nat.add_succ_r in Hbad. }
    destruct (f item (item_label fieldName i)) as [v|e'] eqn:Ef.
    + destruct (map_items f fieldName (S i) rest) as [vs'|e'] eqn:Er.
      * split; [discriminate|].
        intros (before & bad & after & vs & H & Hb & Hbad).
        destruct before as [|b before].
        -- cbn [app] in H. injection H as -> ->.
           cbn [List.length] in Hbad. rewrite Nat.add_0_r in Hbad. congruence.
        -- assert (b = item) as -> by (cbn [app] in H; now injection H).
           specialize (Hlater _ _ _ _ H Hb Hbad). congruence.
      * split.
        -- intros H. injection H as ->.
           apply IH in Er as (before & bad & after & vs & -> & Hb & Hbad).
           exists (item :: before), bad, after, (v :: vs).
           split; [reflexivity|]. split.
           ++ rewrite map_items_cons. now rewrite Ef, Hb.
           ++ cbn [List.length]. now rewrite Nat.add_succ_r.
        -- intros (before & bad & after & vs & H & Hb & Hbad).
           destruct before as [|b before].
           ++ cbn [app] in H. injection H as -> ->.
              cbn [List.length] in Hbad. rewrite Nat.add_0_r in Hbad. congruence.
           ++ assert (b = item) as -> by (cbn [app] in H; now injection H).
              specialize (Hlater _ _ _ _ H Hb Hbad). congruence.
    + split.
      * intros H. injection H as ->.
        exists [], item, rest, []. split; [reflexivity|]. split; [reflexivity|].
        cbn [List.length]. now rewrite Nat.add_0_r.
      * intros (before & bad & after & vs & H & Hb & Hbad).
        destruct before as [|b before].
        -- cbn [app] in H. injection H as -> ->.
           cbn [List.length] in Hbad. rewrite Nat.add_0_r in Hbad. congruence.
        -- assert (b = item) as -> by (cbn [app] in H; now injection H).
           rewrite map_items_cons, Ef in Hb. discriminate.
Qed.

(** X4: with an item validator, [validateArray] returns exactly when the
    value is an array all of whose items validate, each under the label
    field[index], and then returns the validated items in order; a value
    that is not required and falsy gives the empty array.  It throws the
    failure of the first item that does not validate, or "must be an array"
    for a value that is not an array (unless the value is falsy and not
    required). *)
Theorem validateArray_spec (value : JsVal) (fieldName : jsstring)
    (required : option bool) (f : JsVal -> jsstring -> Result JsVal) :
  (forall vs,
     validateArray value fieldName (mkArrayOptions required (Some f)) = Return vs <->
     (exists items, value = JArr items
        /\ Forall2 (fun p v => f (snd p) (item_label fieldName (fst p)) = Return v)
                   (combine (seq 0 (List.length items)) items) vs)
     \/ (required = Some false /\ truthy value = false /\ vs = []))
  /\ (forall e,
        validateArray value fieldName (mkArrayOptions required (Some f)) = Throw e <->
        (Array_isArray value = false
           /\ (required <> Some false \/ truthy value = true)
           /\ e = mkError (fieldName ++ js " must be an array"))
        \/ (exists before bad after vs,
              value = JArr (before ++ bad :: after)
              /\ map_items f fieldName 0 before = Return vs
              /\ f bad (item_label fieldName (List.length before)) = Throw e)).
Proof.
  assert (Harr : forall items,
            validateArray (JArr items) fieldName (mkArrayOptions required (Some f))
            = map_items f fieldName 0 items).
  { intros items. unfold validateArray.
    cbn [opt_array_required opt_itemValidator Array_isArray truthy negb].
    now rewrite !andb_false_r. }
  assert (Hother : Array_isArray value = false ->
            validateArray value fieldName (mkArrayOptions required (Some f))
            = if negb (with_default true required) && negb (truthy value)
              then Return []
              else Throw (mkError (fieldName ++ js " must be an array"))).
  { intros H. unfold validateArray. cbn [opt_array_required opt_itemValidator].
    rewrite H. cbn [negb]. rewrite andb_true_r.
    destruct (with_default true required); cbn [negb andb]; [reflexivity|].
    destruct (truthy value); cbn [negb]; [|reflexivity].
    destruct value; try reflexivity; discriminate. }
  assert (Hreq : forall r : option bool,
            with_default true r = false <-> r = Some false).
  { intros [[|]|]; simpl; split; congruence. }
  destruct (Array_isArray value) eqn:Ea.
  - destruct value as [| |b|n|s|items|o']; try discriminate.
    rewrite Harr. split.
    + intros vs. rewrite map_items_returns. split.
      * intros H. left. now exists items.
      * intros [(items' & E & H) | (_ & H & _)]; [now injection E as <- | discriminate].
    + intros e. rewrite map_items_throws. split.
      * intros (before & bad & after & vs & -> & H1 & H2). right.
        now exists before, bad, after, vs.
      * intros [(H & _) | (before & bad & after & vs & E & H1 & H2)]; [discriminate|].
        injection E as ->. now exists before, bad, after, vs.
  - rewrite (Hother eq_refl). split.
    + intros vs. split.
      * destruct (with_default true required) eqn:Er; cbn [negb andb]; [discriminate|].
        destruct (truthy value) eqn:Et; cbn [negb]; [discriminate|].
        intros H. injection H as <-. right. split; [now apply Hreq | now split].
      * intros [(items & -> & _) | (Hr & Ht & ->)]; [discriminate|].
        apply Hreq in Hr. now rewrite Hr, Ht.
    + intros e. split.
      * destruct (with_default true required) eqn:Er; cbn [negb andb].
        -- intros H. injection H as <-. left. split; [reflexivity|]. split; [|reflexivity].
           left. intros Hr. apply Hreq in Hr. congruence.
        -- destruct (truthy value) eqn:Et; cbn [negb]; [|discriminate].
           intros H. injection H as <-. left. split; [reflexivity|].
           split; [now right | reflexivity].
      * intros [(_ & Hc & ->) | (before & bad & after & vs & -> & _)]; [|discriminate].
        destruct Hc as [Hr | Ht].
        -- destruct (with_default true required) eqn:Er; [reflexivity|].
           now apply Hreq in Er.
        -- rewrite Ht. cbn [negb]. now rewrite andb_false_r.
Qed.

Lemma validateArray_spec_witness :
  validateArray (JArr [JNum (Fin 1); JStr (js "abc"); JNum (Fin 3)])
    (js "Excluded product IDs")
    (mkArrayOptions None (Some (fun id _ => validateId id (js "Product ID"))))
  = Throw (mkError (js "Product ID must be a positive integer")).
Proof.
  apply (proj2 (validateArray_spec
                  (JArr [JNum (Fin 1); JStr (js "abc"); JNum (Fin 3)])
                  (js "Excluded product IDs") None
                  (fun id _ => validateId id (js "Product ID")))).
  right. exists [JNum (Fin 1)], (JStr (js "abc")), [JNum (Fin 3)], [JNum (Fin 1)].
  split; [reflexivity|]. split; reflexivity.
Defined.

(** ** The dispatcher, case by case *)

Section Dispatcher.
Context {rt : Runtime}.

(** With a key and a URL the parser rejects, [request] throws the parser's
    error as it is. *)
Lemma request_invalid_url (endpoint method : jsstring) (data queryParams : JsVal)
    (w : World) (key : jsstring) :
  apiKey (this w) = Some key -> key <> [] ->
  URL_parse (baseUrl (this w) ++ endpoint) = None ->
  Grocy.request endpoint method data queryParams w
  = (Throw (mkError (js "Invalid URL")), w).
Proof.
  intros Hk Hne Hu. apply truthy_JStr in Hne.
  unfold Grocy.request, get_this, new_URL, lift.
  unfold bind at 1. rewrite Hk. cbn [key_value]. rewrite Hne. cbn [negb].
  unfold bind at 1. now rewrite Hu.
Qed.

(** The world [request] leaves behind. *)
Lemma request_world (endpoint method : jsstring) (data queryParams : JsVal) (w : World) :
  snd (Grocy.request endpoint method data queryParams w)
  = match apiKey (this w), URL_parse (baseUrl (this w) ++ endpoint) with
    | Some key, Some q0 =>
        if truthy (JStr key) then
          match Grocy.with_query (mkURL (baseUrl (this w) ++ endpoint) q0) queryParams with
          | Return url => after_call w (url, Grocy.request_options key method data)
          | Throw _ => w
          end
        else w
    | _, _ => w
    end.
Proof.
  destruct (apiKey (this w)) as [key|] eqn:Ek.
  - destruct (truthy (JStr key)) eqn:Et.
    + apply truthy_JStr in Et.
      destruct (URL_parse _) as [q0|] eqn:Eu.
      * destruct (Grocy.with_query _ queryParams) as [url|e] eqn:Eq.
        -- now rewrite (request_call_recorded _ _ _ _ _ _ _ _ Ek Et Eu Eq).
        -- now rewrite (request_query_failure _ _ _ _ _ _ _ _ Ek Et Eu Eq).
      * now rewrite (request_invalid_url _ _ _ _ _ _ Ek Et Eu).
    + rewrite request_without_key by now rewrite Ek.
      now destruct (URL_parse _).
  - now rewrite request_without_key by now rewrite Ek.
Qed.

(** A call recorded by [request] is the call of a client with a key, on a
    URL the parser accepted, with query parameters that could be added. *)
Lemma request_recorded (endpoint method : jsstring) (data queryParams : JsVal)
    (w : World) (url : URL) (options : RequestInit) :
  fetched (snd (Grocy.request endpoint method data queryParams w))
  = fetched w ++ [(url, options)] ->
  exists key q0,
    apiKey (this w) = Some key /\ key <> []
    /\ URL_parse (baseUrl (this w) ++ endpoint) = Some q0
    /\ Grocy.with_query (mkURL (baseUrl (this w) ++ endpoint) q0) queryParams
       = Return url
    /\ options = Grocy.request_options key method data.
Proof.
  rewrite request_world. intros H.
  destruct (apiKey (this w)) as [key|]; [|now elim (not_extended _ _ H)].
  destruct (URL_parse _) as [q0|]; [|now elim (not_extended _ _ H)].
  destruct (truthy (JStr key)) eqn:Et; [|now elim (not_extended _ _ H)].
  apply truthy_JStr in Et.
  destruct (Grocy.with_query _ queryParams) as [url'|e] eqn:Eq;
    [|now elim (not_extended _ _ H)].
  cbn [after_call fetched] in H. apply app_inv_head in H. injection H as <- <-.
  now exists key, q0.
Qed.

(** A failure that leaves the guarded part of [request] carries the
    prefix. *)
Lemma guarded_failure {A : Type} (m : M A) (w : World) (e : Error) :
  fst (try_catch m (fun error => throw (Grocy.request_failed error)) w) = Throw e ->
  exists inner, e = Grocy.request_failed inner.
Proof.
  unfold try_catch, throw. destruct (m w) as [[a|inner] w']; simpl; [discriminate|].
  intros H. injection H as <-. now exists inner.
Qed.

Lemma request_failed_prefix (inner : Error) :
  startsWith (message (Grocy.request_failed inner)) (js "Grocy API request failed: ")
  = true.
Proof. apply startsWith_app. Qed.

(** X5: a failure of [request] has one of four origins.  Three are thrown
    as they are, before any transport call: the missing key, the rejected
    URL, and a value of the query parameters that cannot be converted to a
    string (the TypeError of the conversion).  The fourth is anything that
    goes wrong from the transport call on, thrown with the prefix "Grocy API
    request failed: " after exactly one call. *)
Theorem request_failure_origin (endpoint method : jsstring) (data queryParams : JsVal)
    (w : World) (e : Error) :
  fst (Grocy.request endpoint method data queryParams w) = Throw e ->
  (e = mkError (js "API key is required. Use setApiKey() to set it.")
     /\ snd (Grocy.request endpoint method data queryParams w) = w)
  \/ (e = mkError (js "Invalid URL")
        /\ snd (Grocy.request endpoint method data queryParams w) = w)
  \/ ((e = mkError (js "Cannot convert object to primitive value")
         \/ e = mkError (js "value.toString is not a function"))
        /\ ~ appendable_query queryParams
        /\ snd (Grocy.request endpoint method data queryParams w) = w)
  \/ (startsWith (message e) (js "Grocy API request failed: ") = true
        /\ appendable_query queryParams
        /\ exists call,
             snd (Grocy.request endpoint method data queryParams w) = after_call w call).
Proof.
  intros H.
  destruct (truthy (key_value (apiKey (this w)))) eqn:Et.
  2:{ left. rewrite request_without_key in * by assumption.
      split; [now injection H | reflexivity]. }
  destruct (apiKey (this w)) as [key|] eqn:Ek; [|discriminate].
  apply truthy_JStr in Et.
  destruct (URL_parse (baseUrl (this w) ++ endpoint)) as [q0|] eqn:Eu.
  - destruct (Grocy.with_query (mkURL (baseUrl (this w) ++ endpoint) q0) queryParams)
      as [url|e'] eqn:Eq.
    + right. right. right.
      rewrite (request_call_recorded _ _ _ _ _ _ _ _ Ek Et Eu Eq).
      rewrite (request_reaches_transport _ _ _ _ _ _ _ _ Ek Et Eu Eq) in H.
      apply guarded_failure in H as [inner ->].
      split; [apply request_failed_prefix|].
      split; [|now eexists].
      apply (with_query_appendable (mkURL (baseUrl (this w) ++ endpoint) q0)).
      now exists url.
    + right. right. left.
      rewrite (request_query_failure _ _ _ _ _ _ _ _ Ek Et Eu Eq) in *.
      injection H as <-.
      split; [exact (with_query_throws _ _ _ Eq)|].
      split; [|reflexivity].
      intros Hq.
      apply (with_query_appendable (mkURL (baseUrl (this w) ++ endpoint) q0)) in Hq
        as [url Hq].
      congruence.
  - right. left. rewrite (request_invalid_url _ _ _ _ _ _ Ek Et Eu) in *.
    split; [now injection H | reflexivity].
Qed.

(** X6: [request] calls the transport at most once, and never changes the
    client; it calls it exactly once when the client holds a non-empty key,
    the URL parses and every value of the query parameters can be appended,
    and not at all otherwise. *)
Theorem request_single_call (endpoint method : jsstring) (data queryParams : JsVal)
    (w : World) :
  (snd (Grocy.request endpoint method data queryParams w) = w
     /\ (truthy (key_value (apiKey (this w))) = false
         \/ URL_parse (baseUrl (this w) ++ endpoint) = None
         \/ ~ appendable_query queryParams))
  \/ (exists call,
        snd (Grocy.request endpoint method data queryParams w) = after_call w call
        /\ truthy (key_value (apiKey (this w))) = true
        /\ URL_parse (baseUrl (this w) ++ endpoint) <> None
        /\ appendable_query queryParams).
Proof.
  rewrite request_world.
  destruct (apiKey (this w)) as [key|]; [|left; split; [reflexivity | now left]].
  cbn [key_value].
  destruct (URL_parse _) as [q0|].
  - destruct (truthy (JStr key)).
    + destruct (Grocy.with_query (mkURL (baseUrl (this w) ++ endpoint) q0) queryParams)
        as [url|e] eqn:Eq.
      * right. eexists. split; [reflexivity|]. split; [reflexivity|].
        split; [discriminate|].
        apply (with_query_appendable (mkURL (baseUrl (this w) ++ endpoint) q0)).
        now exists url.
      * left. split; [reflexivity|]. right. right. intros Hq.
        apply (with_query_appendable (mkURL (baseUrl (this w) ++ endpoint) q0)) in Hq
          as [url Hq].
        congruence.
    + left. split; [reflexivity | now left].
  - left. split; [reflexivity|]. right. now left.
Qed.

(** X7: the options of a call that [request] hands to the transport: the
    method as passed, the key under GROCY-API-KEY next to the JSON
    content-type, and a body, the JSON text of the data, only when the data
    is truthy and the method is exactly POST or PUT. *)
Theorem request_call_options (endpoint method : jsstring) (data queryParams : JsVal)
    (w : World) (url : URL) (options : RequestInit) :
  fetched (snd (Grocy.request endpoint method data queryParams w))
  = fetched w ++ [(url, options)] ->
  exists key,
    apiKey (this w) = Some key
    /\ init_method options = method
    /\ init_headers options
       = [(js "GROCY-API-KEY", key); (js "Content-Type", js "application/json")]
    /\ (truthy data = true -> method = js "POST" \/ method = js "PUT" ->
        init_body options = Some (JStr (JSON_stringify data)))
    /\ (truthy data = false \/ (method <> js "POST" /\ method <> js "PUT") ->
        init_body options = None).
Proof.
  intros H. apply request_recorded in H as (key & q0 & Hk & _ & _ & _ & ->).
  exists key. split; [assumption|]. split; [reflexivity|]. split; [reflexivity|].
  cbn [Grocy.request_options init_body]. split.
  - intros Hd [-> | ->]; now rewrite Hd.
  - intros [Hd | [Hpost Hput]]; [now rewrite Hd|].
    destruct (str_eqb method (js "POST")) eqn:E1;
      [apply str_eqb_eq in E1; congruence|].
    destruct (str_eqb method (js "PUT")) eqn:E2;
      [apply str_eqb_eq in E2; congruence|].
    now rewrite andb_false_r.
Qed.

(** X8: the URL of a call that [request] hands to the transport is the base
    endpoint followed by the endpoint path, and its query is the one of
    that string followed by the pairs of the own properties of the query
    parameters; a falsy value (null, undefined, 0, the empty string) and a
    value without own properties (a number, a boolean, the empty object)
    add nothing.  The key is no part of it.  A call is handed over only if
    every value of the query parameters could be appended. *)
Theorem request_call_url (endpoint method : jsstring) (data queryParams : JsVal)
    (w : World) (url : URL) (options : RequestInit) :
  fetched (snd (Grocy.request endpoint method data queryParams w))
  = fetched w ++ [(url, options)] ->
  exists q0,
    URL_parse (baseUrl (this w) ++ endpoint) = Some q0
    /\ url = mkURL (baseUrl (this w) ++ endpoint)
               (q0 ++ flat_map entry_pairs
                        (if truthy queryParams then Object_entries queryParams else []))
    /\ (truthy queryParams = false \/ Object_entries queryParams = [] ->
        url = mkURL (baseUrl (this w) ++ endpoint) q0)
    /\ appendable_query queryParams.
Proof.
  intros H. apply request_recorded in H as (key & q0 & _ & _ & Hu & Hq & _).
  exists q0. split; [assumption|].
  rewrite (with_query_returns _ _ _ Hq). cbn [url_source searchParams].
  split; [reflexivity|]. split.
  - intros [-> | E]; [|rewrite E; destruct (truthy queryParams)];
      simpl; now rewrite app_nil_r.
  - apply (with_query_appendable (mkURL (baseUrl (this w) ++ endpoint) q0)).
    exists url. exact Hq.
Qed.

(** X9: a response that is neither 204 nor JSON nor calendar text: when it
    is ok, [request] returns [{ success: true, response }] with that very
    response; when it is not, [request] throws the prefixed "HTTP error!
    status: code" without reading the body. *)
Theorem other_content_outcome (endpoint method : jsstring) (data queryParams : JsVal)
    (w : World) (r : Response) :
  transport_replies w endpoint method data queryParams (Resolved r) ->
  status r <> 204%Z ->
  Grocy.declares (content_type r) (js "application/json") = false ->
  Grocy.declares (content_type r) (js "text/calendar") = false ->
  fst (Grocy.request endpoint method data queryParams w)
  = if ok r then Return (SuccessWith r)
    else Throw (mkError (js "Grocy API request failed: HTTP error! status: "
                           ++ Z_toString (status r))).
Proof.
  intros H Hs Hj Hc. destruct (request_resolved _ _ _ _ _ _ H) as [call ->].
  apply Z.eqb_neq in Hs.
  unfold try_catch, Grocy.normalize_response, ret, throw.
  rewrite Hs, Hj, Hc. now destruct (ok r).
Qed.

(** X10: a JSON response other than 204: when the body does not parse,
    [request] throws the parser's message behind the prefix, whatever the
    status; when it parses and the response is ok, [request] returns the
    parsed value as it is, an error_message in it notwithstanding. *)
Theorem json_outcome (endpoint method : jsstring) (data queryParams : JsVal)
    (w : World) (r : Response) :
  transport_replies w endpoint method data queryParams (Resolved r) ->
  status r <> 204%Z ->
  Grocy.declares (content_type r) (js "application/json") = true ->
  (forall e, json r = Throw e ->
     fst (Grocy.request endpoint method data queryParams w)
     = Throw (mkError (js "Grocy API request failed: " ++ message e)))
  /\ (forall body, json r = Return body -> ok r = true ->
        fst (Grocy.request endpoint method data queryParams w) = Return (Plain body)).
Proof.
  intros H Hs Hj. destruct (request_resolved _ _ _ _ _ _ H) as [call ->].
  apply Z.eqb_neq in Hs.
  unfold try_catch, Grocy.normalize_response, bind, lift, ret, throw.
  rewrite Hs, Hj. split.
  - intros e ->. reflexivity.
  - intros body -> ->. reflexivity.
Qed.

(** X11: when the transport itself fails, [request] throws its message
    behind the prefix, and the one call stays recorded. *)
Theorem network_failure_wrapped (endpoint method : jsstring) (data queryParams : JsVal)
    (w : World) (e : Error) :
  transport_replies w endpoint method data queryParams (Rejected e) ->
  exists call,
    Grocy.request endpoint method data queryParams w
    = (Throw (mkError (js "Grocy API request failed: " ++ message e)),
       after_call w call).
Proof.
  intros (key & q0 & url & Hk & Hne & Hu & Hq & Hf).
  eexists. rewrite (request_reaches_transport _ _ _ _ _ _ _ _ Hk Hne Hu Hq).
  unfold try_catch, bind, Grocy.await_fetch. rewrite Hf. reflexivity.
Qed.

(** X12: with a key, a URL string the parser rejects makes [request] throw
    the parser's own error, without the prefix and before any transport
    call. *)
Theorem invalid_url_not_wrapped (endpoint method : jsstring) (data queryParams : JsVal)
    (w : World) (key : jsstring) :
  apiKey (this w) = Some key -> key <> [] ->
  URL_parse (baseUrl (this w) ++ endpoint) = None ->
  Grocy.request endpoint method data queryParams w
  = (Throw (mkError (js "Invalid URL")), w)
  /\ startsWith (js "Invalid URL") (js "Grocy API request failed: ") = false.
Proof.
  intros Hk Hne Hu. split; [now apply (request_invalid_url _ _ _ _ _ key) | reflexivity].
Qed.

End Dispatcher.

(** ** File upload *)

Section Upload.
Context {rt : Runtime}.

(** What [uploadFile] does, check by check. *)
Lemma uploadFile_steps (group fileName fileData : JsVal) (w : World) :
  Grocy.uploadFile group fileName fileData w
  = match validateString group (js "File group") (Grocy.upload_options 100) with
    | Throw e => (Throw e, w)
    | Return g =>
        match validateString fileName (js "File name") (Grocy.upload_options 255) with
        | Throw e => (Throw e, w)
        | Return f =>
            if negb (truthy fileData) then
              (Throw (mkError (js "File data is required")), w)
            else if negb (truthy (key_value (apiKey (this w)))) then
              (Throw (mkError (js "API key is required. Use setApiKey() to set it.")), w)
            else
              match URL_parse (baseUrl (this w) ++ Grocy.file_path g f) with
              | None => (Throw (mkError (js "Invalid URL")), w)
              | Some q0 =>
                  upload_attempt
                    (mkURL (baseUrl (this w) ++ Grocy.file_path g f) q0)
                    (mkInit (js "PUT")
                       [(js "GROCY-API-KEY", with_default [] (apiKey (this w)))]
                       (Some fileData)) w
              end
        end
    end.
Proof.
  unfold Grocy.uploadFile, lift. unfold bind at 1.
  destruct (validateString group _ _) as [g|e]; [|reflexivity].
  unfold bind at 1.
  destruct (validateString fileName _ _) as [f|e]; [|reflexivity].
  destruct (negb (truthy fileData)); [reflexivity|].
  unfold get_this. unfold bind at 1.
  destruct (negb (truthy (key_value (apiKey (this w))))); [reflexivity|].
  unfold new_URL. unfold bind at 1.
  destruct (URL_parse _) as [q0|]; reflexivity.
Qed.

(** The attempt records its call and changes nothing else. *)
Lemma upload_attempt_world (url : URL) (options : RequestInit) (w : World) :
  snd (upload_attempt url options w) = after_call w (url, options).
Proof.
  unfold upload_attempt, try_catch, bind, Grocy.await_fetch, lift, throw, ret.
  destruct (fetch url options) as [r|e]; [|reflexivity].
  destruct (negb (ok r)); [|reflexivity].
  destruct (json r) as [body|e]; [|reflexivity].
  destruct (get_property body _); [|reflexivity].
  destruct (new_Error _); reflexivity.
Qed.

(** The attempt on a response the transport resolved with. *)
Lemma upload_attempt_resolved (url : URL) (options : RequestInit) (w : World)
    (r : Response) :
  fetch url options = Resolved r ->
  fst (upload_attempt url options w)
  = if negb (ok r) then
      match json r with
      | Throw e => Throw (Grocy.request_failed e)
      | Return body =>
          match get_property body (js "error_message") with
          | Throw e => Throw (Grocy.request_failed e)
          | Return field =>
              match new_Error (if truthy field then field
                               else JStr (Grocy.http_error r)) with
              | Return error => Throw (Grocy.request_failed error)
              | Throw e => Throw (Grocy.request_failed e)
              end
          end
      end
    else Return success_true.
Proof.
  intros H.
  unfold upload_attempt, try_catch, bind, Grocy.await_fetch, lift, throw, ret.
  rewrite H. destruct (negb (ok r)); [|reflexivity].
  destruct (json r) as [body|e]; [|reflexivity].
  destruct (get_property body _); [|reflexivity].
  destruct (new_Error _); reflexivity.
Qed.

(** X13: [uploadFile] checks its arguments before it looks for the API key,
    and all of it before any transport call: a group that does not
    validate fails first, then a file name, then falsy file data ("File
    data is required"), and only then the missing key. *)
Theorem uploadFile_check_order (group fileName fileData : JsVal) (w : World) :
  (forall e,
     validateString group (js "File group") (Grocy.upload_options 100) = Throw e ->
     Grocy.uploadFile group fileName fileData w = (Throw e, w))
  /\ (forall g e,
        validateString group (js "File group") (Grocy.upload_options 100) = Return g ->
        validateString fileName (js "File name") (Grocy.upload_options 255) = Throw e ->
        Grocy.uploadFile group fileName fileData w = (Throw e, w))
  /\ (forall g f,
        validateString group (js "File group") (Grocy.upload_options 100) = Return g ->
        validateString fileName (js "File name") (Grocy.upload_options 255) = Return f ->
        truthy fileData = false ->
        Grocy.uploadFile group fileName fileData w
        = (Throw (mkError (js "File data is required")), w))
  /\ (forall g f,
        validateString group (js "File group") (Grocy.upload_options 100) = Return g ->
        validateString fileName (js "File name") (Grocy.upload_options 255) = Return f ->
        truthy fileData = true ->
        truthy (key_value (apiKey (this w))) = false ->
        Grocy.uploadFile group fileName fileData w
        = (Throw (mkError (js "API key is required. Use setApiKey() to set it.")), w)).
Proof.
  rewrite uploadFile_steps. split; [|split; [|split]].
  - now intros e ->.
  - now intros g e -> ->.
  - now intros g f -> -> ->.
  - now intros g f -> -> -> ->.
Qed.

(** X14: once [uploadFile] reaches the transport, the call is a PUT of the
    file data itself to the files path of the escaped names, with the key
    as its only header; and the outcome depends on [ok] alone, not on the
    status 204 or the content-type: [{ success: true }] when the response is
    ok, else the prefixed parser's message when the body is not JSON, else
    the prefix followed by: the generic "HTTP error! status: code" when the
    error_message of the body is not truthy, its string form when it is
    truthy and has one, and the message of the conversion's TypeError when
    it is truthy and has none. *)
Theorem uploadFile_outcome (group fileName fileData : JsVal) (w : World)
    (g f key : jsstring) (q0 : list (jsstring * jsstring)) (r : Response) :
  validateString group (js "File group") (Grocy.upload_options 100) = Return g ->
  validateString fileName (js "File name") (Grocy.upload_options 255) = Return f ->
  truthy fileData = true ->
  apiKey (this w) = Some key -> key <> [] ->
  URL_parse (baseUrl (this w) ++ Grocy.file_path g f) = Some q0 ->
  fetch (mkURL (baseUrl (this w) ++ Grocy.file_path g f) q0)
        (mkInit (js "PUT") [(js "GROCY-API-KEY", key)] (Some fileData)) = Resolved r ->
  snd (Grocy.uploadFile group fileName fileData w)
  = after_call w (mkURL (baseUrl (this w) ++ Grocy.file_path g f) q0,
                  mkInit (js "PUT") [(js "GROCY-API-KEY", key)] (Some fileData))
  /\ (ok r = true ->
      fst (Grocy.uploadFile group fileName fileData w) = Return success_true)
  /\ (forall e, ok r = false -> json r = Throw e ->
      fst (Grocy.uploadFile group fileName fileData w)
      = Throw (mkError (js "Grocy API request failed: " ++ message e)))
  /\ (forall body field, ok r = false -> json r = Return body ->
      get_property body (js "error_message") = Return field ->
      (truthy field = false ->
       fst (Grocy.uploadFile group fileName fileData w)
       = Throw (mkError (js "Grocy API request failed: HTTP error! status: "
                           ++ Z_toString (status r))))
      /\ (forall s, truthy field = true -> ToString field = Return s ->
          fst (Grocy.uploadFile group fileName fileData w)
          = Throw (mkError (js "Grocy API request failed: " ++ s)))
      /\ (truthy field = true -> ~ has_string_form field ->
          fst (Grocy.uploadFile group fileName fileData w)
          = Throw (mkError (js "Grocy API request failed: Cannot convert object to primitive value")))).
Proof.
  intros Hg Hf Hd Hk Hne Hu Hr. apply truthy_JStr in Hne.
  rewrite uploadFile_steps, Hg, Hf, Hd, Hk, Hu. cbn [key_value with_default].
  rewrite Hne. cbn [negb].
  split; [apply upload_attempt_world|].
  rewrite (upload_attempt_resolved _ _ _ _ Hr). split; [|split].
  - now intros ->.
  - now intros e -> ->.
  - intros body field -> -> ->. cbn [negb].
    unfold Grocy.request_failed, Grocy.http_error, new_Error.
    split; [|split].
    + intros ->. reflexivity.
    + intros s -> ->. reflexivity.
    + intros -> N. destruct (no_string_form _ N) as [e' E]. rewrite E.
      now rewrite (ToString_throws _ _ E).
Qed.

End Upload.

(** ** The whole surface *)

Section WholeSurface.
Context {rt : Runtime}.

Ltac shape :=
  repeat first
    [ apply checked_request | apply checked_upload | apply checked_throw
    | apply checked_then; intro
    | match goal with
      | |- checked (if ?b then _ else _) => destruct b
      end ].

(** Every operation is a run of checks followed by at most one call. *)
Lemma perform_checked (op : Operation) : checked (perform op).
Proof.
  destruct op; cbn [perform];
    unfold Grocy.getSystemInfo, Grocy.getDbChangedTime, Grocy.getConfig, Grocy.getTime,
      Grocy.getStock, Grocy.getStockEntry, Grocy.getVolatileStock,
      Grocy.getProductDetails, Grocy.getProductByBarcode, Grocy.consumeProduct,
      Grocy.consumeProductByBarcode, Grocy.transferProduct, Grocy.openProduct,
      Grocy.addMissingProductsToShoppingList, Grocy.addOverdueProductsToShoppingList,
      Grocy.addExpiredProductsToShoppingList, Grocy.clearShoppingList,
      Grocy.shopping_list_action, Grocy.addProductToShoppingList,
      Grocy.removeProductFromShoppingList, Grocy.getObjects, Grocy.addObject,
      Grocy.getObject, Grocy.editObject, Grocy.deleteObject, Grocy.getUserfields,
      Grocy.setUserfields, Grocy.getFile, Grocy.deleteFile, Grocy.getUsers,
      Grocy.createUser, Grocy.editUser, Grocy.deleteUser, Grocy.getCurrentUser,
      Grocy.getUserSettings, Grocy.getUserSetting, Grocy.setUserSetting,
      Grocy.addRecipeProductsToShoppingList, Grocy.getRecipeFulfillment,
      Grocy.consumeRecipe, Grocy.getAllRecipesFulfillment, Grocy.getChores,
      Grocy.getChoreDetails, Grocy.getBatteries, Grocy.getBatteryDetails,
      Grocy.getTasks, Grocy.undoTask, Grocy.getCalendar, Grocy.getCalendarSharingLink;
    cbv zeta; shape.
Qed.

(** The world [uploadFile] leaves behind. *)
Lemma upload_world (group fileName fileData : JsVal) (w : World) :
  snd (upload group fileName fileData w)
  = snd (Grocy.uploadFile group fileName fileData w).
Proof.
  unfold upload, bind, ret.
  now destruct (Grocy.uploadFile group fileName fileData w) as [[v|e] w'].
Qed.

Lemma upload_throws (group fileName fileData : JsVal) (w : World) (e : Error) :
  fst (upload group fileName fileData w) = Throw e <->
  fst (Grocy.uploadFile group fileName fileData w) = Throw e.
Proof.
  unfold upload, bind, ret.
  destruct (Grocy.uploadFile group fileName fileData w) as [[v|e'] w']; simpl;
    split; congruence.
Qed.

(** [uploadFile] either stops at a check and leaves the world as it was, or
    makes its attempt. *)
Lemma uploadFile_cases (group fileName fileData : JsVal) (w : World) :
  (exists e, Grocy.uploadFile group fileName fileData w = (Throw e, w))
  \/ (exists g f key q0,
        apiKey (this w) = Some key /\ key <> []
        /\ Grocy.uploadFile group fileName fileData w
           = upload_attempt (mkURL (baseUrl (this w) ++ Grocy.file_path g f) q0)
               (mkInit (js "PUT") [(js "GROCY-API-KEY", key)] (Some fileData)) w).
Proof.
  rewrite uploadFile_steps.
  destruct (validateString group _ _) as [g|e]; [|left; now eexists].
  destruct (validateString fileName _ _) as [f|e]; [|left; now eexists].
  destruct (negb (truthy fileData)); [left; now eexists|].
  destruct (apiKey (this w)) as [key|] eqn:Ek; cbn [key_value];
    [|left; now eexists].
  destruct (truthy (JStr key)) eqn:Et; cbn [negb]; [|left; now eexists].
  apply truthy_JStr in Et.
  destruct (URL_parse _) as [q0|]; [|left; now eexists].
  right. exists g, f, key, q0. now split.
Qed.

(** X15: every operation leaves the client as it found it and calls the
    transport at most once. *)
Theorem operation_single_call (op : Operation) (w : World) :
  snd (perform op w) = w \/ exists call, snd (perform op w) = after_call w call.
Proof.
  generalize (perform_checked op). generalize (perform op). clear op.
  intros m H. revert w.
  induction H as [endpoint method data queryParams | group fileName fileData | e
                  | A r k Hk IH]; intros w.
  - rewrite request_world.
    destruct (apiKey (this w)) as [key|]; [|now left].
    destruct (URL_parse _) as [q0|]; [|now left].
    destruct (truthy (JStr key)); [|now left].
    destruct (Grocy.with_query _ queryParams); [right; now eexists | now left].
  - rewrite upload_world.
    destruct (uploadFile_cases group fileName fileData w)
      as [[e ->] | (g & f & key & q0 & _ & _ & ->)]; [now left|].
    right. eexists. apply upload_attempt_world.
  - now left.
  - unfold bind, lift. destruct r as [a|e]; [apply IH | now left].
Qed.

(** X16: on a client without a key (null, or the empty string), no
    operation reaches the transport and every operation throws: a failed
    check of its arguments, or the missing key. *)
Theorem operation_requires_key (op : Operation) (w : World) :
  truthy (key_value (apiKey (this w))) = false ->
  exists e, perform op w = (Throw e, w).
Proof.
  intros Hkey.
  generalize (perform_checked op). generalize (perform op). clear op.
  intros m H.
  induction H as [endpoint method data queryParams | group fileName fileData | e
                  | A r k Hk IH].
  - eexists. now apply request_without_key.
  - unfold upload, bind. rewrite uploadFile_steps.
    destruct (validateString group _ _) as [g|e]; [|now eexists].
    destruct (validateString fileName _ _) as [f|e]; [|now eexists].
    destruct (negb (truthy fileData)); [now eexists|].
    rewrite Hkey. cbn [negb]. now eexists.
  - now eexists.
  - unfold bind, lift. destruct r as [a|e]; [apply IH | now eexists].
Qed.

(** X17: every call that an operation hands to the transport goes to a URL
    string that starts with the base endpoint of the client and carries the
    client's key, which is not empty, under GROCY-API-KEY. *)
Theorem operation_call_target (op : Operation) (w : World)
    (url : URL) (options : RequestInit) :
  fetched (snd (perform op w)) = fetched w ++ [(url, options)] ->
  exists key,
    apiKey (this w) = Some key /\ key <> []
    /\ startsWith (url_source url) (baseUrl (this w)) = true
    /\ In (js "GROCY-API-KEY", key) (init_headers options).
Proof.
  generalize (perform_checked op). generalize (perform op). clear op.
  intros m H.
  induction H as [endpoint method data queryParams | group fileName fileData | e
                  | A r k Hk IH]; intros Hcall.
  - apply request_recorded in Hcall as (key & q0 & Hkey & Hne & _ & Hq & ->).
    exists key. split; [assumption|]. split; [assumption|].
    rewrite (with_query_source _ _ _ Hq). split; [apply startsWith_app | now left].
  - rewrite upload_world in Hcall.
    destruct (uploadFile_cases group fileName fileData w)
      as [[e E] | (g & f & key & q0 & Hkey & Hne & E)]; rewrite E in Hcall.
    + now elim (not_extended _ _ Hcall).
    + rewrite upload_attempt_world in Hcall. cbn [after_call fetched] in Hcall.
      apply app_inv_head in Hcall. injection Hcall as <- <-.
      exists key. split; [assumption|]. split; [assumption|].
      split; [apply startsWith_app | now left].
  - now elim (not_extended _ _ Hcall).
  - unfold bind, lift in Hcall. destruct r as [a|e]; [exact (IH a Hcall)|].
    now elim (not_extended _ _ Hcall).
Qed.

(** X18: when an operation throws after its call reached the transport, the
    message starts with "Grocy API request failed: "; a failure without the
    prefix left the transport untouched. *)
Theorem operation_failure_after_call (op : Operation) (w : World) (e : Error) :
  fst (perform op w) = Throw e ->
  snd (perform op w) <> w ->
  startsWith (message e) (js "Grocy API request failed: ") = true.
Proof.
  generalize (perform_checked op). generalize (perform op). clear op.
  intros m H.
  induction H as [endpoint method data queryParams | group fileName fileData | e'
                  | A r k Hk IH]; intros He Hw.
  - rewrite request_world in Hw.
    destruct (apiKey (this w)) as [key|] eqn:Ek; [|congruence].
    destruct (URL_parse _) as [q0|] eqn:Eu; [|congruence].
    destruct (truthy (JStr key)) eqn:Et; [|congruence].
    apply truthy_JStr in Et.
    destruct (Grocy.with_query _ queryParams) as [url|e'] eqn:Eq; [|congruence].
    rewrite (request_reaches_transport _ _ _ _ _ _ _ _ Ek Et Eu Eq) in He.
    apply guarded_failure in He as [inner ->]. apply request_failed_prefix.
  - rewrite upload_world in Hw. apply upload_throws in He.
    destruct (uploadFile_cases group fileName fileData w)
      as [[e' E] | (g & f & key & q0 & _ & _ & E)]; rewrite E in *.
    + now elim Hw.
    + apply guarded_failure in He as [inner ->]. apply request_failed_prefix.
  - now elim Hw.
  - unfold bind, lift in *. destruct r as [a|e']; [exact (IH a He Hw) | now elim Hw].
Qed.

End WholeSurface.

(** ** Single operations *)

Lemma validateId_returns (value v : JsVal) (fieldName : jsstring) :
  validateId value fieldName = Return v ->
  v = value /\ exists q, value = JNum (Fin q) /\ is_integer q /\ (0 < q)%Q.
Proof.
  unfold validateId.
  destruct (Number_isInteger value) eqn:Ei; cbn [negb orb]; [|discriminate].
  destruct (not_positive value) eqn:Ep; [discriminate|].
  intros H. injection H as <-. split; [reflexivity|].
  apply Number_isInteger_spec in Ei as (q & -> & Hq).
  apply not_positive_spec in Ep. now exists q.
Qed.

Lemma own_app (front back : list (jsstring * JsVal)) (name : jsstring) :
  own (front ++ back) name
  = match own front name with
    | Some v => Some v
    | None => own back name
    end.
Proof.
  unfold own. induction front as [|kv front IH]; [reflexivity|].
  simpl. destruct (str_eqb (fst kv) name); [reflexivity | exact IH].
Qed.

Lemma own_filter (keep : jsstring * JsVal -> bool) (props : list (jsstring * JsVal))
    (name : jsstring) :
  (forall kv, str_eqb (fst kv) name = true -> keep kv = true) ->
  own (filter keep props) name = own props name.
Proof.
  intros H. unfold own. induction props as [|kv props IH]; [reflexivity|].
  simpl. destruct (str_eqb (fst kv) name) eqn:E.
  - rewrite (H kv E). simpl. now rewrite E.
  - destruct (keep kv); simpl; [rewrite E|]; exact IH.
Qed.

(** An unknown field is collected with the value the caller gave it. *)
Lemma own_unknown_fields (known : list jsstring) (data : JsVal) (name : jsstring) :
  existsb (str_eqb name) known = false -> name <> js "__proto__" ->
  own (Grocy.unknown_fields known data) name = own (Object_entries data) name.
Proof.
  intros Hk Hp. unfold Grocy.unknown_fields. apply own_filter.
  intros kv E. apply str_eqb_eq in E. rewrite E, Hk. cbn [negb andb].
  apply negb_true_iff. apply not_true_iff_false. intros F.
  now apply str_eqb_eq in F.
Qed.

(** A property named [__proto__] is never collected. *)
Lemma own_unknown_proto (known : list jsstring) (data : JsVal) :
  own (Grocy.unknown_fields known data) (js "__proto__") = None.
Proof.
  unfold Grocy.unknown_fields, own.
  induction (Object_entries data) as [|kv props IH]; [reflexivity|].
  cbn [filter].
  destruct (str_eqb (fst kv) (js "__proto__")) eqn:E.
  - cbn [negb]. rewrite andb_false_r. exact IH.
  - destruct (negb (existsb (str_eqb (fst kv)) known) && negb false); [|exact IH].
    cbn [find]. rewrite E. exact IH.
Qed.

(** A string validated with [minLength: 1] and [maxLength: n] is not blank,
    its trimmed form has at most [n] code units, and what is returned is the
    string itself, escaped unless [sanitize] is false. *)
Lemma validateString_bounds (v : JsVal) (fieldName s : jsstring) (n : Z)
    (sanitize : option bool) :
  validateString v fieldName (mkStringOptions None (Some n) (Some 1%Z) sanitize)
  = Return s ->
  exists s0,
    v = JStr s0 /\ trim s0 <> []
    /\ (Z.of_nat (List.length (trim s0)) <= n)%Z
    /\ s = if with_default true sanitize then validator_escape s0 else s0.
Proof.
  destruct v as [| |b|m|s0|l|o]; try (vm_compute; discriminate).
  rewrite validateString_string. cbv zeta.
  cbn [opt_required opt_minLength opt_maxLength opt_sanitize with_default negb andb].
  destruct (negb (truthy (JStr s0)) || negb (truthy (JStr (trim s0)))) eqn:Et;
    [discriminate|].
  apply orb_false_iff in Et as [_ Et]. apply negb_false_iff in Et.
  apply truthy_JStr in Et.
  destruct (Z.ltb (Z.of_nat (List.length (trim s0))) 1); [discriminate|].
  destruct (Z.ltb n (Z.of_nat (List.length (trim s0)))) eqn:Emax; [discriminate|].
  apply Z.ltb_ge in Emax.
  intros H. injection H as <-. exists s0. now repeat split.
Qed.

(** ** The order of properties *)

(** The index-keyed properties are listed under their own index. *)
Lemma index_keyed_indices (props : list (jsstring * JsVal)) :
  Forall (fun e => array_index (fst (snd e)) = Some (fst e)) (index_keyed props).
Proof.
  induction props as [|kv props IH]; cbn [index_keyed]; [constructor|].
  destruct (array_index (fst kv)) as [i|] eqn:E; [|exact IH].
  induction IH as [|[j kv'] l Hj Hl IHl]; cbn [insert_indexed].
  - now repeat constructor.
  - destruct (N.leb i j); repeat constructor; assumption.
Qed.

(** Putting a property in its place hides no property and is hidden by
    none: a property with the same key has the same index and comes
    later. *)
Lemma own_insert_indexed (i : N) (kv : jsstring * JsVal)
    (l : list (N * (jsstring * JsVal))) (name : jsstring) :
  array_index (fst kv) = Some i ->
  Forall (fun e => array_index (fst (snd e)) = Some (fst e)) l ->
  own (List.map snd (insert_indexed i kv l)) name
  = if str_eqb (fst kv) name then Some (snd kv) else own (List.map snd l) name.
Proof.
  intros Hi Hl. unfold own.
  induction Hl as [|[j kv'] l Hj Hl IH]; cbn [insert_indexed].
  { cbn [List.map find snd]. now destruct (str_eqb (fst kv) name). }
  cbn [fst snd] in Hj.
  destruct (N.leb i j) eqn:Eij.
  { cbn [List.map find snd]. now destruct (str_eqb (fst kv) name). }
  cbn [List.map find snd].
  destruct (str_eqb (fst kv') name) eqn:E'.
  - destruct (str_eqb (fst kv) name) eqn:E; [|reflexivity].
    apply str_eqb_eq in E, E'. rewrite <- E' in E. rewrite E in Hi.
    rewrite Hi in Hj. injection Hj as ->. rewrite N.leb_refl in Eij. discriminate.
  - exact IH.
Qed.

(** A key that is no array index is not among the index-keyed
    properties. *)
Lemma own_index_keyed_name (props : list (jsstring * JsVal)) (name : jsstring) :
  array_index name = None -> own (List.map snd (index_keyed props)) name = None.
Proof.
  intros Hn. generalize (index_keyed_indices props). generalize (index_keyed props).
  intros l Hall. unfold own.
  induction Hall as [|[j kv'] l Hj Hl IHl]; [reflexivity|].
  cbn [List.map find snd fst] in *.
  destruct (str_eqb (fst kv') name) eqn:E'; [|exact IHl].
  apply str_eqb_eq in E'. congruence.
Qed.

(** The order in which an object lists its properties does not change what
    it holds under a name. *)
Lemma own_property_order (props : list (jsstring * JsVal)) (name : jsstring) :
  own (List.map snd (index_keyed props) ++ name_keyed props) name = own props name.
Proof.
  rewrite own_app.
  induction props as [|kv props IH]; [reflexivity|].
  cbn [index_keyed name_keyed filter]. fold (name_keyed props).
  destruct (array_index (fst kv)) as [i|] eqn:Ei.
  - rewrite (own_insert_indexed _ _ _ _ Ei (index_keyed_indices props)).
    unfold own at 3. cbn [find].
    destruct (str_eqb (fst kv) name); [reflexivity | exact IH].
  - unfold own at 2 3. cbn [find].
    destruct (str_eqb (fst kv) name) eqn:E.
    + apply str_eqb_eq in E. rewrite E in Ei.
      now rewrite (own_index_keyed_name _ _ Ei).
    + exact IH.
Qed.

Lemma own_object_literal (l props : list (jsstring * JsVal)) (name : jsstring) :
  object_literal l = JObj props -> own props name = own l name.
Proof.
  unfold object_literal. intros H. injection H as <-. apply own_property_order.
Qed.

Section SingleOperations.
Context {rt : Runtime}.

(** A call recorded behind a check was recorded by what follows the check,
    which the check let through. *)
Lemma checked_then_recorded {A : Type} (r : Result A) (k : A -> M RequestValue)
    (w : World) (call : URL * RequestInit) :
  fetched (snd ((x <- lift r ;; k x) w)) = fetched w ++ [call] ->
  exists a, r = Return a /\ fetched (snd (k a w)) = fetched w ++ [call].
Proof.
  unfold bind, lift. destruct r as [a|e]; intros H.
  - now exists a.
  - now elim (not_extended _ _ H).
Qed.

(** X19: [getVolatileStock] reaches the transport only with a number of
    days from 0 to 365, 5 standing in for an argument left out, and then
    asks for /stock/volatile with exactly one query pair, due_soon_days
    with that number. *)
Theorem getVolatileStock_call (dueSoonDays : JsVal) (w : World)
    (url : URL) (options : RequestInit) :
  fetched (snd (Grocy.getVolatileStock dueSoonDays w)) = fetched w ++ [(url, options)] ->
  exists n q0,
    ((dueSoonDays = JUndefined /\ n = Fin 5) \/ dueSoonDays = JNum n)
    /\ num_le (Fin 0) n /\ num_le n (Fin 365)
    /\ URL_parse (baseUrl (this w) ++ js "/stock/volatile") = Some q0
    /\ url = mkURL (baseUrl (this w) ++ js "/stock/volatile")
               (q0 ++ [(js "due_soon_days", USVString (Number_toString n))])
    /\ init_method options = js "GET" /\ init_body options = None.
Proof.
  unfold Grocy.getVolatileStock. intros H.
  apply checked_then_recorded in H as (v & Hv & H).
  set (days := if is_undefined dueSoonDays then JNum (Fin 5) else dueSoonDays) in Hv.
  assert (Hn : exists n, days = JNum n /\ v = JNum n
                         /\ num_le (Fin 0) n /\ num_le n (Fin 365)).
  { destruct days as [| |b|n|s|l|o]; try discriminate.
    exists n.
    destruct (isNaN n) eqn:En; [destruct n; discriminate|].
    apply isNaN_false in En.
    rewrite (validateNumber_number _ _ _ En) in Hv.
    unfold lower_bound in Hv. cbn [opt_min opt_max with_default] in Hv.
    destruct (js_lt n (Fin 0)) eqn:Elo; [discriminate|].
    destruct (js_lt (Fin 365) n) eqn:Ehi; [discriminate|].
    injection Hv as <-.
    apply js_lt_false in Elo; [|assumption|discriminate].
    apply js_lt_false in Ehi; [|discriminate|assumption].
    now repeat split. }
  destruct Hn as (n & Hdays & -> & Hlo & Hhi).
  apply request_recorded in H as (key & q0 & _ & _ & Hu & Hq & ->).
  apply with_query_returns in Hq as ->.
  exists n, q0. split.
  - subst days. destruct dueSoonDays; cbn [is_undefined] in Hdays;
      try discriminate; [left; split; [reflexivity | now injection Hdays] | now right].
  - split; [assumption|]. split; [assumption|]. split; [assumption|].
    cbn [truthy Object_entries flat_map entry_pairs fst snd app searchParams url_source].
    split; [|split; reflexivity].
    destruct n; try reflexivity; now elim Hlo.
Qed.

(** The entries of the [params] object and what they add to a query. *)
Lemma list_params_pairs (options params : JsVal) :
  Grocy.list_params options = Return params ->
  exists query order limit offset,
    get_property (if is_undefined options then JObj [] else options) (js "query")
    = Return query
    /\ get_property (if is_undefined options then JObj [] else options) (js "order")
       = Return order
    /\ get_property (if is_undefined options then JObj [] else options) (js "limit")
       = Return limit
    /\ get_property (if is_undefined options then JObj [] else options) (js "offset")
       = Return offset
    /\ truthy params = true
    /\ flat_map entry_pairs (Object_entries params)
       = (if truthy query then entry_pairs (js "query", query) else [])
         ++ (if truthy order then entry_pairs (js "order", order) else [])
         ++ entry_pairs (js "limit", limit)
         ++ entry_pairs (js "offset", offset).
Proof.
  unfold Grocy.list_params, and_then.
  set (o := if is_undefined options then JObj [] else options).
  assert (Hd : forall name v, Grocy.destructure o name = Return v ->
                 get_property o name = Return v).
  { intros name v. unfold Grocy.destructure. destruct o; try exact (fun H => H).
    discriminate. }
  destruct (Grocy.destructure o (js "query")) as [query|] eqn:Eq; [|discriminate].
  apply Hd in Eq.
  destruct (get_property o (js "order")) as [order|]; [|discriminate].
  destruct (get_property o (js "limit")) as [limit|]; [|discriminate].
  destruct (get_property o (js "offset")) as [offset|]; [|discriminate].
  intros H. injection H as <-.
  exists query, order, limit, offset.
  split; [exact Eq|].
  repeat (split; [reflexivity|]).
  cbn [Object_entries]. rewrite !flat_map_app.
  assert (Hone : forall (b : bool) (x : jsstring * JsVal),
            flat_map entry_pairs (if b then [x] else [])
            = if b then entry_pairs x else []).
  { intros [|] x; cbn [flat_map]; [apply app_nil_r | reflexivity]. }
  rewrite !Hone.
  replace (if negb (is_undefined limit) then entry_pairs (js "limit", limit) else [])
    with (entry_pairs (js "limit", limit)) by now destruct limit.
  replace (if negb (is_undefined offset) then entry_pairs (js "offset", offset) else [])
    with (entry_pairs (js "offset", offset)) by now destruct offset.
  reflexivity.
Qed.

(** X20: [getObjects] reaches the transport only with an entity name that
    validates (a string that is not blank and whose trimmed form has at most
    50 code units), kept as typed, and asks for /objects/<entity> with the
    query made of: the pairs of [query] and of [order] when they are truthy,
    then those of [limit] and [offset] whatever they are; so a limit or
    offset of 0 is sent, an empty query or order is not, and null sends
    nothing. *)
Theorem getObjects_call (entity options : JsVal) (w : World)
    (url : URL) (init : RequestInit) :
  fetched (snd (Grocy.getObjects entity options w)) = fetched w ++ [(url, init)] ->
  exists e q0 query order limit offset,
    entity = JStr e
    /\ trim e <> [] /\ (Z.of_nat (List.length (trim e)) <= 50)%Z
    /\ get_property (if is_undefined options then JObj [] else options) (js "query")
       = Return query
    /\ get_property (if is_undefined options then JObj [] else options) (js "order")
       = Return order
    /\ get_property (if is_undefined options then JObj [] else options) (js "limit")
       = Return limit
    /\ get_property (if is_undefined options then JObj [] else options) (js "offset")
       = Return offset
    /\ URL_parse (baseUrl (this w) ++ js "/objects/" ++ e) = Some q0
    /\ url = mkURL (baseUrl (this w) ++ js "/objects/" ++ e)
               (q0 ++ (if truthy query then entry_pairs (js "query", query) else [])
                   ++ (if truthy order then entry_pairs (js "order", order) else [])
                   ++ entry_pairs (js "limit", limit)
                   ++ entry_pairs (js "offset", offset)).
Proof.
  unfold Grocy.getObjects. intros H.
  apply checked_then_recorded in H as (e & He & H).
  apply checked_then_recorded in H as (params & Hp & H).
  apply validateString_bounds in He as (e0 & -> & Hne & Hlen & ->).
  cbn [with_default] in H.
  apply list_params_pairs in Hp
    as (query & order & limit & offset & Hq & Ho & Hl & Hf & Ht & Hpairs).
  apply request_recorded in H as (key & q0 & _ & _ & Hu & Hw & _).
  apply with_query_returns in Hw as ->.
  exists e0, q0, query, order, limit, offset.
  split; [reflexivity|].
  repeat (split; [assumption|]).
  rewrite Ht, Hpairs. reflexivity.
Qed.

End SingleOperations.

Lemma own_known (validated : list (jsstring * JsVal)) (known : list jsstring)
    (name : jsstring) :
  forallb (fun kv => existsb (str_eqb (fst kv)) known) validated = true ->
  existsb (str_eqb name) known = false ->
  own validated name = None.
Proof.
  intros Hv Hk. unfold own. induction validated as [|kv validated IH]; [reflexivity|].
  cbn [forallb] in Hv. apply andb_true_iff in Hv as [Hkv Hv].
  cbn [find]. destruct (str_eqb (fst kv) name) eqn:E.
  - apply str_eqb_eq in E. rewrite E in Hkv. congruence.
  - now apply IH.
Qed.

(** Runs the checks of a payload that was built. *)
Ltac run_checks H :=
  repeat match type of H with
         | and_then ?r _ = Return _ =>
             let E := fresh "E" in
             destruct r eqn:E; cbn [and_then] in H; [|discriminate H]
         end.

Ltac front_of l u :=
  match l with
  | u => constr:(@nil (jsstring * JsVal))
  | ?x :: ?l' => let r := front_of l' u in constr:(x :: r)
  end.

Section PayloadProperties.
Context {rt : Runtime}.

(** Every payload is its validated fields followed by the unknown fields of
    the data. *)
Lemma build_shape (p : Payload) (data payload : JsVal) :
  build p data = Return payload ->
  exists validated,
    payload = object_literal (validated ++ Grocy.unknown_fields (known_fields p) data)
    /\ forallb (fun kv => existsb (str_eqb (fst kv)) (known_fields p)) validated = true.
Proof.
  destruct p; cbn [build known_fields];
    unfold Grocy.consume_data, Grocy.transfer_data, Grocy.open_data,
      Grocy.shopping_item_data, Grocy.shopping_removal_data, Grocy.new_user_data,
      Grocy.user_data, Grocy.recipe_products_data;
    intros H; run_checks H; injection H as <-;
    match goal with
    | |- exists validated, object_literal ?l = object_literal (validated ++ ?u) /\ _ =>
        let front := front_of l u in exists front
    end; (split; reflexivity).
Qed.

(** X21: in every structured payload an operation builds, a field of the
    data that the operation does not validate is forwarded with the value
    the caller gave it, whatever that value is; only a field named
    __proto__ is never forwarded. *)
Theorem unknown_fields_forwarded (p : Payload) (data : JsVal)
    (props : list (jsstring * JsVal)) (name : jsstring) :
  build p data = Return (JObj props) ->
  existsb (str_eqb name) (known_fields p) = false ->
  (name <> js "__proto__" -> own props name = own (Object_entries data) name)
  /\ own props (js "__proto__") = None.
Proof.
  intros H Hname. apply build_shape in H as (validated & E & Hv).
  rewrite !(own_object_literal _ _ _ (eq_sym E)). split.
  - intros Hp. rewrite own_app, (own_known _ _ _ Hv Hname).
    now apply own_unknown_fields.
  - rewrite own_app, (own_known _ (known_fields p)).
    + apply own_unknown_proto.
    + assumption.
    + now destruct p.
Qed.

End PayloadProperties.


Lemma validateId_cases (value : JsVal) (fieldName : jsstring) :
  (validateId value fieldName = Return value /\ positive_integer value)
  \/ (validateId value fieldName
      = Throw (mkError (fieldName ++ js " must be a positive integer"))
      /\ ~ positive_integer value).
Proof.
  destruct (validateId value fieldName) as [v|e] eqn:E.
  - left. apply validateId_returns in E as [-> H]. now split.
  - right. split.
    + unfold validateId in *. destruct (_ || _); [now symmetry | discriminate].
    + intros (q & -> & Hq & Hpos). unfold validateId in E.
      assert (Hi : Number_isInteger (JNum (Fin q)) = true)
        by (apply Number_isInteger_spec; now exists q).
      apply not_positive_spec in Hpos. rewrite Hi, Hpos in E. discriminate.
Qed.

Section MoreOperations.
Context {rt : Runtime}.

(** What [validateNumber] returns is its argument, a number within the
    bounds. *)
Lemma validateNumber_returns (value v : JsVal) (fieldName : jsstring)
    (options : NumberOptions) :
  lower_bound options <> NaN ->
  validateNumber value fieldName options = Return v ->
  exists n, value = JNum n /\ v = JNum n /\ n <> NaN
            /\ num_le (lower_bound options) n
            /\ (forall mx, opt_max options = Some mx -> mx <> NaN -> num_le n mx).
Proof.
  intros Hmin H.
  destruct value as [| |b|n|s|l|o]; try discriminate H.
  destruct (isNaN n) eqn:En; [destruct n; discriminate|].
  apply isNaN_false in En. rewrite (validateNumber_number _ _ _ En) in H.
  destruct (js_lt n (lower_bound options)) eqn:Elo; [discriminate H|].
  apply js_lt_false in Elo; [|assumption|assumption].
  exists n. split; [reflexivity|].
  destruct (opt_max options) as [mx|].
  - destruct (js_lt mx n) eqn:Ehi; [discriminate H|].
    injection H as <-. split; [reflexivity|]. split; [assumption|]. split; [assumption|].
    intros mx' E Hmx. injection E as <-. now apply js_lt_false in Ehi.
  - injection H as <-. split; [reflexivity|]. split; [assumption|]. split; [assumption|].
    discriminate.
Qed.

(** A call recorded behind the guard on the data was recorded by what
    follows, for data the guard let through. *)
Lemma guard_recorded (data : JsVal) (e : Error) (m : M RequestValue) (w : World)
    (call : URL * RequestInit) :
  fetched (snd ((if Grocy.not_an_object data then throw e else m) w))
  = fetched w ++ [call] ->
  Grocy.not_an_object data = false /\ fetched (snd (m w)) = fetched w ++ [call].
Proof.
  destruct (Grocy.not_an_object data); intros H; [|now split].
  now elim (not_extended _ _ H).
Qed.

(** X22: [createUser] reaches the transport only with data that is an
    object whose username and password are strings that validate: neither
    is blank, and the trimmed username has at most 50 code units, the
    trimmed password at most 200.  It POSTs to /users the JSON text of a
    payload that holds the username HTML-escaped and the password exactly as
    given. *)
Theorem createUser_call (data : JsVal) (w : World) (url : URL) (options : RequestInit) :
  fetched (snd (Grocy.createUser data w)) = fetched w ++ [(url, options)] ->
  exists username password props,
    Grocy.not_an_object data = false
    /\ get_property data (js "username") = Return (JStr username)
    /\ trim username <> [] /\ (Z.of_nat (List.length (trim username)) <= 50)%Z
    /\ get_property data (js "password") = Return (JStr password)
    /\ trim password <> [] /\ (Z.of_nat (List.length (trim password)) <= 200)%Z
    /\ own props (js "username") = Some (JStr (validator_escape username))
    /\ own props (js "password") = Some (JStr password)
    /\ url_source url = baseUrl (this w) ++ js "/users"
    /\ init_method options = js "POST"
    /\ init_body options = Some (JStr (JSON_stringify (JObj props))).
Proof.
  unfold Grocy.createUser. intros H.
  apply guard_recorded in H as [Hobj H].
  apply checked_then_recorded in H as (payload & Hp & H).
  unfold Grocy.new_user_data, Grocy.text_options, Grocy.path_options in Hp.
  run_checks Hp. injection Hp as <-.
  match goal with
  | E : validateString _ (js "Username") _ = Return _ |- _ =>
      apply validateString_bounds in E as (username & -> & Hu1 & Hu2 & ->)
  end.
  match goal with
  | E : validateString _ (js "Password") _ = Return _ |- _ =>
      apply validateString_bounds in E as (password & -> & Hp1 & Hp2 & ->)
  end.
  cbn [with_default] in H.
  apply request_recorded in H as (key & q0 & _ & _ & _ & Hq & ->).
  match goal with
  | |- context [Grocy.request_options _ _ (object_literal ?l)] =>
      exists username, password, (List.map snd (index_keyed l) ++ name_keyed l)
  end.
  rewrite !own_property_order.
  split; [assumption|]. split; [reflexivity|]. split; [assumption|].
  split; [assumption|]. split; [reflexivity|]. split; [assumption|].
  split; [assumption|]. split; [reflexivity|]. split; [reflexivity|].
  rewrite (with_query_source _ _ _ Hq). split; [reflexivity|]. split; reflexivity.
Qed.

(** X23: [transferProduct] reaches the transport only with a product id and
    two location ids that are positive integers and an amount that is a
    number of at least 0.001; it POSTs to /stock/products/<id>/transfer,
    with the string form of the id, a payload that holds these values
    unchanged. *)
Theorem transferProduct_call (productId data : JsVal) (w : World)
    (url : URL) (options : RequestInit) :
  fetched (snd (Grocy.transferProduct productId data w))
  = fetched w ++ [(url, options)] ->
  exists amount from to props id,
    positive_integer productId
    /\ get_property data (js "amount") = Return (JNum amount)
    /\ num_le (Fin (1 # 1000)) amount
    /\ get_property data (js "location_id_from") = Return from /\ positive_integer from
    /\ get_property data (js "location_id_to") = Return to /\ positive_integer to
    /\ own props (js "amount") = Some (JNum amount)
    /\ own props (js "location_id_from") = Some from
    /\ own props (js "location_id_to") = Some to
    /\ ToString productId = Return id
    /\ url_source url
       = baseUrl (this w) ++ js "/stock/products/" ++ id ++ js "/transfer"
    /\ init_method options = js "POST"
    /\ init_body options = Some (JStr (JSON_stringify (JObj props))).
Proof.
  unfold Grocy.transferProduct. intros H.
  apply checked_then_recorded in H as (pid & Hid & H).
  apply validateId_returns in Hid as [-> Hid].
  apply guard_recorded in H as [Hobj H].
  apply checked_then_recorded in H as (payload & Hp & H).
  apply checked_then_recorded in H as (id & Hs & H).
  unfold Grocy.transfer_data in Hp. run_checks Hp. injection Hp as <-.
  repeat match goal with
         | E : validateId _ _ = Return _ |- _ =>
             apply validateId_returns in E as [-> ?]
         end.
  match goal with
  | E : validateNumber ?a _ _ = Return ?b |- _ =>
      assert (Ha : exists n, a = JNum n /\ b = JNum n /\ num_le (Fin (1 # 1000)) n)
        by (apply validateNumber_returns in E as (n & ? & ? & _ & ? & _);
            [now exists n | discriminate])
  end.
  destruct Ha as (n & -> & -> & Hn).
  apply request_recorded in H as (key & q0 & _ & _ & _ & Hq & ->).
  match goal with
  | |- context [Grocy.request_options _ _ (object_literal ?l)] =>
      eexists n, _, _, (List.map snd (index_keyed l) ++ name_keyed l), id
  end.
  rewrite !own_property_order.
  split; [assumption|]. split; [reflexivity|]. split; [assumption|].
  split; [reflexivity|]. split; [assumption|].
  split; [reflexivity|]. split; [assumption|].
  split; [reflexivity|]. split; [reflexivity|]. split; [reflexivity|].
  split; [assumption|].
  rewrite (with_query_source _ _ _ Hq). split; [reflexivity|]. split; reflexivity.
Qed.

(** X24: the object id of [getUserfields] is taken in two ways: a number
    must be a positive integer and is put in the path in the string form of
    the number; any other value must be a string that validates (not blank,
    at most 100 code units once trimmed) and is put in the path
    HTML-escaped.  The entity name must validate too (not blank, at most 50
    code units once trimmed) and is put in the path as typed. *)
Theorem getUserfields_call (entity objectId : JsVal) (w : World)
    (url : URL) (options : RequestInit) :
  fetched (snd (Grocy.getUserfields entity objectId w)) = fetched w ++ [(url, options)] ->
  exists e,
    entity = JStr e
    /\ trim e <> [] /\ (Z.of_nat (List.length (trim e)) <= 50)%Z
    /\ ((exists q, objectId = JNum (Fin q) /\ is_integer q /\ (0 < q)%Q
           /\ url_source url
              = baseUrl (this w) ++ js "/userfields/" ++ e ++ js "/"
                                 ++ Number_toString (Fin q))
        \/ (exists s, objectId = JStr s
              /\ trim s <> [] /\ (Z.of_nat (List.length (trim s)) <= 100)%Z
              /\ url_source url
                 = baseUrl (this w) ++ js "/userfields/" ++ e ++ js "/"
                                    ++ validator_escape s)).
Proof.
  unfold Grocy.getUserfields, Grocy.path_options. intros H.
  apply checked_then_recorded in H as (e & He & H).
  apply validateString_bounds in He as (e0 & -> & He1 & He2 & ->).
  cbn [with_default] in H.
  apply checked_then_recorded in H as (id & Hid & H).
  apply checked_then_recorded in H as (s & Hs & H).
  apply request_recorded_source in H.
  exists e0. split; [reflexivity|]. split; [assumption|]. split; [assumption|].
  unfold Grocy.userfields_id, Grocy.text_options in Hid.
  destruct (str_eqb (typeof objectId) (js "number")) eqn:Et.
  - apply validateId_returns in Hid as [-> (q & -> & Hq & Hpos)].
    cbn [ToString] in Hs. injection Hs as <-.
    left. exists q. now repeat split.
  - run_checks Hid. injection Hid as <-.
    match goal with
    | E : validateString _ _ _ = Return _ |- _ =>
        apply validateString_bounds in E as (s0 & -> & Hs1 & Hs2 & ->)
    end.
    cbn [ToString with_default] in Hs. injection Hs as <-.
    right. exists s0. now repeat split.
Qed.

(** X25: [getTime] GETs /system/time, without a body, with the pairs of its
    offset as the only query: none when the offset is left out or null, and
    one pair, with the string form of the offset, for any other value that
    is no sequence, 0 included. *)
Theorem getTime_call (offset : JsVal) (w : World) (url : URL) (options : RequestInit) :
  fetched (snd (Grocy.getTime offset w)) = fetched w ++ [(url, options)] ->
  exists q0,
    URL_parse (baseUrl (this w) ++ js "/system/time") = Some q0
    /\ url = mkURL (baseUrl (this w) ++ js "/system/time")
               (q0 ++ entry_pairs (js "offset", offset))
    /\ (offset = JUndefined \/ offset = JNull ->
        url = mkURL (baseUrl (this w) ++ js "/system/time") q0)
    /\ (Array_isArray offset = false -> offset <> JUndefined -> offset <> JNull ->
        exists s,
          ToString offset = Return s
          /\ url = mkURL (baseUrl (this w) ++ js "/system/time")
                    (q0 ++ [(js "offset", USVString s)]))
    /\ init_method options = js "GET"
    /\ init_body options = None.
Proof.
  unfold Grocy.getTime. intros H.
  apply request_recorded in H as (key & q0 & _ & _ & Hu & Hq & ->).
  exists q0. split; [assumption|].
  pose proof (with_query_returns _ _ _ Hq) as E.
  cbn [url_source searchParams] in E.
  assert (Hpairs : flat_map entry_pairs
            (if truthy (if negb (is_null (if is_undefined offset then JNull else offset))
                        then JObj [(js "offset",
                                    if is_undefined offset then JNull else offset)]
                        else JObj [])
             then Object_entries
                    (if negb (is_null (if is_undefined offset then JNull else offset))
                     then JObj [(js "offset",
                                 if is_undefined offset then JNull else offset)]
                     else JObj [])
             else [])
          = entry_pairs (js "offset", offset)).
  { destruct offset; cbn [is_undefined is_null negb truthy Object_entries flat_map];
      now rewrite ?app_nil_r. }
  rewrite Hpairs in E. subst url.
  split; [reflexivity|]. split; [|split; [|split; reflexivity]].
  - intros [-> | ->]; cbn [entry_pairs snd]; now rewrite app_nil_r.
  - intros Ha Hu' Hn.
    assert (Hs : appendable offset).
    { rewrite with_query_entries in Hq. apply append_entries_inv in Hq.
      destruct offset; cbn [is_undefined is_null negb truthy Object_entries] in Hq;
        try congruence; now inversion Hq. }
    destruct offset; try congruence; try discriminate;
      destruct Hs as [form Hs]; exists form; (split; [exact Hs|]);
      cbn [entry_pairs snd fst]; now rewrite (string_form_eq _ _ Hs).
Qed.

(** A call recorded by an id check followed by [request]. *)
Lemma id_request_recorded (label prefix suffix method : jsstring) (id : JsVal)
    (path : jsstring -> jsstring) (w : World) (url : URL) (options : RequestInit) :
  (forall s, path s = prefix ++ s ++ suffix) ->
  fetched (snd ((x <- lift (validateId id label) ;;
                 s <- lift (ToString x) ;;
                 Grocy.request (path s) method JNull (JObj [])) w))
  = fetched w ++ [(url, options)] ->
  exists q q0,
    id = JNum (Fin q) /\ is_integer q /\ (0 < q)%Q
    /\ URL_parse (baseUrl (this w) ++ prefix ++ Number_toString (Fin q) ++ suffix)
       = Some q0
    /\ url = mkURL (baseUrl (this w) ++ prefix ++ Number_toString (Fin q) ++ suffix) q0
    /\ init_method options = method
    /\ init_body options = None.
Proof.
  intros Hpath H.
  apply checked_then_recorded in H as (x & Hx & H).
  apply validateId_returns in Hx as [-> (q & -> & Hq & Hpos)].
  apply checked_then_recorded in H as (s & Hs & H).
  cbn [ToString] in Hs. injection Hs as <-.
  rewrite Hpath in H.
  apply request_recorded in H as (key & q0 & _ & _ & Hu & Hw & ->).
  apply with_query_returns in Hw as ->.
  exists q, q0. split; [reflexivity|]. split; [assumption|]. split; [assumption|].
  split; [exact Hu|]. cbn [truthy Object_entries flat_map searchParams url_source].
  rewrite app_nil_r. split; [reflexivity|]. split; reflexivity.
Qed.

(** X26: each of the eight operations that take nothing but an id reaches
    the transport only with a positive integer, and then calls the path
    made of the operation's prefix, the string form of the number and the
    operation's suffix, with the operation's method, no query of its own and
    no body. *)
Theorem id_operation_call (op : Operation) (id : JsVal)
    (prefix suffix method : jsstring) (w : World) (url : URL) (options : RequestInit) :
  id_route op = Some (id, prefix, suffix, method) ->
  fetched (snd (perform op w)) = fetched w ++ [(url, options)] ->
  exists q q0,
    id = JNum (Fin q) /\ is_integer q /\ (0 < q)%Q
    /\ URL_parse (baseUrl (this w) ++ prefix ++ Number_toString (Fin q) ++ suffix)
       = Some q0
    /\ url = mkURL (baseUrl (this w) ++ prefix ++ Number_toString (Fin q) ++ suffix) q0
    /\ init_method options = method
    /\ init_body options = None.
Proof.
  intros Hroute H.
  destruct op; try discriminate Hroute; injection Hroute as <- <- <- <-;
    cbn [perform] in H;
    unfold Grocy.getStockEntry, Grocy.getProductDetails, Grocy.deleteUser,
      Grocy.getRecipeFulfillment, Grocy.consumeRecipe, Grocy.getChoreDetails,
      Grocy.getBatteryDetails, Grocy.undoTask in H;
    (eapply id_request_recorded; [|exact H]);
    intros x; cbn beta; rewrite ?app_nil_r; reflexivity.
Qed.

End MoreOperations.

(** The items of an array of ids validate to themselves, or the walk fails
    with the message of [validateId] under the fixed label. *)
Lemma map_items_ids (fieldName : jsstring) (ids : list JsVal) (i : nat) :
  (Forall positive_integer ids ->
   map_items (fun id _ => validateId id (js "Product ID")) fieldName i ids = Return ids)
  /\ (~ Forall positive_integer ids ->
      map_items (fun id _ => validateId id (js "Product ID")) fieldName i ids
      = Throw (mkError (js "Product ID must be a positive integer"))).
Proof.
  revert i. induction ids as [|id ids IH]; intros i.
  - split; [reflexivity|]. intros H. elim H. constructor.
  - rewrite map_items_cons.
    destruct (validateId_cases id (js "Product ID")) as [[E Hid] | [E Hid]]; rewrite E.
    + destruct (IH (S i)) as [IH1 IH2]. split.
      * intros H. inversion H; subst. now rewrite IH1.
      * intros H. rewrite IH2; [reflexivity|].
        intros Hall. apply H. now constructor.
    + split; [|reflexivity]. intros H. inversion H; subst. contradiction.
Qed.

Section Recipes.
Context {rt : Runtime}.

(** X27: the payload of [addRecipeProductsToShoppingList]: a falsy
    excluded_product_ids (left out, null, 0, the empty string) becomes
    undefined without a failure; an array of positive integers is kept as
    it is; an array with any other item fails with "Product ID must be a
    positive integer", which does not name the position; and any other
    truthy value fails with "Excluded product IDs must be an array". *)
Theorem recipe_products_data_spec (data excluded : JsVal) :
  get_property data (js "excluded_product_ids") = Return excluded ->
  (truthy excluded = false ->
   Grocy.recipe_products_data data
   = Return (object_literal
               ((js "excluded_product_ids", JUndefined)
                :: Grocy.unknown_fields [js "excluded_product_ids"] data)))
  /\ (forall ids, excluded = JArr ids -> Forall positive_integer ids ->
      Grocy.recipe_products_data data
      = Return (object_literal
                  ((js "excluded_product_ids", JArr ids)
                   :: Grocy.unknown_fields [js "excluded_product_ids"] data)))
  /\ (forall ids, excluded = JArr ids -> ~ Forall positive_integer ids ->
      Grocy.recipe_products_data data
      = Throw (mkError (js "Product ID must be a positive integer")))
  /\ (truthy excluded = true -> Array_isArray excluded = false ->
      Grocy.recipe_products_data data
      = Throw (mkError (js "Excluded product IDs must be an array"))).
Proof.
  intros He. unfold Grocy.recipe_products_data. rewrite He. cbn [and_then].
  split; [|split; [|split]].
  - now intros ->.
  - intros ids -> Hall. cbn [truthy].
    unfold validateArray.
    cbn [opt_array_required opt_itemValidator with_default Array_isArray truthy
         negb andb and_then].
    now rewrite (proj1 (map_items_ids _ ids 0) Hall).
  - intros ids -> Hall. cbn [truthy].
    unfold validateArray.
    cbn [opt_array_required opt_itemValidator with_default Array_isArray truthy
         negb andb and_then].
    now rewrite (proj2 (map_items_ids _ ids 0) Hall).
  - intros Ht Ha. rewrite Ht. unfold validateArray.
    cbn [opt_array_required opt_itemValidator with_default]. rewrite Ha.
    reflexivity.
Qed.

End Recipes.

(** ** Construction and the key setter *)

(** The validation of an API key on a string that is not empty. *)
Lemma api_key_string (s : jsstring) :
  s <> [] ->
  validateOptionalString (JStr s) (js "API key") Grocy.exact_options
  = if Z.ltb (Z.of_nat (List.length (trim s))) 1 then
      Throw (mkError (js "API key must be at least 1 characters"))
    else if Z.ltb 255 (Z.of_nat (List.length (trim s))) then
      Throw (mkError (js "API key must not exceed 255 characters"))
    else Return (Some s).
Proof.
  intros Hs. apply truthy_JStr in Hs.
  unfold validateOptionalString. cbn [is_null is_undefined orb].
  rewrite validateString_string. cbv zeta.
  cbn [Grocy.exact_options not_required opt_required opt_maxLength opt_minLength
       opt_sanitize with_default andb negb].
  rewrite Hs. cbn [negb].
  destruct (Z.ltb _ 1); [reflexivity|].
  destruct (Z.ltb 255 _); reflexivity.
Qed.

(** X28: [setApiKey] clears the key for null, undefined and the empty
    string; stores a string that is not blank and whose trimmed form has at
    most 255 code units, exactly as passed; and otherwise throws and keeps
    the key it had: "must be at least 1 characters" for a blank string,
    "must not exceed 255 characters" for a long one, "must be a string" for
    any other value. *)
Theorem setApiKey_spec (a : JsVal) (w : World) :
  (a = JNull \/ a = JUndefined \/ a = JStr [] ->
   Grocy.setApiKey a w
   = (Return tt, mkWorld (mkClient (baseUrl (this w)) None) (fetched w)))
  /\ (forall s, a = JStr s -> trim s <> [] -> (List.length (trim s) <= 255)%nat ->
      Grocy.setApiKey a w
      = (Return tt, mkWorld (mkClient (baseUrl (this w)) (Some s)) (fetched w)))
  /\ (forall s, a = JStr s -> s <> [] -> trim s = [] ->
      Grocy.setApiKey a w
      = (Throw (mkError (js "API key must be at least 1 characters")), w))
  /\ (forall s, a = JStr s -> (255 < List.length (trim s))%nat ->
      Grocy.setApiKey a w
      = (Throw (mkError (js "API key must not exceed 255 characters")), w))
  /\ ((forall s, a <> JStr s) -> a <> JNull -> a <> JUndefined ->
      Grocy.setApiKey a w = (Throw (mkError (js "API key must be a string")), w)).
Proof.
  unfold Grocy.setApiKey, bind, lift, assign_apiKey.
  split; [|split; [|split; [|split]]].
  - intros [-> | [-> | ->]]; reflexivity.
  - intros s -> Ht Hlen. rewrite (api_key_string s (trim_nonempty _ Ht)).
    destruct (trim s) as [|c t] eqn:E; [congruence|].
    replace (Z.ltb (Z.of_nat (List.length (c :: t))) 1) with false
      by (symmetry; apply Z.ltb_ge; cbn [List.length]; lia).
    replace (Z.ltb 255 (Z.of_nat (List.length (c :: t)))) with false
      by (symmetry; apply Z.ltb_ge; lia).
    unfold Grocy.stored_key. cbn [key_value].
    assert (Hs : truthy (JStr s) = true)
      by (apply truthy_JStr; intros ->; discriminate).
    now rewrite Hs.
  - intros s -> Hs Ht. rewrite (api_key_string s Hs), Ht. reflexivity.
  - intros s -> Hlen.
    assert (Hs : s <> []) by (intros ->; simpl in Hlen; lia).
    rewrite (api_key_string s Hs).
    replace (Z.ltb (Z.of_nat (List.length (trim s))) 1) with false
      by (symmetry; apply Z.ltb_ge; lia).
    replace (Z.ltb 255 (Z.of_nat (List.length (trim s)))) with true
      by (symmetry; apply Z.ltb_lt; lia).
    reflexivity.
  - intros Hs Hn Hu.
    destruct a as [| |b|n|s|l|o]; try congruence; try reflexivity;
      now elim (Hs s).
Qed.

Lemma setApiKey_spec_witness :
  Grocy.setApiKey (JStr (js "   ")) test_world
  = (Throw (mkError (js "API key must be at least 1 characters")), test_world).
Proof.
  refine (proj1 (proj2 (proj2 (setApiKey_spec (JStr (js "   ")) test_world)))
            (js "   ") eq_refl _ eq_refl).
  discriminate.
Defined.

(** X29: the constructor checks the base URL before the key, and rejects:
    a value that is neither a string nor null nor undefined, as not a
    string; null, undefined and a blank string, as required; a string whose
    trimmed form has more than 255 code units, as too long; whatever the
    key argument is. *)
Theorem constructor_rejects (b a : JsVal) :
  ((forall s, b <> JStr s) -> b <> JNull -> b <> JUndefined ->
   Grocy.constructor b a = Throw (mkError (js "Base URL must be a string")))
  /\ (b = JNull \/ b = JUndefined \/ (exists s, b = JStr s /\ trim s = []) ->
      Grocy.constructor b a
      = Throw (mkError (js "Base URL is required and must be non-empty")))
  /\ (forall s, b = JStr s -> (255 < List.length (trim s))%nat ->
      Grocy.constructor b a
      = Throw (mkError (js "Base URL must not exceed 255 characters"))).
Proof.
  unfold Grocy.constructor. split; [|split].
  - intros Hs Hn Hu.
    destruct b as [| |x|n|s|l|o]; try congruence; try reflexivity;
      now elim (Hs s).
  - intros [-> | [-> | (s & -> & Ht)]]; try reflexivity.
    rewrite validateString_string. cbv zeta.
    cbn [Grocy.exact_options opt_required with_default andb].
    assert (E : truthy (JStr (trim s)) = false) by now rewrite Ht.
    rewrite E. cbn [negb]. now rewrite orb_true_r.
  - intros s -> Hlen.
    assert (Ht : trim s <> []) by (intros E; rewrite E in Hlen; simpl in Hlen; lia).
    pose proof (trim_nonempty _ Ht) as Hs.
    apply truthy_JStr in Hs. apply truthy_JStr in Ht.
    rewrite validateString_string. cbv zeta.
    cbn [Grocy.exact_options opt_required opt_minLength opt_maxLength opt_sanitize
         with_default andb].
    rewrite Hs, Ht. cbn [negb orb].
    replace (Z.ltb (Z.of_nat (List.length (trim s))) 1) with false
      by (symmetry; apply Z.ltb_ge; lia).
    replace (Z.ltb 255 (Z.of_nat (List.length (trim s)))) with true
      by (symmetry; apply Z.ltb_lt; lia).
    reflexivity.
Qed.

Lemma constructor_rejects_witness :
  Grocy.constructor (JNum (Fin 123)) (JStr (js "test-api-key"))
  = Throw (mkError (js "Base URL must be a string")).
Proof.
  apply (proj1 (constructor_rejects (JNum (Fin 123)) (JStr (js "test-api-key"))));
    discriminate.
Defined.

(** ** The properties at work *)

Lemma request_failure_origin_witness :
  startsWith (js "Grocy API request failed: fetch failed")
             (js "Grocy API request failed: ") = true.
Proof.
  destruct (request_failure_origin (rt := quiet_host) (js "/stock") (js "GET") JNull
              (JObj []) test_world
              (mkError (js "Grocy API request failed: fetch failed")) eq_refl)
    as [[H _] | [[H _] | [[[H | H] _] | [H _]]]].
  - vm_compute in H. discriminate H.
  - vm_compute in H. discriminate H.
  - vm_compute in H. discriminate H.
  - vm_compute in H. discriminate H.
  - exact H.
Defined.

Lemma request_call_options_witness :
  exists url options,
    fetched (snd (Grocy.request (rt := quiet_host) (js "/users") (js "DELETE")
                    (JObj [(js "id", JNum (Fin 1))]) (JObj []) test_world))
    = fetched test_world ++ [(url, options)]
    /\ init_method options = js "DELETE" /\ init_body options = None.
Proof.
  eexists. eexists.
  match goal with |- ?H /\ _ => assert (Hcall : H) by reflexivity end.
  split; [exact Hcall|].
  destruct (request_call_options (rt := quiet_host) _ _ _ _ _ _ _ Hcall)
    as (key & _ & Hm & _ & _ & Hb).
  split; [exact Hm|]. apply Hb. right. split; discriminate.
Defined.

Lemma request_call_url_witness :
  exists url options,
    fetched (snd (Grocy.request (rt := quiet_host) (js "/test-endpoint") (js "GET")
                    JNull (JNum (Fin 123)) test_world))
    = fetched test_world ++ [(url, options)]
    /\ url = mkURL (js "https://grocy.example.com/api/test-endpoint") [].
Proof.
  eexists. eexists.
  match goal with |- ?H /\ _ => assert (Hcall : H) by reflexivity end.
  split; [exact Hcall|].
  destruct (request_call_url (rt := quiet_host) _ _ _ _ _ _ _ Hcall)
    as (q0 & Hu & _ & Hn & _).
  injection Hu as <-. apply Hn. now right.
Defined.

Lemma other_content_outcome_witness :
  fst (Grocy.request (rt := host (Resolved teapot))
         (js "/test-endpoint") (js "GET") JNull (JObj []) test_world)
  = Throw (mkError (js "Grocy API request failed: HTTP error! status: 418")).
Proof.
  refine (other_content_outcome (rt := host (Resolved teapot))
            (js "/test-endpoint") (js "GET") JNull (JObj []) test_world teapot _ _ _ _);
    try reflexivity; [eapply test_world_replies; reflexivity | discriminate].
Defined.

Lemma json_outcome_witness :
  fst (Grocy.request (rt := host (Resolved bad_gateway_html))
         (js "/stock") (js "GET") JNull (JObj []) test_world)
  = Throw (mkError (js "Grocy API request failed: Unexpected token < in JSON at position 0")).
Proof.
  refine (proj1 (json_outcome (rt := host (Resolved bad_gateway_html))
                   (js "/stock") (js "GET") JNull (JObj []) test_world
                   bad_gateway_html _ _ _) _ eq_refl);
    try reflexivity; [eapply test_world_replies; reflexivity | discriminate].
Defined.

Lemma network_failure_wrapped_witness :
  exists call,
    Grocy.request (rt := quiet_host) (js "/stock") (js "GET") JNull (JObj []) test_world
    = (Throw (mkError (js "Grocy API request failed: fetch failed")),
       after_call test_world call).
Proof.
  apply (network_failure_wrapped (rt := quiet_host) (js "/stock") (js "GET") JNull
           (JObj []) test_world (mkError (js "fetch failed"))).
  eapply test_world_replies; reflexivity.
Defined.

Lemma invalid_url_not_wrapped_witness :
  Grocy.request (rt := quiet_host) (js "/stock") (js "GET") JNull (JObj []) relative_world
  = (Throw (mkError (js "Invalid URL")), relative_world).
Proof.
  assert (K : js "test-api-key" <> []) by discriminate.
  exact (proj1 (invalid_url_not_wrapped (rt := quiet_host) (js "/stock") (js "GET")
                  JNull (JObj []) relative_world (js "test-api-key")
                  eq_refl K eq_refl)).
Defined.

(** The test of the repository: without a key, an empty group fails as a
    group. *)
Lemma uploadFile_check_order_witness :
  Grocy.uploadFile (rt := quiet_host) (JStr []) (JStr (js "test.jpg")) test_file_data
    keyless_world
  = (Throw (mkError (js "File group is required and must be non-empty")), keyless_world).
Proof.
  apply (proj1 (uploadFile_check_order (rt := quiet_host) (JStr [])
                  (JStr (js "test.jpg")) test_file_data keyless_world)).
  reflexivity.
Defined.

Lemma uploadFile_outcome_witness :
  fst (Grocy.uploadFile (rt := host (Resolved teapot))
         (JStr (js "productpictures")) (JStr (js "dGVzdC5qcGc=")) test_file_data
         test_world)
  = Throw (mkError (js "Grocy API request failed: Cannot parse as JSON")).
Proof.
  assert (K : js "test-api-key" <> []) by discriminate.
  refine (proj1 (proj2 (proj2
            (uploadFile_outcome (rt := host (Resolved teapot))
               (JStr (js "productpictures")) (JStr (js "dGVzdC5qcGc=")) test_file_data
               test_world (js "productpictures") (js "dGVzdC5qcGc=")
               (js "test-api-key") [] teapot _ _ _ _ K _ _)))
            (mkError (js "Cannot parse as JSON")) _ _);
    reflexivity.
Defined.

Lemma operation_requires_key_witness :
  exists e,
    perform (rt := quiet_host) (GetStockEntry (JNum (Fin 1))) keyless_world
    = (Throw e, keyless_world).
Proof.
  apply (operation_requires_key (rt := quiet_host)). reflexivity.
Defined.

Lemma operation_call_target_witness :
  exists url options key,
    fetched (snd (perform (rt := quiet_host) (GetStockEntry (JNum (Fin 1))) test_world))
    = fetched test_world ++ [(url, options)]
    /\ In (js "GROCY-API-KEY", key) (init_headers options).
Proof.
  eexists. eexists.
  match goal with
  | |- exists key, ?H /\ _ => assert (Hcall : H) by reflexivity
  end.
  destruct (operation_call_target (rt := quiet_host) _ _ _ _ Hcall)
    as (key & _ & _ & _ & Hin).
  exists key. split; [exact Hcall | exact Hin].
Defined.

Lemma operation_failure_after_call_witness :
  startsWith (js "Grocy API request failed: fetch failed")
             (js "Grocy API request failed: ") = true.
Proof.
  apply (operation_failure_after_call (rt := quiet_host) GetStock test_world
           (mkError (js "Grocy API request failed: fetch failed"))).
  - reflexivity.
  - intros H. apply (f_equal fetched) in H. vm_compute in H. discriminate H.
Defined.

Lemma getVolatileStock_call_witness :
  exists url options,
    fetched (snd (Grocy.getVolatileStock (rt := quiet_host) JUndefined test_world))
    = fetched test_world ++ [(url, options)]
    /\ init_method options = js "GET" /\ init_body options = None.
Proof.
  eexists. eexists.
  match goal with |- ?H /\ _ => assert (Hcall : H) by reflexivity end.
  split; [exact Hcall|].
  destruct (getVolatileStock_call (rt := quiet_host) _ _ _ _ Hcall)
    as (n & q0 & _ & _ & _ & _ & _ & Hm & Hb).
  split; [exact Hm | exact Hb].
Defined.

Lemma getObjects_call_witness :
  exists url options e,
    fetched (snd (Grocy.getObjects (rt := quiet_host) (JStr (js "products"))
                    (JObj [(js "query", JStr []); (js "limit", JNum (Fin 0))])
                    test_world))
    = fetched test_world ++ [(url, options)]
    /\ JStr (js "products") = JStr e.
Proof.
  eexists. eexists.
  match goal with
  | |- exists e, ?H /\ _ => assert (Hcall : H) by reflexivity
  end.
  destruct (getObjects_call (rt := quiet_host) _ _ _ _ _ Hcall)
    as (e & q0 & query & order & limit & offset & He & _).
  exists e. split; [exact Hcall | exact He].
Defined.

Lemma unknown_fields_forwarded_witness :
  own (match Grocy.new_user_data new_user with
       | Return (JObj props) => props
       | _ => []
       end) (js "row_created_timestamp")
  = own (Object_entries new_user) (js "row_created_timestamp").
Proof.
  assert (N : js "row_created_timestamp" <> js "__proto__")
    by (intros H; vm_compute in H; discriminate H).
  exact (proj1 (unknown_fields_forwarded (rt := quiet_host) NewUserData new_user _
                  (js "row_created_timestamp") eq_refl eq_refl) N).
Defined.

Lemma createUser_call_witness :
  exists url options,
    fetched (snd (Grocy.createUser (rt := quiet_host) new_user test_world))
    = fetched test_world ++ [(url, options)]
    /\ init_method options = js "POST".
Proof.
  eexists. eexists.
  match goal with |- ?H /\ _ => assert (Hcall : H) by reflexivity end.
  split; [exact Hcall|].
  destruct (createUser_call (rt := quiet_host) _ _ _ _ Hcall)
    as (u & p & props & _ & _ & _ & _ & _ & _ & _ & _ & _ & _ & Hm & _).
  exact Hm.
Defined.

Lemma transferProduct_call_witness :
  exists url options,
    fetched (snd (Grocy.transferProduct (rt := quiet_host) (JNum (Fin 7)) transfer
                    test_world))
    = fetched test_world ++ [(url, options)]
    /\ init_method options = js "POST".
Proof.
  eexists. eexists.
  match goal with |- ?H /\ _ => assert (Hcall : H) by reflexivity end.
  split; [exact Hcall|].
  destruct (transferProduct_call (rt := quiet_host) _ _ _ _ _ Hcall)
    as (a & f & t & props & id & _ & _ & _ & _ & _ & _ & _ & _ & _ & _ & _ & _ & Hm & _).
  exact Hm.
Defined.

Lemma getUserfields_call_witness :
  exists url options e,
    fetched (snd (Grocy.getUserfields (rt := quiet_host) (JStr (js "products"))
                    (JStr (js "a/b")) test_world))
    = fetched test_world ++ [(url, options)]
    /\ JStr (js "products") = JStr e.
Proof.
  eexists. eexists.
  match goal with
  | |- exists e, ?H /\ _ => assert (Hcall : H) by reflexivity
  end.
  destruct (getUserfields_call (rt := quiet_host) _ _ _ _ _ Hcall) as (e & He & _).
  exists e. split; [exact Hcall | exact He].
Defined.

Lemma getTime_call_witness :
  exists url options,
    fetched (snd (Grocy.getTime (rt := quiet_host) (JNum (Fin 0)) test_world))
    = fetched test_world ++ [(url, options)]
    /\ url = mkURL (js "https://grocy.example.com/api/system/time")
               [(js "offset", js "0")].
Proof.
  eexists. eexists.
  match goal with |- ?H /\ _ => assert (Hcall : H) by reflexivity end.
  split; [exact Hcall|].
  destruct (getTime_call (rt := quiet_host) _ _ _ _ Hcall)
    as (q0 & Hu & _ & _ & Hv & _).
  injection Hu as <-.
  assert (N1 : JNum (Fin 0) <> JUndefined) by discriminate.
  assert (N2 : JNum (Fin 0) <> JNull) by discriminate.
  destruct (Hv eq_refl N1 N2) as (s & Hs & Hurl).
  injection Hs as <-. exact Hurl.
Defined.

Lemma id_operation_call_witness :
  exists url options,
    fetched (snd (perform (rt := quiet_host) (UndoTask (JNum (Fin 4))) test_world))
    = fetched test_world ++ [(url, options)]
    /\ init_method options = js "POST" /\ init_body options = None.
Proof.
  eexists. eexists.
  match goal with |- ?H /\ _ => assert (Hcall : H) by reflexivity end.
  split; [exact Hcall|].
  destruct (id_operation_call (rt := quiet_host) (UndoTask (JNum (Fin 4))) _ _ _ _ _ _ _
              eq_refl Hcall)
    as (q & q0 & _ & _ & _ & _ & _ & Hm & Hb).
  split; [exact Hm | exact Hb].
Defined.

(** The test of the repository: one item of three is no id. *)
Lemma recipe_products_data_spec_witness :
  Grocy.recipe_products_data
    (JObj [(js "excluded_product_ids",
            JArr [JNum (Fin 1); JStr (js "abc"); JNum (Fin 3)])])
  = Throw (mkError (js "Product ID must be a positive integer")).
Proof.
  refine (proj1 (proj2 (proj2
            (recipe_products_data_spec
               (JObj [(js "excluded_product_ids",
                       JArr [JNum (Fin 1); JStr (js "abc"); JNum (Fin 3)])])
               (JArr [JNum (Fin 1); JStr (js "abc"); JNum (Fin 3)]) eq_refl)))
            [JNum (Fin 1); JStr (js "abc"); JNum (Fin 3)] eq_refl _).
  intros H. inversion H as [|x l H1 H2]; subst.
  inversion H2 as [|y l' H3 H4]; subst.
  destruct H3 as (q & E & _). discriminate E.
Defined.
